(** * Import maps with module integrity: resolution, verification,
      generation and batch validation

    A shallow embedding of the integrity protocol of the repository:

    - [ImportMapTs]      the verifier of [src/import-map.ts];
    - [Client]           the SHA-384-only client module
                         (module-integrity-client.js);
    - [ClientLegacy]     the earlier client module (module-integrity.js),
                         which takes the algorithm from the digest's tag;
    - [Generator]        the build-time generator of
                         [src/module-integrity-typescript.ts];
    - [BrowserGenerator] the fetch-based generator of the browser library;
    - [BuildValidator]   [validateBuildOutput] (build-validator.js);
    - [Validator]        [validateNextJSBuildIntegrity]
                         (module-integrity-validator.js);
    - [ServiceWorker]    the comparison of a served import map with a
                         trusted one (service-worker-import-map.js);
    - [NextPlugin]       the webpack plugin
                         (nextjs-module-integrity-plugin.js);
    - [Vercel]           its [generateVercelConfig];
    - [ClientTs]         the TypeScript client for NextJS v15 and its
                         [IntegrityModuleLoader];
    - [Scanner]          [readModulesFromDirectories] and [getAllFiles] of
                         [src/module-integrity-typescript.ts];
    - [Vite]             the Vite plugin (vite-plugin-module-integrity.ts).

    Conventions of the embedding.

    - A JavaScript string is a [string], read as a sequence of bytes (the
      UTF-8 encoding of the text), and [TextEncoder] is the identity on such
      strings.  A file is its bytes, and so is a [Buffer];
      [validateBuildOutput], which reads its files as text, sees them
      through the platform's [decodeUtf8].
    - A JavaScript object used as a map is the list of its own entries in
      the order [Object.entries] enumerates them ([Obj.get], [Obj.has],
      [Obj.set]); the reordering of integer-like keys is not modelled.
      The verifiers look names up that their caller chooses: there [o[k]]
      and [k in o] are [Obj.index] and [Obj.contains], which also find the
      members every object inherits from [Object.prototype], and [o[k] = v]
      in the loader and in the browser generator is [Obj.assign], which
      does nothing for [__proto__].  The build-time generator, the scanner,
      the plugins and the service worker are embedded over own entries;
      what is proved of them for names of the caller's choice says which
      names it covers.
    - A path on the [Disk] holds a regular file or nothing:
      [file D p = None] says that nothing exists at [p].  A path that
      exists without being a regular file, such as a directory, makes
      [fs.readFileSync] throw and the validator reject; such disks are
      not modelled.
    - File system, network, hashing and the [path] and [URL] helpers are
      not code of the repository: they are fields of a [Platform] and of the
      worlds [Browser] and [Disk]; statements hold for every platform, and
      [SHA2], [Posix] and [Reference] supply the SHA-2 family, POSIX paths
      and table-driven worlds to evaluate concrete runs.
    - An asynchronous function is modelled by what its promise settles to,
      together with the trace of fetches, digests, file reads and dynamic
      imports it performed on the way. *)

From Stdlib Require Import String Ascii List ZArith NArith Lia Bool Arith.
Import ListNotations.
Local Open Scope string_scope.

(** ** JavaScript strings *)

Module Js.

(** [s.startsWith(pre)] *)
Definition startsWith (pre s : string) : bool := String.prefix pre s.

(** [s.includes(sub)] *)
Fixpoint includes (sub s : string) : bool :=
  String.prefix sub s
  || match s with
     | EmptyString => false
     | String _ rest => includes sub rest
     end.

(** [s.substring(1)] *)
Definition substring1 (s : string) : string :=
  match s with
  | EmptyString => EmptyString
  | String _ rest => rest
  end.

(** [s.split(sep)[0]] for a one-character separator *)
Fixpoint splitHead (sep : ascii) (s : string) : string :=
  match s with
  | EmptyString => EmptyString
  | String c rest =>
      if Ascii.eqb c sep then EmptyString else String c (splitHead sep rest)
  end.

(** [s.replace(/\\/g, "/")] *)
Fixpoint backslashesToSlashes (s : string) : string :=
  match s with
  | EmptyString => EmptyString
  | String c rest =>
      String (if Ascii.eqb c "\"%char then "/"%char else c)
             (backslashesToSlashes rest)
  end.

Definition upperChar (c : ascii) : ascii :=
  let n := nat_of_ascii c in
  if Nat.leb 97 n && Nat.leb n 122 then ascii_of_nat (n - 32) else c.

(** [s.toUpperCase()] on ASCII letters; other bytes are kept *)
Fixpoint toUpperCase (s : string) : string :=
  match s with
  | EmptyString => EmptyString
  | String c rest => String (upperChar c) (toUpperCase rest)
  end.

(** [s.includes(c)] for a single character *)
Fixpoint mentions (c : ascii) (s : string) : bool :=
  match s with
  | EmptyString => false
  | String d rest => Ascii.eqb d c || mentions c rest
  end.

(** Truthiness of a string value that may be [undefined]: the empty
    string and [undefined] are falsy. *)
Definition truthy (v : option string) : bool :=
  match v with
  | Some s => negb (String.eqb s "")
  | None => false
  end.

(** [v || d] *)
Definition orElse (v : option string) (d : string) : string :=
  match v with
  | Some s => if String.eqb s "" then d else s
  | None => d
  end.

(** What [o[k]] gives for an object that holds strings: [undefined], a
    string, or the member that [Object.prototype] hands to every object
    under the name [k] (a function; under [__proto__] the prototype
    itself). *)
Inductive value : Type :=
| Undefined
| Str (s : string)
| Member (name : string).

(** The property names of [Object.prototype] (ECMAScript with Annex B). *)
Definition members : list string :=
  ["constructor"; "__defineGetter__"; "__defineSetter__"; "hasOwnProperty";
   "__lookupGetter__"; "__lookupSetter__"; "isPrototypeOf";
   "propertyIsEnumerable"; "toString"; "valueOf"; "__proto__";
   "toLocaleString"].

Definition inherited (k : string) : bool := existsb (String.eqb k) members.

(** Truthiness: a function or an object is truthy. *)
Definition isTruthy (v : value) : bool :=
  match v with
  | Undefined => false
  | Str s => negb (String.eqb s "")
  | Member _ => true
  end.

(** [v || d] *)
Definition orDefault (v d : value) : value := if isTruthy v then v else d.

(** [s === v] for a string [s]: no string equals a function or an
    object. *)
Definition strictEq (s : string) (v : value) : bool :=
  match v with
  | Str t => String.eqb s t
  | _ => false
  end.

(** [String(v)], as a property key, a URL or a part of a message; the text
    of a member is the engine's to choose. *)
Definition toString (memberText : string -> string) (v : value) : string :=
  match v with
  | Undefined => "undefined"
  | Str s => s
  | Member name => memberText name
  end.

End Js.

Coercion Js.Str : string >-> Js.value.

(** ** Objects as entry lists *)

Definition ImportMapEntry : Type := list (string * string).

Module Obj.

(** The value of the own property [k]: what [o[k]] gives for a key of
    [Object.keys(o)], and [None] where [o] has no such property of its
    own. *)
Fixpoint get {V : Type} (k : string) (o : list (string * V)) : option V :=
  match o with
  | [] => None
  | (k', v) :: rest => if String.eqb k k' then Some v else get k rest
  end.

(** [k] is an own property of [o]. *)
Definition has {V : Type} (k : string) (o : list (string * V)) : bool :=
  match get k o with
  | Some _ => true
  | None => false
  end.

(** [o[k] = v] for a key other than [__proto__]: an existing property
    keeps its place, a new one is appended. *)
Fixpoint set {V : Type} (k : string) (v : V) (o : list (string * V))
  : list (string * V) :=
  match o with
  | [] => [(k, v)]
  | (k', v') :: rest =>
      if String.eqb k k' then (k, v) :: rest else (k', v') :: set k v rest
  end.

Definition keys {V : Type} (o : list (string * V)) : list string :=
  map fst o.

(** [o[k]] for any [k], on an object made by a literal or by [JSON.parse]:
    the own property if there is one, else what [Object.prototype]
    supplies. *)
Definition index (k : string) (o : list (string * string)) : Js.value :=
  match get k o with
  | Some v => Js.Str v
  | None => if Js.inherited k then Js.Member k else Js.Undefined
  end.

(** [k in o] *)
Definition contains {V : Type} (k : string) (o : list (string * V)) : bool :=
  has k o || Js.inherited k.

(** [o[k] = v] for any [k] and a string [v]: [__proto__] names an accessor
    of [Object.prototype], whose setter ignores a string, so that the
    assignment changes nothing unless [o] has an own property of that
    name. *)
Definition assign (k v : string) (o : list (string * string))
  : list (string * string) :=
  if String.eqb k "__proto__" && negb (has k o) then o else set k v o.

End Obj.

(** [interface ImportMap]: each of the three fields is optional. *)
Record ImportMap := mkImportMap {
  imports : option ImportMapEntry;
  scopes : option (list (string * ImportMapEntry));
  integrity : option ImportMapEntry
}.

(** ** Base64 *)

Module Base64.

Definition alphabet : string :=
  "ABCDEFGHIJKLMNOPQRSTUVWXYZabcdefghijklmnopqrstuvwxyz0123456789+/".

Definition sextet (n : N) : ascii :=
  match String.get (N.to_nat n) alphabet with
  | Some c => c
  | None => "="%char
  end.

Fixpoint groups (bs : list N) : string :=
  match bs with
  | [] => ""
  | [a] =>
      String (sextet (a / 4)) (String (sextet ((a mod 4) * 16)) "==")
  | [a; b] =>
      String (sextet (a / 4))
        (String (sextet ((a mod 4) * 16 + b / 16))
           (String (sextet ((b mod 16) * 4)) "="))
  | a :: b :: c :: rest =>
      String (sextet (a / 4))
        (String (sextet ((a mod 4) * 16 + b / 16))
           (String (sextet ((b mod 16) * 4 + c / 64))
              (String (sextet (c mod 64)) (groups rest))))
  end.

(** Standard base64 with padding: [btoa] on a binary string and
    [hash.digest("base64")]. *)
Definition encode (s : string) : string :=
  groups (map N_of_ascii (list_ascii_of_string s)).

End Base64.

Definition btoa : string -> string := Base64.encode.

(** ** Effects: traces and rejections *)

(** What a run does that a caller can observe. *)
Inductive event : Type :=
| EvFetch (url : string)                  (* [fetch(url)] was issued *)
| EvDigest (algorithm content : string)   (* [content] was hashed *)
| EvRead (path : string)                  (* [fs.readFileSync(path)] *)
| EvImport (url : string).                (* [import(url)] was invoked *)

Inductive error : Type :=
| Error (message : string)
| TypeError (message : string)
| NotSupportedError (message : string)
| ModuleIntegrityError (message : string)
| ProcessExit (code : nat).

Inductive outcome (A : Type) : Type :=
| Resolved (value : A)
| Rejected (reason : error).
Arguments Resolved {A} value.
Arguments Rejected {A} reason.

(** A computation: the trace it leaves and how it settles. *)
Definition Eff (A : Type) : Type := list event * outcome A.

Definition ret {A : Type} (a : A) : Eff A := ([], Resolved a).

Definition throw {A : Type} (e : error) : Eff A := ([], Rejected e).

Definition emit (e : event) : Eff unit := ([e], Resolved tt).

Definition bind {A B : Type} (m : Eff A) (k : A -> Eff B) : Eff B :=
  match m with
  | (t, Resolved a) => let '(t', r) := k a in ((t ++ t')%list, r)
  | (t, Rejected e) => (t, Rejected e)
  end.

(** [try { m } catch (error) { handler }] *)
Definition tryCatch {A : Type} (m : Eff A) (handler : error -> Eff A) : Eff A :=
  match m with
  | (t, Resolved a) => (t, Resolved a)
  | (t, Rejected e) => let '(t', r) := handler e in ((t ++ t')%list, r)
  end.

Notation "x <- m ;; k" := (bind m (fun x => k))
  (at level 61, m at next level, right associativity).
Notation "m ;;; k" := (bind m (fun _ => k))
  (at level 61, right associativity).

(** [for (const entry of entries) { ... }], threading the state the body
    updates; a rejection in the body ends the loop. *)
Fixpoint forEach {S E : Type} (body : S -> E -> Eff S) (entries : list E)
         (state : S) : Eff S :=
  match entries with
  | [] => ret state
  | entry :: rest =>
      state' <- body state entry ;;
      forEach body rest state'
  end.

Definition trace {A : Type} (m : Eff A) : list event := fst m.
Definition settled {A : Type} (m : Eff A) : outcome A := snd m.

(** [import(url)]: the module namespace the platform hands back. *)
Inductive ModuleNamespace : Type := ModuleAt (url : string).

Definition dynamicImport (url : string) : Eff ModuleNamespace :=
  emit (EvImport url) ;;; ret (ModuleAt url).

(** ** The platform *)

(** Hashing and path handling as the host supplies them.  [sha384] is the
    raw 48-byte digest; [createHash] is Node's [crypto.createHash] and
    [subtleDigest] is [crypto.subtle.digest], both [None] on a name they do
    not know (the call throws).  [decodeUtf8] is what the bytes of a file
    become when they are read as text ([fs.readFileSync(path, "utf-8")])
    and that text is hashed: the UTF-8 encoding of the decoded string, in
    which every ill-formed sequence has become U+FFFD. *)
Record Platform := {
  sha384 : string -> string;
  createHash : string -> option (string -> string);
  createHash_sha384 : createHash "sha384" = Some sha384;
  subtleDigest : string -> option (string -> string);
  subtleDigest_SHA384 : subtleDigest "SHA-384" = Some sha384;
  path_join : string -> string -> string;
  path_basename : string -> string -> string;
  path_extname : string -> string;
  url_pathname : string -> option string;  (* [new URL(u).pathname] *)
  decodeUtf8 : string -> string
}.

Record Response := {
  ok : bool;
  statusText : string;
  text : string
}.

(** The page a client module runs in. *)
Record Browser := {
  fetch : string -> option Response;      (* [None]: the fetch rejects *)
  hasWindow : bool;                        (* [typeof window !== "undefined"] *)
  importMapScript : option ImportMap;      (* the parsed import map script *)
  memberText : string -> string            (* [String(Object.prototype[name])] *)
}.

(** [String(v)] in the page [W]. *)
Definition textOf (W : Browser) (v : Js.value) : string :=
  Js.toString (memberText W) v.

(** The build output as the validators see it. *)
Record Disk := {
  file : string -> option string;          (* [None]: no such file *)
  json : string -> option ImportMap        (* [JSON.parse] of that file *)
}.

Definition doFetch (W : Browser) (url : string) : Eff Response :=
  emit (EvFetch url) ;;;
  match fetch W url with
  | Some response => ret response
  | None => throw (TypeError "Failed to fetch")
  end.

(** ** src/import-map.ts *)

Module ImportMapTs.
Section Verifier.
Context (P : Platform) (W : Browser).

Definition calculateIntegrity (content : string) : Eff string :=
  match subtleDigest P "SHA-384" with
  | Some digest =>
      emit (EvDigest "SHA-384" content) ;;;
      ret ("sha384-" ++ btoa (digest content))
  | None => throw (NotSupportedError "SHA-384")
  end.

Definition fetchAndCalculateIntegrity (url : string) : Eff string :=
  response <- doFetch W url ;;
  calculateIntegrity (text response).

Definition resolveModuleSpecifier (specifier : string) (importMap : ImportMap)
  : Js.value :=
  match imports importMap with
  | Some table =>
      if Obj.contains specifier table then Obj.index specifier table
      else Js.Str specifier
  | None => Js.Str specifier
  end.

Definition hasIntegrityCheck (url : string) (importMap : ImportMap) : bool :=
  match integrity importMap with
  | Some table => Js.isTruthy (Obj.index url table)
  | None => false
  end.

(** [importMap.integrity?.[url]]; the caller passes what
    [resolveModuleSpecifier] returned. *)
Definition getIntegrityHash (url : Js.value) (importMap : ImportMap)
  : Js.value :=
  match integrity importMap with
  | Some table => Obj.index (textOf W url) table
  | None => Js.Undefined
  end.

Definition verifyIntegrity (url expectedHash : Js.value) : Eff bool :=
  tryCatch
    (response <- doFetch W (textOf W url) ;;
     actualHash <- calculateIntegrity (text response) ;;
     ret (Js.strictEq actualHash expectedHash))
    (fun _ => ret false).

Definition failedMessage (resolvedUrl : string) : string :=
  "Integrity check failed for module: " ++ resolvedUrl.

(** The [for] loop of the [else] branch: the first alias of [resolvedUrl]
    that carries an integrity entry aborts the import. *)
Fixpoint aliasLoop (resolvedUrl : Js.value) (importMap : ImportMap)
         (entries : ImportMapEntry) : Eff unit :=
  match entries with
  | [] => ret tt
  | (bareSpecifier, targetUrl) :: rest =>
      if Js.strictEq targetUrl resolvedUrl
         && hasIntegrityCheck bareSpecifier importMap
      then throw (Error (failedMessage (textOf W resolvedUrl)
                           ++ " (via " ++ bareSpecifier ++ ")"))
      else aliasLoop resolvedUrl importMap rest
  end.

Definition importWithIntegrity (specifier : string) (importMap : ImportMap)
  : Eff ModuleNamespace :=
  let resolvedUrl := resolveModuleSpecifier specifier importMap in
  let integrity := getIntegrityHash resolvedUrl importMap in
  (if Js.isTruthy integrity then
     isValid <- verifyIntegrity resolvedUrl integrity ;;
     if negb isValid then
       throw (Error (failedMessage (textOf W resolvedUrl)))
     else ret tt
   else
     aliasLoop resolvedUrl importMap
       (match imports importMap with Some table => table | None => [] end)) ;;;
  dynamicImport (textOf W resolvedUrl).

End Verifier.
End ImportMapTs.

(** ** module-integrity-client.js (SHA-384 only) *)

Module Client.
Section Verifier.
Context (P : Platform) (W : Browser).

Definition getImportMap : option ImportMap := importMapScript W.

(** Resolves to [null] when there is no [window]. *)
Definition calculateIntegrity (content : string) : Eff (option string) :=
  if negb (hasWindow W) then ret None
  else
    match subtleDigest P "SHA-384" with
    | Some digest =>
        emit (EvDigest "SHA-384" content) ;;;
        ret (Some ("sha384-" ++ btoa (digest content)))
    | None => throw (NotSupportedError "SHA-384")
    end.

Definition resolveSpecifier (specifier : string) : Js.value :=
  match getImportMap with
  | None => Js.Str specifier
  | Some importMap =>
      match imports importMap with
      | None => Js.Str specifier
      | Some table =>
          Js.orDefault (Obj.index specifier table) (Js.Str specifier)
      end
  end.

(** [importMap.integrity && importMap.integrity[key]] *)
Definition integrityAt (importMap : ImportMap) (key : string) : Js.value :=
  match integrity importMap with
  | Some table => Obj.index key table
  | None => Js.Undefined
  end.

(** The callers pass what [resolveSpecifier] returned. *)
Definition getIntegrityForUrl (url : Js.value) : Js.value :=
  match getImportMap with
  | None => Js.Undefined
  | Some importMap => integrityAt importMap (textOf W url)
  end.

(** The loop over [Object.entries(importMap.imports)]: the digest of the
    first specifier that maps to [url] and has a truthy integrity entry,
    [undefined] when the loop ends without one. *)
Fixpoint aliasIntegrity (importMap : ImportMap) (url : Js.value)
         (entries : ImportMapEntry) : Js.value :=
  match entries with
  | [] => Js.Undefined
  | (specifier, targetUrl) :: rest =>
      if Js.strictEq targetUrl url
         && Js.isTruthy (integrityAt importMap specifier)
      then integrityAt importMap specifier
      else aliasIntegrity importMap url rest
  end.

Definition hasIntegrityConstraint (url : Js.value) : bool :=
  match getImportMap with
  | None => false
  | Some importMap =>
      if Js.isTruthy (integrityAt importMap (textOf W url)) then true
      else
        match imports importMap with
        | Some table => Js.isTruthy (aliasIntegrity importMap url table)
        | None => false
        end
  end.

(** The value [verifyIntegrity] has in [integrity] after its loop: the
    direct entry if that is truthy, else the first alias's; when neither is
    there, the direct lookup's falsy result. *)
Definition expectedIntegrity (importMap : ImportMap) (url : Js.value)
  : Js.value :=
  let direct := integrityAt importMap (textOf W url) in
  if Js.isTruthy direct then direct
  else
    match imports importMap with
    | Some table =>
        if Js.isTruthy (aliasIntegrity importMap url table)
        then aliasIntegrity importMap url table
        else direct
    | None => direct
    end.

(** A digest found under an inherited name is a function:
    [integrity.startsWith] is then [undefined], and calling it throws
    before the [try] block is entered. *)
Definition verifyIntegrity (url : Js.value) : Eff bool :=
  match getImportMap with
  | None => ret true
  | Some importMap =>
      let integrity := expectedIntegrity importMap url in
      if negb (Js.isTruthy integrity) then ret true
      else
        match integrity with
        | Js.Str expected =>
            if negb (Js.startsWith "sha384-" expected) then ret false
            else
              tryCatch
                (response <- doFetch W (textOf W url) ;;
                 (if negb (ok response) then
                    throw (Error ("Failed to fetch module: "
                                    ++ statusText response))
                  else ret tt) ;;;
                 actualIntegrity <- calculateIntegrity (text response) ;;
                 ret (match actualIntegrity with
                      | Some actual => String.eqb actual expected
                      | None => false
                      end))
                (fun _ => ret false)
        | _ => throw (TypeError "integrity.startsWith is not a function")
        end
  end.

Definition importWithIntegrity (specifier : string) : Eff ModuleNamespace :=
  let url := resolveSpecifier specifier in
  (if hasIntegrityConstraint url then
     isValid <- verifyIntegrity url ;;
     if negb isValid then
       throw (Error ("Integrity check failed for module: " ++ textOf W url))
     else ret tt
   else ret tt) ;;;
  dynamicImport (textOf W url).

End Verifier.
End Client.

(** ** module-integrity.js (algorithm taken from the digest's tag) *)

Module ClientLegacy.
Section Verifier.
Context (P : Platform) (W : Browser).

Definition getImportMap : option ImportMap := importMapScript W.

Definition calculateIntegrity (content algorithm : string)
  : Eff (option string) :=
  if negb (hasWindow W) then ret None
  else
    match subtleDigest P (Js.toUpperCase algorithm) with
    | Some digest =>
        emit (EvDigest (Js.toUpperCase algorithm) content) ;;;
        ret (Some (algorithm ++ "-" ++ btoa (digest content)))
    | None => throw (NotSupportedError (Js.toUpperCase algorithm))
    end.

(** [resolveSpecifier], [hasIntegrityConstraint] and the lookup at the head
    of [verifyIntegrity] read the same in both client modules. *)
Definition resolveSpecifier : string -> Js.value := Client.resolveSpecifier W.

Definition hasIntegrityConstraint : Js.value -> bool :=
  Client.hasIntegrityConstraint W.

(** [integrity.split] is called inside the [try] block, after the fetch:
    for a digest that is a function the call throws and is caught. *)
Definition verifyIntegrity (url : Js.value) : Eff bool :=
  match getImportMap with
  | None => ret true
  | Some importMap =>
      let integrity := Client.expectedIntegrity W importMap url in
      if negb (Js.isTruthy integrity) then ret true
      else
        tryCatch
          (response <- doFetch W (textOf W url) ;;
           (if negb (ok response) then
              throw (Error ("Failed to fetch module: " ++ statusText response))
            else ret tt) ;;;
           match integrity with
           | Js.Str expected =>
               let algorithm := Js.splitHead "-" expected in
               actualIntegrity <- calculateIntegrity (text response) algorithm ;;
               ret (match actualIntegrity with
                    | Some actual => String.eqb actual expected
                    | None => false
                    end)
           | _ => throw (TypeError "integrity.split is not a function")
           end)
          (fun _ => ret false)
  end.

Definition importWithIntegrity (specifier : string) : Eff ModuleNamespace :=
  let url := resolveSpecifier specifier in
  (if hasIntegrityConstraint url then
     isValid <- verifyIntegrity url ;;
     if negb isValid then
       throw (Error ("Integrity check failed for module: " ++ textOf W url))
     else ret tt
   else ret tt) ;;;
  dynamicImport (textOf W url).

End Verifier.
End ClientLegacy.

(** ** src/module-integrity-typescript.ts: the build-time generator *)

Module Generator.
Section Generate.
Context (P : Platform).

(** [new ModuleIntegrityError(message)] prefixes the message. *)
Definition moduleIntegrityError (message : string) : error :=
  ModuleIntegrityError ("[ModuleIntegrity] " ++ message).

Definition invariant (condition : bool) (message : string) : Eff unit :=
  if negb condition then throw (moduleIntegrityError message) else ret tt.

Definition calculateIntegrity (content : string) : Eff string :=
  tryCatch
    (match createHash P "sha384" with
     | Some hash =>
         emit (EvDigest "sha384" content) ;;;
         ret ("sha384-" ++ Base64.encode (hash content))
     | None => throw (Error "Digest method not supported")
     end)
    (fun _ =>
       throw (moduleIntegrityError
                "Failed to calculate integrity: Digest method not supported")).

Definition normalizedPath (modulePath : string) : string :=
  if Js.startsWith "/" modulePath then modulePath else "/" ++ modulePath.

Definition specifierOf (modulePath : string) : string :=
  path_basename P modulePath (path_extname P modulePath).

Definition urlOf (baseUrl modulePath : string) : string :=
  Js.backslashesToSlashes (path_join P baseUrl (normalizedPath modulePath)).

(** The [for] loop over [Object.entries(modules)], threading the two
    tables it fills. *)
Fixpoint generateLoop (baseUrl : string) (entries : list (string * string))
         (imports integrity : ImportMapEntry)
  : Eff (ImportMapEntry * ImportMapEntry) :=
  match entries with
  | [] => ret (imports, integrity)
  | (modulePath, content) :: rest =>
      let specifier := specifierOf modulePath in
      let url := urlOf baseUrl modulePath in
      digest <- calculateIntegrity content ;;
      generateLoop baseUrl rest
        (Obj.set specifier url imports) (Obj.set url digest integrity)
  end.

Definition generateImportMapWithIntegrity
           (modules : list (string * string)) (baseUrl : string)
  : Eff ImportMap :=
  invariant (Nat.ltb 0 (length (Obj.keys modules)))
            "No modules provided for integrity calculation" ;;;
  tables <- generateLoop baseUrl modules [] [] ;;
  ret {| imports := Some (fst tables);
         scopes := None;
         integrity := Some (snd tables) |}.

End Generate.
End Generator.

(** ** The browser library's generator (modules given as specifier -> URL) *)

Module BrowserGenerator.
Section Generate.
Context (P : Platform) (W : Browser).

Definition calculateIntegrity (content : string) : Eff string :=
  ImportMapTs.calculateIntegrity P content.

Definition fetchAndCalculateIntegrity (url : string) : Eff string :=
  response <- doFetch W url ;;
  calculateIntegrity (text response).

Fixpoint generateLoop (entries : list (string * string))
         (imports integrity : ImportMapEntry)
  : Eff (ImportMapEntry * ImportMapEntry) :=
  match entries with
  | [] => ret (imports, integrity)
  | (specifier, url) :: rest =>
      digest <- fetchAndCalculateIntegrity url ;;
      generateLoop rest
        (Obj.assign specifier url imports) (Obj.assign url digest integrity)
  end.

Definition generateImportMapWithIntegrity (modules : list (string * string))
  : Eff ImportMap :=
  tables <- generateLoop modules [] [] ;;
  ret {| imports := Some (fst tables);
         scopes := None;
         integrity := Some (snd tables) |}.

End Generate.
End BrowserGenerator.

(** ** Batch validation *)

(** One element of [results.failures]. *)
Record Failure := {
  failure_url : string;
  failure_expected : string;
  failure_actual : option string;
  failure_error : option string
}.

Section FilePath.
Context (P : Platform).

(** The mapping from an integrity key to a path below [distDir], written
    the same way in both validators; [new URL] may throw. *)
Definition filePathOf (url : string) : Eff string :=
  if Js.startsWith "/" url then ret (Js.substring1 url)
  else if Js.includes "://" url then
    match url_pathname P url with
    | Some pathname => ret (Js.substring1 pathname)
    | None => throw (TypeError "Invalid URL")
    end
  else ret url.

Definition fullPathOf (distDir url : string) : Eff string :=
  filePath <- filePathOf url ;;
  ret (path_join P distDir filePath).
End FilePath.

(** *** build-validator.js: [validateBuildOutput] *)

Module BuildValidator.

Record Results := {
  total : nat;
  passed : nat;
  failed : nat;
  missing : nat;
  failures : list Failure
}.

Definition initial : Results :=
  {| total := 0; passed := 0; failed := 0; missing := 0; failures := [] |}.

(** [results.total++] and its siblings; the last two also push onto
    [results.failures]. *)
Definition incTotal (r : Results) : Results :=
  {| total := S (total r); passed := passed r; failed := failed r;
     missing := missing r; failures := failures r |}.

Definition incPassed (r : Results) : Results :=
  {| total := total r; passed := S (passed r); failed := failed r;
     missing := missing r; failures := failures r |}.

Definition incFailed (f : Failure) (r : Results) : Results :=
  {| total := total r; passed := passed r; failed := S (failed r);
     missing := missing r; failures := failures r ++ [f] |}.

Definition incMissing (f : Failure) (r : Results) : Results :=
  {| total := total r; passed := passed r; failed := failed r;
     missing := S (missing r); failures := failures r ++ [f] |}.

Definition notFound (url expectedHash : string) : Failure :=
  {| failure_url := url; failure_expected := expectedHash;
     failure_actual := None; failure_error := Some "File not found" |}.

Definition mismatch (url expectedHash actualHash : string) : Failure :=
  {| failure_url := url; failure_expected := expectedHash;
     failure_actual := Some actualHash; failure_error := None |}.

Section Validate.
Context (P : Platform) (D : Disk).

(** One iteration of the loop over [Object.entries(integrity)].  The file
    is read as text, and it is the text that is hashed. *)
Definition validateEntry (distDir : string) (results : Results)
           (entry : string * string) : Eff Results :=
  let '(url, expectedHash) := entry in
  let results := incTotal results in
  fullPath <- fullPathOf P distDir url ;;
  match file D fullPath with
  | None => ret (incMissing (notFound url expectedHash) results)
  | Some bytes =>
      emit (EvRead fullPath) ;;;
      let content := decodeUtf8 P bytes in
      let algorithm := Js.splitHead "-" expectedHash in
      match createHash P algorithm with
      | None => throw (Error "Digest method not supported")
      | Some hash =>
          emit (EvDigest algorithm content) ;;;
          let actualHash := algorithm ++ "-" ++ Base64.encode (hash content) in
          if String.eqb actualHash expectedHash then ret (incPassed results)
          else ret (incFailed (mismatch url expectedHash actualHash) results)
      end
  end.

(** The loop over [Object.entries(integrity)]. *)
Definition validateEntries (distDir : string) (entries : ImportMapEntry)
           (results : Results) : Eff Results :=
  forEach (validateEntry distDir) entries results.

(** The function logs its results and settles without a value; the
    embedding resolves to the final [results].  [process.exit(1)] is the
    rejection [ProcessExit 1]. *)
Definition validateBuildOutput (distDir : string) : Eff Results :=
  let importMapPath := path_join P distDir "importmap.json" in
  match file D importMapPath with
  | None => throw (ProcessExit 1)
  | Some _ =>
      emit (EvRead importMapPath) ;;;
      match json D importMapPath with
      | None => throw (Error "Unexpected token in JSON")
      | Some importMap =>
          match integrity importMap with
          | None => throw (ProcessExit 1)
          | Some [] => throw (ProcessExit 1)
          | Some table =>
              results <- validateEntries distDir table initial ;;
              if Nat.ltb 0 (length (failures results))
              then throw (ProcessExit 1)
              else ret results
          end
      end
  end.

End Validate.
End BuildValidator.

(** *** module-integrity-validator.js: [validateNextJSBuildIntegrity] *)

Module Validator.

Record ValidatorConfig := {
  distDir : option string;
  importMapPath : option string
}.

Record Results := {
  total : nat;
  passed : nat;
  failed : nat;
  missing : nat;
  failures : list Failure;
  success : bool
}.

Definition initial : Results :=
  {| total := 0; passed := 0; failed := 0; missing := 0; failures := [];
     success := false |}.

Definition incTotal (r : Results) : Results :=
  {| total := S (total r); passed := passed r; failed := failed r;
     missing := missing r; failures := failures r; success := success r |}.

Definition incPassed (r : Results) : Results :=
  {| total := total r; passed := S (passed r); failed := failed r;
     missing := missing r; failures := failures r; success := success r |}.

Definition incFailed (f : Failure) (r : Results) : Results :=
  {| total := total r; passed := passed r; failed := S (failed r);
     missing := missing r; failures := failures r ++ [f];
     success := success r |}.

Definition incMissing (f : Failure) (r : Results) : Results :=
  {| total := total r; passed := passed r; failed := failed r;
     missing := S (missing r); failures := failures r ++ [f];
     success := success r |}.

Definition setSuccess (b : bool) (r : Results) : Results :=
  {| total := total r; passed := passed r; failed := failed r;
     missing := missing r; failures := failures r; success := b |}.

Definition algorithm : string := "sha384".

(** Every one of [n] entries passed. *)
Definition allPassed (n : nat) (r : Results) : Prop :=
  total r = n /\ passed r = n /\ failed r = 0 /\ missing r = 0
  /\ failures r = [] /\ success r = true.

(** Counters and failure records move together. *)
Definition balanced (r : Results) : Prop :=
  total r = passed r + failed r + missing r
  /\ length (failures r) = failed r + missing r.

Definition unsupported (url expectedHash : string) : Failure :=
  {| failure_url := url; failure_expected := expectedHash;
     failure_actual := None;
     failure_error :=
       Some "Unsupported hash algorithm. Only SHA-384 is supported." |}.

Definition notFound (url expectedHash : string) : Failure :=
  {| failure_url := url; failure_expected := expectedHash;
     failure_actual := None; failure_error := Some "File not found" |}.

Definition mismatch (url expectedHash actualHash : string) : Failure :=
  {| failure_url := url; failure_expected := expectedHash;
     failure_actual := Some actualHash; failure_error := None |}.

Section Validate.
Context (P : Platform) (D : Disk).

Definition validateEntry (distDir : string) (results : Results)
           (entry : string * string) : Eff Results :=
  let '(url, expectedHash) := entry in
  let results := incTotal results in
  if negb (Js.startsWith (algorithm ++ "-") expectedHash) then
    ret (incFailed (unsupported url expectedHash) results)
  else
    fullPath <- fullPathOf P distDir url ;;
    match file D fullPath with
    | None => ret (incMissing (notFound url expectedHash) results)
    | Some content =>
        emit (EvRead fullPath) ;;;
        match createHash P algorithm with
        | None => throw (Error "Digest method not supported")
        | Some hash =>
            emit (EvDigest algorithm content) ;;;
            let actualHash :=
              algorithm ++ "-" ++ Base64.encode (hash content) in
            if String.eqb actualHash expectedHash then ret (incPassed results)
            else ret (incFailed (mismatch url expectedHash actualHash) results)
        end
    end.

(** The loop over [Object.entries(integrity)]. *)
Definition validateEntries (distDir : string) (entries : ImportMapEntry)
           (results : Results) : Eff Results :=
  forEach (validateEntry distDir) entries results.

Definition validateNextJSBuildIntegrity (config : ValidatorConfig)
  : Eff Results :=
  let distDir := Js.orElse (distDir config) ".next" in
  let importMapPath := Js.orElse (importMapPath config) "importmap.json" in
  let fullImportMapPath := path_join P distDir importMapPath in
  match file D fullImportMapPath with
  | None =>
      throw (Error ("Import map not found at " ++ fullImportMapPath))
  | Some _ =>
      emit (EvRead fullImportMapPath) ;;;
      match json D fullImportMapPath with
      | None => throw (Error "Unexpected token in JSON")
      | Some importMap =>
          match integrity importMap with
          | None => throw (Error "No integrity hashes found in import map")
          | Some [] => throw (Error "No integrity hashes found in import map")
          | Some table =>
              results <- validateEntries distDir table initial ;;
              if Nat.ltb 0 (length (failures results))
              then ret (setSuccess false results)
              else ret (setSuccess true results)
          end
      end
  end.

End Validate.
End Validator.

(** ** Reference platform

    Concrete host functions for evaluating runs: the SHA-2 family of
    FIPS 180-4, and the POSIX flavour of Node's [path]. *)

Module SHA2.
Local Open Scope Z_scope.

(** Word size, round constants, initial hash value, the rotation amounts
    of the four sigma functions and the number of output bytes. *)
Record params := {
  wbits : Z;
  rounds : nat;
  Kc : list Z;
  iv : list Z;
  bigS0 : Z * Z * Z;
  bigS1 : Z * Z * Z;
  sm0 : Z * Z * Z;
  sm1 : Z * Z * Z;
  outlen : nat
}.

Section Core.
Variable p : params.
Let w := wbits p.
Definition mask : Z := 2 ^ w - 1.
Definition wrap (x : Z) : Z := Z.land x mask.
Definition rotr (n x : Z) : Z :=
  Z.lor (Z.shiftr x n) (wrap (Z.shiftl x (w - n))).
Definition big (c : Z * Z * Z) (x : Z) : Z :=
  let '(r1, r2, r3) := c in
  Z.lxor (Z.lxor (rotr r1 x) (rotr r2 x)) (rotr r3 x).
Definition small (c : Z * Z * Z) (x : Z) : Z :=
  let '(r1, r2, s) := c in
  Z.lxor (Z.lxor (rotr r1 x) (rotr r2 x)) (Z.shiftr x s).
Definition Ch (x y z : Z) : Z :=
  Z.lxor (Z.land x y) (Z.land (Z.lxor x mask) z).
Definition Maj (x y z : Z) : Z :=
  Z.lxor (Z.lxor (Z.land x y) (Z.land x z)) (Z.land y z).

Fixpoint extend (n : nat) (recent : list Z) : list Z :=
  match n with
  | O => recent
  | S n' =>
      let wt :=
        wrap (small (sm1 p) (nth 1 recent 0) + nth 6 recent 0
              + small (sm0 p) (nth 14 recent 0) + nth 15 recent 0) in
      extend n' (wt :: recent)
  end.

Definition schedule (block : list Z) : list Z :=
  rev (extend (rounds p - 16)%nat (rev block)).

Definition round (st : list Z) (kw : Z * Z) : list Z :=
  match st with
  | [a; b; c; d; e; f; g; h] =>
      let t1 := h + big (bigS1 p) e + Ch e f g + fst kw + snd kw in
      let t2 := big (bigS0 p) a + Maj a b c in
      [wrap (t1 + t2); a; b; c; wrap (d + t1); e; f; g]
  | _ => st
  end.

Definition compress (h : list Z) (block : list Z) : list Z :=
  let st := fold_left round (combine (Kc p) (schedule block)) h in
  map (fun xy => wrap (fst xy + snd xy)) (combine h st).

Definition wbytes : nat := Z.to_nat (w / 8).

Fixpoint be_bytes (n : nat) (x : Z) : list Z :=
  match n with
  | O => []
  | S n' => be_bytes n' (Z.shiftr x 8) ++ [Z.land x 255]
  end.

Definition be_word (bs : list Z) : Z :=
  fold_left (fun acc b => acc * 256 + b) bs 0.

Fixpoint chunks {A : Type} (fuel n : nat) (l : list A) : list (list A) :=
  match fuel with
  | O => []
  | S fuel' =>
      match l with
      | [] => []
      | _ => firstn n l :: chunks fuel' n (skipn n l)
      end
  end.

Definition pad (msg : list Z) : list Z :=
  let block := (16 * wbytes)%nat in
  let lenb := (2 * wbytes)%nat in
  let used := ((length msg + 1 + lenb) mod block)%nat in
  let zeros := ((block - used) mod block)%nat in
  msg ++ [128] ++ repeat 0 zeros ++ be_bytes lenb (8 * Z.of_nat (length msg)).

Definition digest_bytes (msg : list Z) : list Z :=
  let padded := pad msg in
  let words := map be_word (chunks (length padded) wbytes padded) in
  let blocks := chunks (length words) 16 words in
  let h := fold_left compress blocks (iv p) in
  firstn (outlen p) (flat_map (be_bytes wbytes) h).

Definition digest (s : string) : string :=
  string_of_list_ascii
    (map (fun b => ascii_of_N (Z.to_N b))
       (digest_bytes
          (map (fun c => Z.of_N (N_of_ascii c)) (list_ascii_of_string s)))).
End Core.

(** The constants as FIPS 180-4 defines them: the leading bits of the
    fractional parts of the square and cube roots of the first primes. *)
Fixpoint cubeRootBits (bits : nat) (n x : Z) : Z :=
  match bits with
  | O => x
  | S b =>
      let y := x + 2 ^ Z.of_nat b in
      cubeRootBits b n (if y * y * y <=? n then y else x)
  end.

Definition cubeRoot (n : Z) : Z := cubeRootBits 80 n 0.

Definition isPrime (n : Z) : bool :=
  forallb (fun d => negb (n mod d =? 0) || (n <=? d))
          (map Z.of_nat (seq 2 19)).

(** The primes below 410: the first eighty. *)
Definition primes : list Z :=
  filter isPrime (map Z.of_nat (seq 2 408)).

Definition fractionOfCubeRoot (wordBits p : Z) : Z :=
  cubeRoot (p * 2 ^ (3 * wordBits)) mod 2 ^ wordBits.

Definition fractionOfSquareRoot (wordBits p : Z) : Z :=
  Z.sqrt (p * 2 ^ (2 * wordBits)) mod 2 ^ wordBits.

(** The tables, written out. *)
Definition K256 : list Z :=
  [ 1116352408; 1899447441; 3049323471; 3921009573; 961987163; 1508970993;
    2453635748; 2870763221; 3624381080; 310598401; 607225278; 1426881987;
    1925078388; 2162078206; 2614888103; 3248222580; 3835390401; 4022224774;
    264347078; 604807628; 770255983; 1249150122; 1555081692; 1996064986;
    2554220882; 2821834349; 2952996808; 3210313671; 3336571891; 3584528711;
    113926993; 338241895; 666307205; 773529912; 1294757372; 1396182291;
    1695183700; 1986661051; 2177026350; 2456956037; 2730485921; 2820302411;
    3259730800; 3345764771; 3516065817; 3600352804; 4094571909; 275423344;
    430227734; 506948616; 659060556; 883997877; 958139571; 1322822218;
    1537002063; 1747873779; 1955562222; 2024104815; 2227730452; 2361852424;
    2428436474; 2756734187; 3204031479; 3329325298 ].

Definition K512 : list Z :=
  [ 4794697086780616226; 8158064640168781261; 13096744586834688815;
    16840607885511220156; 4131703408338449720; 6480981068601479193;
    10538285296894168987; 12329834152419229976; 15566598209576043074;
    1334009975649890238; 2608012711638119052; 6128411473006802146;
    8268148722764581231; 9286055187155687089; 11230858885718282805;
    13951009754708518548; 16472876342353939154; 17275323862435702243;
    1135362057144423861; 2597628984639134821; 3308224258029322869;
    5365058923640841347; 6679025012923562964; 8573033837759648693;
    10970295158949994411; 12119686244451234320; 12683024718118986047;
    13788192230050041572; 14330467153632333762; 15395433587784984357;
    489312712824947311; 1452737877330783856; 2861767655752347644;
    3322285676063803686; 5560940570517711597; 5996557281743188959;
    7280758554555802590; 8532644243296465576; 9350256976987008742;
    10552545826968843579; 11727347734174303076; 12113106623233404929;
    14000437183269869457; 14369950271660146224; 15101387698204529176;
    15463397548674623760; 17586052441742319658; 1182934255886127544;
    1847814050463011016; 2177327727835720531; 2830643537854262169;
    3796741975233480872; 4115178125766777443; 5681478168544905931;
    6601373596472566643; 7507060721942968483; 8399075790359081724;
    8693463985226723168; 9568029438360202098; 10144078919501101548;
    10430055236837252648; 11840083180663258601; 13761210420658862357;
    14299343276471374635; 14566680578165727644; 15097957966210449927;
    16922976911328602910; 17689382322260857208; 500013540394364858;
    748580250866718886; 1242879168328830382; 1977374033974150939;
    2944078676154940804; 3659926193048069267; 4368137639120453308;
    4836135668995329356; 5532061633213252278; 6448918945643986474;
    6902733635092675308; 7801388544844847127 ].

Definition IV256 : list Z :=
  [ 1779033703; 3144134277; 1013904242; 2773480762;
    1359893119; 2600822924; 528734635; 1541459225 ].

Definition IV384 : list Z :=
  [ 14680500436340154072; 7105036623409894663; 10473403895298186519;
    1526699215303891257; 7436329637833083697; 10282925794625328401;
    15784041429090275239; 5167115440072839076 ].

Definition IV512 : list Z :=
  [ 7640891576956012808; 13503953896175478587; 4354685564936845355;
    11912009170470909681; 5840696475078001361; 11170449401992604703;
    2270897969802886507; 6620516959819538809 ].

Definition sha256_params : params :=
  {| wbits := 32; rounds := 64%nat; Kc := K256; iv := IV256;
     bigS0 := (2, 13, 22); bigS1 := (6, 11, 25);
     sm0 := (7, 18, 3); sm1 := (17, 19, 10);
     outlen := 32%nat |}.

Definition sha512_params : params :=
  {| wbits := 64; rounds := 80%nat; Kc := K512; iv := IV512;
     bigS0 := (28, 34, 39); bigS1 := (14, 18, 41);
     sm0 := (1, 8, 7); sm1 := (19, 61, 6);
     outlen := 64%nat |}.

Definition sha384_params : params :=
  {| wbits := 64; rounds := 80%nat; Kc := K512; iv := IV384;
     bigS0 := (28, 34, 39); bigS1 := (14, 18, 41);
     sm0 := (1, 8, 7); sm1 := (19, 61, 6);
     outlen := 48%nat |}.

Definition sha256 := digest sha256_params.
Definition sha384 := digest sha384_params.
Definition sha512 := digest sha512_params.
End SHA2.

Module Posix.

(** [s.split("/")] *)
Fixpoint segments (s : string) : list string :=
  match s with
  | EmptyString => [EmptyString]
  | String c rest =>
      if Ascii.eqb c "/"%char then EmptyString :: segments rest
      else
        match segments rest with
        | seg :: more => String c seg :: more
        | [] => [String c EmptyString]
        end
  end.

(** Dot segments resolved against the segments kept so far (most recent
    first). *)
Fixpoint resolveDots (allowAboveRoot : bool) (kept : list string)
         (segs : list string) : list string :=
  match segs with
  | [] => rev kept
  | seg :: rest =>
      if String.eqb seg "" || String.eqb seg "." then
        resolveDots allowAboveRoot kept rest
      else if String.eqb seg ".." then
        match kept with
        | top :: below =>
            if String.eqb top ".." then
              resolveDots allowAboveRoot (seg :: kept) rest
            else resolveDots allowAboveRoot below rest
        | [] =>
            if allowAboveRoot then resolveDots allowAboveRoot [seg] rest
            else resolveDots allowAboveRoot [] rest
        end
      else resolveDots allowAboveRoot (seg :: kept) rest
  end.

(** [s] is not empty and its last character is a slash. *)
Fixpoint endsWithSlash (s : string) : bool :=
  match s with
  | EmptyString => false
  | String c EmptyString => Ascii.eqb c "/"%char
  | String _ rest => endsWithSlash rest
  end.

(** [path.normalize] *)
Definition normalize (path : string) : string :=
  if String.eqb path "" then "."
  else
    let isAbsolute := Js.startsWith "/" path in
    let trailing := endsWithSlash path in
    let body :=
      String.concat "/" (resolveDots (negb isAbsolute) [] (segments path)) in
    if String.eqb body "" then
      if isAbsolute then "/" else if trailing then "./" else "."
    else
      let body := if trailing then body ++ "/" else body in
      if isAbsolute then "/" ++ body else body.

(** [path.join(a, b)] *)
Definition join (a b : string) : string :=
  if String.eqb a "" then normalize b
  else if String.eqb b "" then normalize a
  else normalize (a ++ "/" ++ b).

(** The last non-empty segment. *)
Definition base (path : string) : string :=
  match filter (fun seg => negb (String.eqb seg "")) (rev (segments path)) with
  | seg :: _ => seg
  | [] => ""
  end.

(** The suffix of [s] that starts at its last dot. *)
Fixpoint fromLastDot (s : string) : option string :=
  match s with
  | EmptyString => None
  | String c rest =>
      match fromLastDot rest with
      | Some ext => Some ext
      | None => if Ascii.eqb c "."%char then Some s else None
      end
  end.

(** [path.extname] *)
Definition extname (path : string) : string :=
  let b := base path in
  match fromLastDot b with
  | None => ""
  | Some ext =>
      if String.eqb ext b || String.eqb b ".." then "" else ext
  end.

Definition dropLast (n : nat) (s : string) : string :=
  String.substring 0 (String.length s - n) s.

Definition endsWith (suffix s : string) : bool :=
  String.eqb
    (String.substring (String.length s - String.length suffix)
       (String.length suffix) s)
    suffix
  && Nat.leb (String.length suffix) (String.length s).

(** [path.basename(path, ext)], for an [ext] that is empty or a proper
    suffix of the base name (the generator passes [extname path]). *)
Definition basename (path ext : string) : string :=
  let b := base path in
  if negb (String.eqb ext "") && endsWith ext b && negb (String.eqb ext b)
  then dropLast (String.length ext) b
  else b.

(** A relative path as a directory walk yields it: every segment is a
    name other than [.] and [..], and no backslash occurs. *)
Definition properName (seg : string) : bool :=
  negb (String.eqb seg "") && negb (String.eqb seg ".")
  && negb (String.eqb seg "..").

Definition plain (path : string) : bool :=
  forallb properName (segments path) && negb (Js.mentions "\"%char path).

End Posix.

Module Reference.

(** [crypto.createHash] as far as this file implements it: the three SHA-2
    members above.  Node knows further algorithms (sha1, md5, sha224, ...);
    no run evaluated below asks for one. *)
Definition nodeCreateHash (name : string) : option (string -> string) :=
  if String.eqb name "sha384" then Some SHA2.sha384
  else if String.eqb name "sha256" then Some SHA2.sha256
  else if String.eqb name "sha512" then Some SHA2.sha512
  else None.

(** [crypto.subtle.digest]: WebCrypto names, matched without regard to
    case. *)
Definition webSubtleDigest (name : string) : option (string -> string) :=
  let upper := Js.toUpperCase name in
  if String.eqb upper "SHA-384" then Some SHA2.sha384
  else if String.eqb upper "SHA-256" then Some SHA2.sha256
  else if String.eqb upper "SHA-512" then Some SHA2.sha512
  else None.

Definition isAlpha (c : ascii) : bool :=
  let n := nat_of_ascii (Js.upperChar c) in Nat.leb 65 n && Nat.leb n 90.

Definition isSchemeChar (c : ascii) : bool :=
  let n := nat_of_ascii c in
  isAlpha c || (Nat.leb 48 n && Nat.leb n 57)
  || Ascii.eqb c "+"%char || Ascii.eqb c "-"%char || Ascii.eqb c "."%char.

(** The scheme and what follows ["://"], when the scheme is well formed. *)
Fixpoint splitScheme (s : string) : option (string * string) :=
  match s with
  | EmptyString => None
  | String c rest =>
      if String.prefix "://" s then
        Some (EmptyString, Js.substring1 (Js.substring1 rest))
      else if isSchemeChar c then
        match splitScheme rest with
        | Some (scheme, after) => Some (String c scheme, after)
        | None => None
        end
      else None
  end.

Fixpoint dropWhile (keep : ascii -> bool) (s : string) : string :=
  match s with
  | EmptyString => EmptyString
  | String c rest => if keep c then dropWhile keep rest else s
  end.

Fixpoint takeWhile (keep : ascii -> bool) (s : string) : string :=
  match s with
  | EmptyString => EmptyString
  | String c rest =>
      if keep c then String c (takeWhile keep rest) else EmptyString
  end.

Definition endsPath (c : ascii) : bool :=
  Ascii.eqb c "?"%char || Ascii.eqb c "#"%char.

(** [new URL(u).pathname] for [scheme://host/path?query#fragment]
    without dot segments or characters that need escaping. *)
Definition pathnameOf (u : string) : option string :=
  match splitScheme u with
  | Some (String c scheme, after) =>
      if isAlpha c then
        let fromPath :=
          dropWhile
            (fun x => negb (Ascii.eqb x "/"%char || endsPath x)) after in
        let pathname := takeWhile (fun x => negb (endsPath x)) fromPath in
        Some (if String.eqb pathname "" then "/" else pathname)
      else None
  | _ => None
  end.

(** U+FFFD in UTF-8. *)
Definition replacement : string :=
  String (ascii_of_N 239) (String (ascii_of_N 191) (String (ascii_of_N 189) "")).

(** What the first byte of a sequence announces: a character of its own,
    a sequence of [more] further bytes the first of which lies between
    [lower] and [upper], or nothing a sequence can start with. *)
Inductive Lead : Type :=
| Single
| Starts (more : nat) (lower upper : N)
| Stray.

Definition lead (b : N) : Lead :=
  if N.leb b 127 then Single
  else if N.leb 194 b && N.leb b 223 then Starts 1 128 191
  else if N.leb 224 b && N.leb b 239 then
    Starts 2 (if N.eqb b 224 then 160 else 128)
             (if N.eqb b 237 then 159 else 191)
  else if N.leb 240 b && N.leb b 244 then
    Starts 3 (if N.eqb b 240 then 144 else 128)
             (if N.eqb b 244 then 143 else 191)
  else Stray.

(** The UTF-8 decoder of the Encoding standard, followed by the encoder: a
    well-formed sequence is passed on, and each maximal ill-formed part
    becomes U+FFFD.  [held] holds the bytes of the sequence being read, the
    number of bytes it still needs and the bounds of the next one. *)
Fixpoint decodeFrom (held : option (string * nat * N * N)) (s : string)
  : string :=
  match s with
  | EmptyString =>
      match held with
      | Some _ => replacement
      | None => EmptyString
      end
  | String c rest =>
      let b := N_of_ascii c in
      match held with
      | Some (seen, more, lower, upper) =>
          if N.leb lower b && N.leb b upper then
            match more with
            | S (S further) =>
                decodeFrom
                  (Some (seen ++ String c "", S further, 128%N, 191%N)) rest
            | _ => seen ++ String c (decodeFrom None rest)
            end
          else
            replacement
              ++ match lead b with
                 | Single => String c (decodeFrom None rest)
                 | Starts more' lower' upper' =>
                     decodeFrom (Some (String c "", more', lower', upper')) rest
                 | Stray => replacement ++ decodeFrom None rest
                 end
      | None =>
          match lead b with
          | Single => String c (decodeFrom None rest)
          | Starts more' lower' upper' =>
              decodeFrom (Some (String c "", more', lower', upper')) rest
          | Stray => replacement ++ decodeFrom None rest
          end
      end
  end.

Definition utf8 (bytes : string) : string := decodeFrom None bytes.

(** [String(Object.prototype[name])] as V8 prints it. *)
Definition nativeText (name : string) : string :=
  if String.eqb name "__proto__" then "[object Object]"
  else
    "function "
      ++ (if String.eqb name "constructor" then "Object" else name)
      ++ "() { [native code] }".

Definition platform : Platform :=
  {| sha384 := SHA2.sha384;
     createHash := nodeCreateHash;
     createHash_sha384 := eq_refl;
     subtleDigest := webSubtleDigest;
     subtleDigest_SHA384 := eq_refl;
     path_join := Posix.join;
     path_basename := Posix.basename;
     path_extname := Posix.extname;
     url_pathname := pathnameOf;
     decodeUtf8 := utf8 |}.

(** A world given by tables. *)
Definition lookup {V : Type} (table : list (string * V)) (k : string)
  : option V := Obj.get k table.

Definition page (responses : list (string * Response))
           (importMap : option ImportMap) : Browser :=
  {| fetch := lookup responses;
     hasWindow := true;
     importMapScript := importMap;
     memberText := nativeText |}.

Definition disk (files : list (string * string))
           (documents : list (string * ImportMap)) : Disk :=
  {| file := lookup files; json := lookup documents |}.

Definition okResponse (body : string) : Response :=
  {| ok := true; statusText := "OK"; text := body |}.

End Reference.

(** ** Resolution as the specification words it

    Section 4.2, step 1: a scope whose prefix is a prefix of the referrer
    and which maps the specifier overrides [imports]; among several, the
    longest prefix wins; then [imports]; then the specifier itself. *)

Module Spec.

Definition applies (referrer specifier : string)
           (scope : string * ImportMapEntry) : bool :=
  String.prefix (fst scope) referrer && Obj.has specifier (snd scope).

Fixpoint longest (best : option (string * ImportMapEntry))
         (candidates : list (string * ImportMapEntry))
  : option (string * ImportMapEntry) :=
  match candidates with
  | [] => best
  | scope :: rest =>
      match best with
      | Some held =>
          if Nat.ltb (String.length (fst held)) (String.length (fst scope))
          then longest (Some scope) rest
          else longest best rest
      | None => longest (Some scope) rest
      end
  end.

Definition applicableScope (referrer specifier : string) (m : ImportMap)
  : option (string * ImportMapEntry) :=
  match scopes m with
  | Some table => longest None (filter (applies referrer specifier) table)
  | None => None
  end.

Definition resolveWithScopes (referrer specifier : string) (m : ImportMap)
  : string :=
  match applicableScope referrer specifier m with
  | Some (_, overrides) =>
      match Obj.get specifier overrides with
      | Some url => url
      | None => specifier
      end
  | None =>
      match imports m with
      | Some table =>
          match Obj.get specifier table with
          | Some url => url
          | None => specifier
          end
      | None => specifier
      end
  end.

End Spec.

(** ** Sample maps and worlds *)

Module Examples.

(** A map whose scope ["/app/"] overrides the global target of ["lib"]. *)
Definition scopedMap : ImportMap :=
  {| imports := Some [("lib", "/vendor/lib.js")];
     scopes := Some [("/app/", [("lib", "/app/vendor/lib.js")])];
     integrity := None |}.

Definition moduleF : string := "console.log('Module F loaded')".
Definition moduleD : string := "console.log('Module D loaded')".

(** The SHA-384 digest string of [moduleF]. *)
Definition digestF : string :=
  "sha384-SVM0OmOk6WXCjSWa+xrtaGgaREJ5fMw5Ku0Ae+9VmdHfMZN1hA1E70nojLmlNAmW".

(** The shape of the repository's test map: [G] and [bare2] both point at
    [F]; only [bare2] carries a digest, here the true SHA-384 of [F]. *)
Definition aliasMap : ImportMap :=
  {| imports := Some [("log?name=C", "log?name=D");
                      ("log?name=G", "log?name=F");
                      ("bare2", "log?name=F")];
     scopes := None;
     integrity := Some [("bare2", digestF)] |}.

(** The same targets with the digest declared for the URL itself. *)
Definition directMap : ImportMap :=
  {| imports := Some [("log?name=G", "log?name=F")];
     scopes := None;
     integrity := Some [("log?name=F", digestF)] |}.

Definition responses : list (string * Response) :=
  [("log?name=F", Reference.okResponse moduleF);
   ("log?name=D", Reference.okResponse moduleD)].

Definition aliasPage : Browser := Reference.page responses (Some aliasMap).
Definition directPage : Browser := Reference.page responses (Some directMap).

(** [F] was replaced on the server after the digest was declared. *)
Definition tamperedPage : Browser :=
  Reference.page [("log?name=F", Reference.okResponse moduleD)]
                 (Some directMap).

(** A page whose map declares a SHA-256 digest (the true one) for [F]. *)
Definition digestF256 : string :=
  "sha256-KwLk3fFoXX5PnREDg2BWbDJyn+M39k2CX/eGHVa110Q=".

Definition foreignMap : ImportMap :=
  {| imports := Some [("log?name=G", "log?name=F")];
     scopes := None;
     integrity := Some [("log?name=F", digestF256)] |}.

Definition foreignPage : Browser := Reference.page responses (Some foreignMap).

(** A map without an [imports] section, and a page that serves a module
    under the name [valueOf]. *)
Definition bareMap : ImportMap :=
  {| imports := None;
     scopes := None;
     integrity := Some [("log?name=F", digestF)] |}.

Definition barePage : Browser :=
  Reference.page
    [("valueOf", Reference.okResponse moduleD);
     ("log?name=F", Reference.okResponse moduleF)]
    (Some bareMap).

(** A map whose integrity entry for [F] is the empty string. *)
Definition emptyDigestMap : ImportMap :=
  {| imports := Some [("log?name=G", "log?name=F")];
     scopes := None;
     integrity := Some [("log?name=F", "")] |}.

Definition emptyDigestPage : Browser :=
  Reference.page responses (Some emptyDigestMap).

Definition moduleA : string := "export const a = 1;".
Definition moduleB : string := "export const b = 2;".
Definition digestA : string :=
  "sha384-cbUm2un28wzCuhRbr5P2NjvygLIPE7Upshq7IFu3zHWe7O6QknqF2PIHu0c5wGP6".
Definition digestB : string :=
  "sha384-/dVVstZ1Osrc6huHQrszjiKhod0A9dftoTuBfbv4fnSJRaXoXJwwBiAEcPpZdi4Y".

(** The SHA-256 digest string of [moduleA]. *)
Definition digestA256 : string :=
  "sha256-aDMU7SIRLo3qgJXIxhc6+ixhJ59f4Hlo6+DiH/8Whx0=".

(** The text of an import map file; the parsed document is given next to
    it in [Reference.disk]. *)
Definition jsonText : string := "{ imports, integrity }".

(** A build output whose map declares a SHA-256 digest. *)
Definition sha256Map : ImportMap :=
  {| imports := Some [("a", "/a.js")];
     scopes := None;
     integrity := Some [("/a.js", digestA256)] |}.

Definition sha256Disk : Disk :=
  Reference.disk
    [("dist/importmap.json", jsonText); ("dist/a.js", moduleA)]
    [("dist/importmap.json", sha256Map)].

(** A map entry with a foreign tag whose file is absent. *)
Definition foreignMissingMap : ImportMap :=
  {| imports := Some [("gone", "/gone.js")];
     scopes := None;
     integrity := Some [("/gone.js", digestA256)] |}.

Definition foreignMissingDisk : Disk :=
  Reference.disk
    [(".next/importmap.json", jsonText)]
    [(".next/importmap.json", foreignMissingMap)].

(** Three entries, the middle one without its file. *)
Definition partialMap : ImportMap :=
  {| imports := Some [("a", "/a.js"); ("gone", "/gone.js"); ("b", "/lib/b.js")];
     scopes := None;
     integrity := Some [("/a.js", digestA); ("/gone.js", digestB);
                        ("/lib/b.js", digestB)] |}.

Definition partialDisk : Disk :=
  Reference.disk
    [(".next/importmap.json", jsonText); (".next/a.js", moduleA);
     (".next/lib/b.js", moduleB);
     ("dist/importmap.json", jsonText); ("dist/a.js", moduleA);
     ("dist/lib/b.js", moduleB)]
    [(".next/importmap.json", partialMap);
     ("dist/importmap.json", partialMap)].

Definition defaults : Validator.ValidatorConfig :=
  {| Validator.distDir := None; Validator.importMapPath := None |}.

(** A directory of two modules and the map generated from it, validated
    in place. *)
Definition sources : list (string * string) :=
  [("a.js", moduleA); ("lib/b.js", moduleB)].

Definition generatedMap : ImportMap :=
  {| imports := Some [("a", "/a.js"); ("b", "/lib/b.js")];
     scopes := None;
     integrity := Some [("/a.js", digestA); ("/lib/b.js", digestB)] |}.

Definition sourceDisk : Disk :=
  Reference.disk
    [("importmap.json", jsonText); ("a.js", moduleA); ("lib/b.js", moduleB)]
    [("importmap.json", generatedMap)].

Definition inPlace : Validator.ValidatorConfig :=
  {| Validator.distDir := Some "."; Validator.importMapPath := None |}.


End Examples.

(** ** Further string helpers *)

Module Text.

(** [s.endsWith(suffix)] *)
Fixpoint endsWith (suffix s : string) : bool :=
  String.eqb s suffix
  || match s with
     | EmptyString => false
     | String _ rest => endsWith suffix rest
     end.

(** [name.replace(/\.js$/, "")] *)
Fixpoint dropJs (name : string) : string :=
  match name with
  | EmptyString => EmptyString
  | String c rest =>
      if String.eqb name ".js" then EmptyString else String c (dropJs rest)
  end.

(** A character of the class [\w]. *)
Definition isWordChar (c : ascii) : bool :=
  let n := nat_of_ascii c in
  (Nat.leb 48 n && Nat.leb n 57) || (Nat.leb 65 n && Nat.leb n 90)
  || (Nat.leb 97 n && Nat.leb n 122) || Nat.eqb n 95.

Fixpoint allWord (s : string) : bool :=
  match s with
  | EmptyString => true
  | String c rest => isWordChar c && allWord rest
  end.

(** [fileName.replace(/\.\w+$/, "")]: the match, if any, starts at the
    first dot that is followed by word characters only, and at least one. *)
Fixpoint stripWordExtension (fileName : string) : string :=
  match fileName with
  | EmptyString => EmptyString
  | String c rest =>
      if Ascii.eqb c "."%char && negb (String.eqb rest "") && allWord rest
      then EmptyString
      else String c (stripWordExtension rest)
  end.

Fixpoint takeWhile (keep : ascii -> bool) (s : string) : string :=
  match s with
  | EmptyString => EmptyString
  | String c rest =>
      if keep c then String c (takeWhile keep rest) else EmptyString
  end.

Fixpoint dropWhile (keep : ascii -> bool) (s : string) : string :=
  match s with
  | EmptyString => EmptyString
  | String c rest => if keep c then dropWhile keep rest else s
  end.

(** What follows [pre] in [s], when [s] starts with [pre]. *)
Fixpoint stripPrefix (pre s : string) : option string :=
  match pre, s with
  | EmptyString, _ => Some s
  | String a pre', String b s' =>
      if Ascii.eqb a b then stripPrefix pre' s' else None
  | String _ _, EmptyString => None
  end.

End Text.

(** The two tables a plugin instance keeps in [this.importMap] (the Vite
    plugin: in the closure's [importMap]); both are always present. *)
Record Tables := {
  importsOf : ImportMapEntry;
  integrityOf : ImportMapEntry
}.

(** What [JSON.parse(JSON.stringify(importMap))] gives a reader. *)
Definition toImportMap (importMap : Tables) : ImportMap :=
  {| imports := Some (importsOf importMap);
     scopes := None;
     integrity := Some (integrityOf importMap) |}.

(** ** service-worker-import-map.js *)

Module ServiceWorker.

Record Config := {
  githubRepo : string;
  githubBranch : string;
  importMapPath : string;
  enforceIntegrity : bool;
  enforceTrustedMap : bool;
  logResults : bool
}.

Definition config : Config :=
  {| githubRepo := "username/repo-name";
     githubBranch := "main";
     importMapPath := "path/to/import-map.json";
     enforceIntegrity := true;
     enforceTrustedMap := false;
     logResults := true |}.

(** [{ expected, actual }] *)
Record Discrepancy := {
  expected : string;
  actual : string
}.

(** A property value of the object kept at
    [discrepancies.scopes[scopeKey]]. *)
Inductive Field : Type :=
| Literal (value : string)
| Table (value : ImportMapEntry)
| Mapping (value : Discrepancy).

Record Discrepancies := {
  of_imports : list (string * Discrepancy);
  of_scopes : list (string * list (string * Field));
  of_integrity : list (string * Discrepancy)
}.

Record VerificationResult := {
  matches : bool;
  discrepancies : Discrepancies
}.

(** [result.matches = false; result.discrepancies.imports[key] = d] and
    its two siblings. *)
Definition flagImports (key : string) (d : Discrepancy)
           (result : VerificationResult) : VerificationResult :=
  {| matches := false;
     discrepancies :=
       {| of_imports := Obj.set key d (of_imports (discrepancies result));
          of_scopes := of_scopes (discrepancies result);
          of_integrity := of_integrity (discrepancies result) |} |}.

Definition flagScopes (scopeKey : string) (d : list (string * Field))
           (result : VerificationResult) : VerificationResult :=
  {| matches := false;
     discrepancies :=
       {| of_imports := of_imports (discrepancies result);
          of_scopes := Obj.set scopeKey d (of_scopes (discrepancies result));
          of_integrity := of_integrity (discrepancies result) |} |}.

Definition flagIntegrity (key : string) (d : Discrepancy)
           (result : VerificationResult) : VerificationResult :=
  {| matches := false;
     discrepancies :=
       {| of_imports := of_imports (discrepancies result);
          of_scopes := of_scopes (discrepancies result);
          of_integrity := Obj.set key d (of_integrity (discrepancies result)) |} |}.

(** [!served || served !== value] *)
Definition differs (served : option string) (value : string) : bool :=
  negb (Js.truthy served)
  || match served with
     | Some s => negb (String.eqb s value)
     | None => true
     end.

(** [served || "missing"] *)
Definition orMissing (served : option string) : string :=
  Js.orElse served "missing".

(** [servedMap.imports[key]] for a key that [Object.keys] enumerated. *)
Definition valueAt (key : string) (table : ImportMapEntry) : string :=
  match Obj.get key table with
  | Some value => value
  | None => ""
  end.

(** Body of the loop over [Object.entries(trustedMap.imports)]. *)
Definition checkImport (served : ImportMapEntry) (result : VerificationResult)
           (entry : string * string) : VerificationResult :=
  let '(key, value) := entry in
  if differs (Obj.get key served) value then
    flagImports key
      {| expected := value; actual := orMissing (Obj.get key served) |} result
  else result.

(** Body of the loop over [Object.keys(servedMap.imports)]. *)
Definition checkExtra (served trusted : ImportMapEntry)
           (result : VerificationResult) (key : string) : VerificationResult :=
  if negb (Js.truthy (Obj.get key trusted)) then
    flagImports key
      {| expected := "not defined"; actual := valueAt key served |} result
  else result.

(** Body of the loop over the mappings of one trusted scope. *)
Definition checkMapping (scopeKey : string) (servedScope : ImportMapEntry)
           (result : VerificationResult) (mapping : string * string)
  : VerificationResult :=
  let '(mapKey, mapValue) := mapping in
  if differs (Obj.get mapKey servedScope) mapValue then
    let existing :=
      match Obj.get scopeKey (of_scopes (discrepancies result)) with
      | Some object => object
      | None => []
      end in
    flagScopes scopeKey
      (Obj.set mapKey
         (Mapping {| expected := mapValue;
                     actual := orMissing (Obj.get mapKey servedScope) |})
         existing)
      result
  else result.

(** Body of the loop over [Object.entries(trustedMap.scopes)]. *)
Definition checkScope (served : list (string * ImportMapEntry))
           (result : VerificationResult) (entry : string * ImportMapEntry)
  : VerificationResult :=
  let '(scopeKey, scopeValue) := entry in
  match Obj.get scopeKey served with
  | None =>
      flagScopes scopeKey
        [("expected", Table scopeValue); ("actual", Literal "missing")] result
  | Some servedScope =>
      fold_left (checkMapping scopeKey servedScope) scopeValue result
  end.

(** Body of the loop over [Object.entries(trustedMap.integrity)]. *)
Definition checkIntegrity (served : ImportMapEntry)
           (result : VerificationResult) (entry : string * string)
  : VerificationResult :=
  let '(key, value) := entry in
  if differs (Obj.get key served) value then
    flagIntegrity key
      {| expected := value; actual := orMissing (Obj.get key served) |} result
  else result.

Definition verifyImportMap (servedMap trustedMap : ImportMap)
  : VerificationResult :=
  let result :=
    {| matches := true;
       discrepancies :=
         {| of_imports := []; of_scopes := []; of_integrity := [] |} |} in
  let result :=
    match imports servedMap, imports trustedMap with
    | Some served, Some trusted =>
        let result := fold_left (checkImport served) trusted result in
        fold_left (checkExtra served trusted) (Obj.keys served) result
    | _, _ => result
    end in
  let result :=
    match scopes servedMap, scopes trustedMap with
    | Some served, Some trusted => fold_left (checkScope served) trusted result
    | _, _ => result
    end in
  match integrity servedMap, integrity trustedMap with
  | Some served, Some trusted => fold_left (checkIntegrity served) trusted result
  | _, _ => result
  end.

(** No discrepancy is recorded. *)
Definition clean (result : VerificationResult) : Prop :=
  of_imports (discrepancies result) = []
  /\ of_scopes (discrepancies result) = []
  /\ of_integrity (discrepancies result) = [].

(** The flag is lowered exactly when a discrepancy is written. *)
Definition consistent (result : VerificationResult) : Prop :=
  matches result = true <-> clean result.

(** Every entry of [trusted] is served with the same, non-empty value. *)
Definition covers (served trusted : ImportMapEntry) : bool :=
  forallb
    (fun entry => negb (differs (Obj.get (fst entry) served) (snd entry)))
    trusted.

(** Every served key has a non-empty value in [trusted]. *)
Definition known (served trusted : ImportMapEntry) : bool :=
  forallb (fun key => Js.truthy (Obj.get key trusted)) (Obj.keys served).

Definition coversScopes (served trusted : list (string * ImportMapEntry))
  : bool :=
  forallb
    (fun entry =>
       match Obj.get (fst entry) served with
       | Some servedScope => covers servedScope (snd entry)
       | None => false
       end)
    trusted.

(** An object as JSON yields it: each key once, and here every value a
    non-empty string. *)
Definition proper (table : ImportMapEntry) : Prop :=
  NoDup (Obj.keys table) /\ forall key value, In (key, value) table -> value <> "".

(** No key of the object is the name of a member of [Object.prototype]:
    for the keys of such objects [o[k]] finds own entries only and
    [o[k] = v] adds or updates one, as the comparison is embedded. *)
Definition ordinaryKeys {V : Type} (o : list (string * V)) : bool :=
  forallb (fun key => negb (Js.inherited key)) (Obj.keys o).

(** The same of every object of an import map: its imports, its scopes,
    the mappings of each scope and its integrity table. *)
Definition ordinary (m : ImportMap) : bool :=
  match imports m with
  | Some table => ordinaryKeys table
  | None => true
  end
  && match scopes m with
     | Some table =>
         ordinaryKeys table
         && forallb (fun entry => ordinaryKeys (snd entry)) table
     | None => true
     end
  && match integrity m with
     | Some table => ordinaryKeys table
     | None => true
     end.

Section Install.
Context (W : Browser) (parse : string -> option ImportMap) (cfg : Config).

Definition githubUrl : string :=
  "https://raw.githubusercontent.com/" ++ githubRepo cfg ++ "/"
    ++ githubBranch cfg ++ "/" ++ importMapPath cfg.

(** The map returned when the trusted one cannot be had. *)
Definition fallback : ImportMap :=
  {| imports := Some []; scopes := Some []; integrity := Some [] |}.

(** [parse] is [response.json()] on the body.  The status code named in
    the first error is not part of [Response]; the error is caught and
    only logged. *)
Definition fetchTrustedImportMap : Eff ImportMap :=
  tryCatch
    (response <- doFetch W githubUrl ;;
     if negb (ok response) then
       throw (Error "Failed to fetch trusted import map")
     else
       match parse (text response) with
       | Some trustedMap => ret trustedMap
       | None => throw (Error "Unexpected token in JSON")
       end)
    (fun _ => ret fallback).

End Install.
End ServiceWorker.

(** ** nextjs-module-integrity-plugin.js *)

Module NextPlugin.

Record ModuleIntegrityConfig := {
  packages : option (list string);
  generateVercelConfig : bool;
  importMapPath : string;
  injectImportMap : bool
}.

(** The defaults the constructor spreads the given configuration over. *)
Definition defaults : ModuleIntegrityConfig :=
  {| packages := Some [];
     generateVercelConfig := true;
     importMapPath := "importmap.json";
     injectImportMap := true |}.

Definition algorithm : string := "sha384".

(** A module of a chunk: its [resource], and for a concatenated module
    the [resource] of each module in [modules]. *)
Record WebpackModule := {
  resource : option string;
  modules : option (list (option string))
}.

(** [compilation.assets] with each asset's [source()], and
    [compilation.namedChunks] with each chunk's [getModules()]. *)
Record Compilation := {
  assets : list (string * string);
  namedChunks : list (string * list WebpackModule)
}.

(** [this.importMap] of a new plugin. *)
Definition fresh : Tables := {| importsOf := []; integrityOf := [] |}.

Definition inPackage (packageName : string) (resource : option string) : bool :=
  Js.includes ("node_modules/" ++ packageName ++ "/") (Js.orElse resource "").

Definition chunkContainsPackage (compilation : Compilation)
           (chunkName packageName : string) : bool :=
  match Obj.get chunkName (namedChunks compilation) with
  | None => false
  | Some modulesInChunk =>
      existsb
        (fun module =>
           if Js.truthy (resource module) then
             inPackage packageName (resource module)
           else
             match modules module with
             | Some concatenated =>
                 existsb
                   (fun m => Js.truthy m && inPackage packageName m)
                   concatenated
             | None => false
             end)
        modulesInChunk
  end.

Section Plugin.
Context (P : Platform) (config : ModuleIntegrityConfig).

Definition filterAssetsByPackages (compilation : Compilation)
           (assetNames : list string) : list string :=
  match packages config with
  | None => assetNames
  | Some [] => assetNames
  | Some pkgs =>
      filter
        (fun name =>
           existsb
             (fun pkg =>
                Js.includes ("node_modules/" ++ pkg ++ "/") name
                || chunkContainsPackage compilation (Text.dropJs name) pkg)
             pkgs)
        assetNames
  end.

Definition calculateIntegrity (content : string) : Eff string :=
  match createHash P algorithm with
  | Some hash =>
      emit (EvDigest algorithm content) ;;;
      ret (algorithm ++ "-" ++ Base64.encode (hash content))
  | None => throw (Error "Digest method not supported")
  end.

Definition addToImportMap (assetName integrity : string) (importMap : Tables)
  : Tables :=
  let specifier := path_basename P assetName (path_extname P assetName) in
  {| importsOf := Obj.set specifier ("/" ++ assetName) (importsOf importMap);
     integrityOf :=
       Obj.set ("/" ++ assetName) integrity (integrityOf importMap) |}.

(** The assets the [processAssets] callback hashes. *)
Definition targetAssets (compilation : Compilation) : list string :=
  let assetNames := Obj.keys (assets compilation) in
  let jsAssets := filter (Text.endsWith ".js") assetNames in
  filterAssetsByPackages compilation jsAssets.

(** The [processAssets] callback of [apply]: it updates [this.importMap]
    and emits it as the asset [importMapPath]. *)
Definition processAssets (compilation : Compilation) (importMap : Tables)
  : Eff (Tables * (string * ImportMap)) :=
  importMap <-
    forEach
      (fun importMap assetName =>
         match Obj.get assetName (assets compilation) with
         | None => throw (TypeError "Cannot read properties of undefined")
         | Some content =>
             integrity <- calculateIntegrity content ;;
             ret (addToImportMap assetName integrity importMap)
         end)
      (targetAssets compilation) importMap ;;
  ret (importMap, (importMapPath config, toImportMap importMap)).

End Plugin.
End NextPlugin.

(** *** [generateVercelConfig] of the plugin *)

Module Vercel.

(** An entry of a rule's [headers] array. *)
Record Header := {
  key : string;
  value : string
}.

(** An element of [vercelConfig.headers]. *)
Record HeaderRule := {
  source : option string;
  headers : option (list Header)
}.

(** What [vercel.json] holds when the plugin looks: no such file, text
    that [JSON.parse] refuses, or a configuration with its [headers]
    property.  Other properties of the configuration pass through
    [JSON.parse] and [JSON.stringify] unchanged and are not modelled. *)
Inductive VercelJson : Type :=
| NoFile
| Unparsable
| Parsed (headers : option (list HeaderRule)).

Definition loadRules (existing : VercelJson) : list HeaderRule :=
  match existing with
  | Parsed (Some rules) => rules
  | _ => []
  end.

Definition scriptSrcEntries (importMap : Tables) : string :=
  String.concat " "
    (map (fun entry => "'" ++ snd entry ++ "'") (integrityOf importMap)).

Definition isCsp (h : Header) : bool :=
  String.eqb (key h) "Content-Security-Policy".

Definition hasCsp (rule : HeaderRule) : bool :=
  Js.truthy (source rule)
  && match headers rule with
     | Some hs => existsb isCsp hs
     | None => false
     end.

Definition notSemicolon (c : ascii) : bool := negb (Ascii.eqb c ";"%char).

(** [cspValue.replace(re, "$1 " + entries)], where [re] matches the first
    [script-src ] together with the characters up to the next semicolon;
    for [entries] without a dollar sign (a digest string has none). *)
Fixpoint extendScriptSrc (entries cspValue : string) : string :=
  match Text.stripPrefix "script-src " cspValue with
  | Some after =>
      "script-src " ++ Text.takeWhile notSemicolon after ++ " " ++ entries
        ++ Text.dropWhile notSemicolon after
  | None =>
      match cspValue with
      | EmptyString => EmptyString
      | String c rest => String c (extendScriptSrc entries rest)
      end
  end.

Definition withEntries (entries cspValue : string) : string :=
  if Js.includes "script-src " cspValue then extendScriptSrc entries cspValue
  else cspValue ++ "; script-src 'self' " ++ entries.

(** The assignment to the first [Content-Security-Policy] header of a
    rule. *)
Fixpoint updateHeader (entries : string) (hs : list Header) : list Header :=
  match hs with
  | [] => []
  | h :: rest =>
      if isCsp h then
        {| key := key h; value := withEntries entries (value h) |} :: rest
      else h :: updateHeader entries rest
  end.

(** The update of the first rule that [findIndex] accepts; [None] when it
    returns -1. *)
Fixpoint updateRule (entries : string) (rules : list HeaderRule)
  : option (list HeaderRule) :=
  match rules with
  | [] => None
  | rule :: rest =>
      if hasCsp rule then
        Some ({| source := source rule;
                 headers := option_map (updateHeader entries) (headers rule) |}
                :: rest)
      else option_map (cons rule) (updateRule entries rest)
  end.

(** The [headers] array the function writes to [vercel.json]. *)
Definition generateVercelConfig (existing : VercelJson) (importMap : Tables)
  : list HeaderRule :=
  let rules := loadRules existing in
  let entries := scriptSrcEntries importMap in
  match updateRule entries rules with
  | Some updated => updated
  | None =>
      (rules
         ++ [{| source := Some "/(.*)";
                headers :=
                  Some [{| key := "Content-Security-Policy";
                           value := "default-src 'self'; script-src 'self' "
                                      ++ entries |}] |}])%list
  end.

End Vercel.

(** ** The TypeScript client for NextJS v15 (SHA-384 only) *)

Module ClientTs.
Section Verifier.
Context (P : Platform) (W : Browser).

Definition calculateIntegrity (content : string) : Eff string :=
  match subtleDigest P "SHA-384" with
  | Some digest =>
      emit (EvDigest "SHA-384" content) ;;;
      ret ("sha384-" ++ btoa (digest content))
  | None => throw (NotSupportedError "SHA-384")
  end.

Definition fetchAndCalculateIntegrity (url : string) : Eff string :=
  response <- doFetch W url ;;
  calculateIntegrity (text response).

(** [expectedIntegrity.startsWith] is called inside the [try] block: for
    a digest that is a function the call throws and is caught. *)
Definition validateModuleIntegrity (url expectedIntegrity : Js.value)
  : Eff bool :=
  tryCatch
    (match expectedIntegrity with
     | Js.Str expected =>
         if negb (Js.startsWith "sha384-" expected) then ret false
         else
           actualIntegrity <- fetchAndCalculateIntegrity (textOf W url) ;;
           ret (String.eqb actualIntegrity expected)
     | _ =>
         throw (TypeError "expectedIntegrity.startsWith is not a function")
     end)
    (fun _ => ret false).

(** [resolveSpecifier], [getIntegrityForUrl] and [hasIntegrityConstraint]
    read as in module-integrity-client.js. *)
Definition resolveSpecifier : string -> Js.value := Client.resolveSpecifier W.

Definition getIntegrityForUrl : Js.value -> Js.value :=
  Client.getIntegrityForUrl W.

Definition hasIntegrityConstraint : Js.value -> bool :=
  Client.hasIntegrityConstraint W.

Definition importWithIntegrity (specifier : string) : Eff ModuleNamespace :=
  let url := resolveSpecifier specifier in
  (if hasIntegrityConstraint url then
     let integrityHash := getIntegrityForUrl url in
     if Js.isTruthy integrityHash then
       isValid <- validateModuleIntegrity url integrityHash ;;
       if negb isValid then
         throw (Error ("Integrity check failed for module: " ++ textOf W url))
       else ret tt
     else ret tt
   else ret tt) ;;;
  dynamicImport (textOf W url).

End Verifier.

(** *** [IntegrityModuleLoader]

    The import map scripts of [document.head], in document order.
    [injectImportMap] appends one, and [getImportMap] reads the first
    ([document.querySelector]); import map scripts outside [head] are not
    modelled. *)
Definition Document : Type := list ImportMap.

Definition injectImportMap (importMap : ImportMap) (document : Document)
  : Document :=
  (document ++ [importMap])%list.

(** The page the client functions see for a document. *)
Definition pageOf (W : Browser) (document : Document) : Browser :=
  {| fetch := fetch W;
     hasWindow := hasWindow W;
     importMapScript := hd_error document;
     memberText := memberText W |}.

(** How a call of [addModule] leaves the loader's [importMap] and the
    document, and how its promise settles. *)
Record Added := {
  loaderMap : ImportMap;
  documentAfter : Document;
  settlement : Eff unit
}.

Section Loader.
Context (P : Platform) (W : Browser).

Definition importModule (document : Document) (specifier : string)
  : Eff ModuleNamespace :=
  importWithIntegrity P (pageOf W document) specifier.

(** [this.importMap.imports[specifier] = url] is done before the fetch is
    awaited; the digest is stored and the map injected only if the fetch
    and the digest succeed. *)
Definition addModule (importMap : ImportMap) (document : Document)
           (specifier url : string) : Added :=
  let imports0 :=
    match imports importMap with Some table => table | None => [] end in
  let integrity0 :=
    match integrity importMap with Some table => table | None => [] end in
  let imports1 := Obj.assign specifier url imports0 in
  match fetchAndCalculateIntegrity P W url with
  | (t, Resolved digest) =>
      let updated :=
        {| imports := Some imports1;
           scopes := scopes importMap;
           integrity := Some (Obj.assign url digest integrity0) |} in
      {| loaderMap := updated;
         documentAfter := injectImportMap updated document;
         settlement := (t, Resolved tt) |}
  | (t, Rejected reason) =>
      {| loaderMap :=
           {| imports := Some imports1;
              scopes := scopes importMap;
              integrity := Some integrity0 |};
         documentAfter := document;
         settlement := (t, Rejected reason) |}
  end.

End Loader.
End ClientTs.

(** ** src/module-integrity-typescript.ts: scanning directories *)

Module Scanner.

(** What [fs.statSync] finds at a path: a regular file, a directory with
    the entries [fs.readdirSync] lists, something that is neither, or
    nothing it can report on: a link that leads nowhere or a directory that
    may not be listed, where [fs.statSync] or [fs.readdirSync] throws.  The
    file system below a directory is a finite tree; links are read as what
    they lead to. *)
#[warnings="-register-all"] Inductive Node : Type :=
| File
| Directory (items : list (string * Node))
| Special
| Unreadable (reason : error).

(** No entry at any depth makes [fs.statSync] or [fs.readdirSync] throw. *)
Fixpoint readable (node : Node) : bool :=
  match node with
  | Directory items =>
      (fix all (items : list (string * Node)) : bool :=
         match items with
         | [] => true
         | (_, child) :: rest => readable child && all rest
         end) items
  | Unreadable _ => false
  | File => true
  | Special => true
  end.

Section Scan.
Context (P : Platform) (D : Disk)
        (root : string -> option Node)        (* what is at a path given to the scan *)
        (relative : string -> string).        (* [path.relative(process.cwd(), file)] *)

(** [getAllFiles] past its invariant, for what is found at [dir]: the loop
    over the entries of the directory; the recursive call descends into a
    sub-directory, and the first entry that cannot be read ends the scan. *)
Fixpoint filesBelow (dir : string) (node : Node) {struct node}
  : Eff (list string) :=
  match node with
  | Directory items =>
      (fix loop (items : list (string * Node)) : Eff (list string) :=
         match items with
         | [] => ret []
         | (item, child) :: rest =>
             let itemPath := path_join P dir item in
             match child with
             | Unreadable reason => throw reason
             | Directory _ =>
                 below <- filesBelow itemPath child ;;
                 more <- loop rest ;;
                 ret (below ++ more)%list
             | File =>
                 more <- loop rest ;;
                 ret (itemPath :: more)
             | Special => loop rest
             end
         end) items
  | Unreadable reason => throw reason
  | File =>
      throw (Error ("ENOTDIR: not a directory, scandir '" ++ dir ++ "'"))
  | Special =>
      throw (Error ("ENOTDIR: not a directory, scandir '" ++ dir ++ "'"))
  end.

(** [path] is a regular file at some depth below the directory [node]
    found at [dir]. *)
Inductive Holds : string -> Node -> string -> Prop :=
| holds_here (dir : string) (items : list (string * Node)) (item : string) :
    In (item, File) items ->
    Holds dir (Directory items) (path_join P dir item)
| holds_below (dir : string) (items : list (string * Node)) (item : string)
              (below : list (string * Node)) (path : string) :
    In (item, Directory below) items ->
    Holds (path_join P dir item) (Directory below) path ->
    Holds dir (Directory items) path.

Definition getAllFiles (dir : string) : Eff (list string) :=
  match root dir with
  | None =>
      throw (Generator.moduleIntegrityError
               ("Directory does not exist: " ++ dir))
  | Some node => filesBelow dir node
  end.

(** The body of the inner loop: a file with a listed extension is read and
    stored under its path relative to the working directory. *)
Definition readModule (extensions : list string)
           (modules : list (string * string)) (filePath : string)
  : Eff (list (string * string)) :=
  if existsb (String.eqb (path_extname P filePath)) extensions then
    match file D filePath with
    | Some content =>
        emit (EvRead filePath) ;;;
        ret (Obj.set (relative filePath) content modules)
    | None =>
        throw (Generator.moduleIntegrityError
                 ("Failed to read file " ++ filePath
                    ++ ": ENOENT: no such file or directory, open '"
                    ++ filePath ++ "'"))
    end
  else ret modules.

Definition readModulesFromDirectories (directories extensions : list string)
  : Eff (list (string * string)) :=
  Generator.invariant (Nat.ltb 0 (length directories))
    "No directories specified for module scanning" ;;;
  Generator.invariant (Nat.ltb 0 (length extensions))
    "No extensions specified for module scanning" ;;;
  forEach
    (fun modules dir =>
       Generator.invariant
         (match root dir with Some _ => true | None => false end)
         ("Directory does not exist: " ++ dir) ;;;
       files <- getAllFiles dir ;;
       forEach (readModule extensions) files modules)
    directories [].

End Scan.
End Scanner.

(** ** vite-plugin-module-integrity.ts *)

Module Vite.

Record ModuleIntegrityOptions := {
  extensions : option (list string);
  algorithm : option string;
  importMapPath : option string
}.

(** An entry of the bundle: a chunk has [code] and [isEntry], an asset has
    [source], which stands here for the string the plugin hashes: a source
    given as bytes is its UTF-8 decoding. *)
Inductive OutputItem : Type :=
| Chunk (code : string) (isEntry : bool)
| Asset (source : string)
| Opaque.

(** The closure's [importMap] when the plugin is created. *)
Definition fresh : Tables := {| importsOf := []; integrityOf := [] |}.

Section Plugin.
Context (P : Platform) (options : ModuleIntegrityOptions).

Definition extensionsOf : list string :=
  match extensions options with
  | Some given => given
  | None => [".js"; ".jsx"; ".ts"; ".tsx"; ".mjs"]
  end.

Definition algorithmOf : string :=
  match algorithm options with
  | Some given => given
  | None => "sha384"
  end.

Definition importMapPathOf : string :=
  match importMapPath options with
  | Some given => given
  | None => "importmap.json"
  end.

Definition included (fileName : string) : bool :=
  existsb (fun ext => Text.endsWith ext fileName) extensionsOf.

Definition contentOf (asset : OutputItem) : option string :=
  match asset with
  | Chunk code _ => Some code
  | Asset source => Some source
  | Opaque => None
  end.

Definition entryChunk (asset : OutputItem) : bool :=
  match asset with
  | Chunk _ isEntry => isEntry
  | _ => false
  end.

(** One iteration of the loop over [Object.entries(bundle)]. *)
Definition addAsset (base : string) (importMap : Tables)
           (entry : string * OutputItem) : Eff Tables :=
  let '(fileName, asset) := entry in
  if negb (included fileName) then ret importMap
  else
    match contentOf asset with
    | None => ret importMap
    | Some content =>
        match createHash P algorithmOf with
        | None => throw (Error "Digest method not supported")
        | Some hash =>
            emit (EvDigest algorithmOf content) ;;;
            let integrity :=
              algorithmOf ++ "-" ++ Base64.encode (hash content) in
            let assetPath := base ++ fileName in
            let moduleName := Text.stripWordExtension fileName in
            let imports := Obj.set moduleName assetPath (importsOf importMap) in
            let integrities :=
              Obj.set assetPath integrity (integrityOf importMap) in
            let imports := Obj.set assetPath assetPath imports in
            let imports :=
              if entryChunk asset
              then Obj.set ("entry:" ++ fileName) assetPath imports
              else imports in
            ret {| importsOf := imports; integrityOf := integrities |}
        end
    end.

(** [generateBundle] up to [this.emitFile]: the tables after the loop and
    the emitted import map.  The rewriting of [index.html] that follows
    does not touch the map and is left out. *)
Definition generateBundle (base : string) (bundle : list (string * OutputItem))
           (importMap : Tables) : Eff (Tables * (string * ImportMap)) :=
  importMap <- forEach (addAsset base) bundle importMap ;;
  ret (importMap, (importMapPathOf, toImportMap importMap)).

End Plugin.
End Vite.

(** ** Further sample maps and worlds *)

Module Samples.

(** A trusted map with all three sections. *)
Definition trustedMap : ImportMap :=
  {| imports := Some [("app", "/app.js"); ("lib", "/vendor/lib.js")];
     scopes := Some [("/admin/", [("lib", "/vendor/lib-admin.js")])];
     integrity := Some [("/app.js", Examples.digestA)] |}.

(** A scope and an integrity entry the trusted map does not have. *)
Definition extraScopes : list (string * ImportMapEntry) :=
  [("/checkout/", [("lib", "https://cdn.example/lib.js")])].

Definition extraIntegrity : ImportMapEntry :=
  [("https://cdn.example/lib.js", Examples.digestB)].

Definition servedMap : ImportMap :=
  {| imports := Some [("app", "/app.js"); ("lib", "/vendor/lib.js")];
     scopes := Some (("/admin/", [("lib", "/vendor/lib-admin.js")])
                       :: extraScopes);
     integrity := Some (("/app.js", Examples.digestA) :: extraIntegrity) |}.

(** A compilation with two scripts and a style sheet; the chunk of
    [vendor.js] holds a module of the package [react]. *)
Definition compilation : NextPlugin.Compilation :=
  {| NextPlugin.assets :=
       [("static/chunks/app.js", Examples.moduleA);
        ("static/css/site.css", "body { margin: 0 }");
        ("static/chunks/vendor.js", Examples.moduleB)];
     NextPlugin.namedChunks :=
       [("static/chunks/vendor",
         [{| NextPlugin.resource := Some "/repo/node_modules/react/index.js";
             NextPlugin.modules := None |}]);
        ("static/chunks/app",
         [{| NextPlugin.resource := Some "/repo/src/app.js";
             NextPlugin.modules := None |}])] |}.

(** What a new plugin with the default configuration holds after that
    compilation. *)
Definition pluginMap : Tables :=
  {| importsOf := [("app", "/static/chunks/app.js");
                   ("vendor", "/static/chunks/vendor.js")];
     integrityOf := [("/static/chunks/app.js", Examples.digestA);
                     ("/static/chunks/vendor.js", Examples.digestB)] |}.

(** The build output of that compilation. *)
Definition buildDisk : Disk :=
  Reference.disk
    [(".next/importmap.json", Examples.jsonText);
     (".next/static/chunks/app.js", Examples.moduleA);
     (".next/static/css/site.css", "body { margin: 0 }");
     (".next/static/chunks/vendor.js", Examples.moduleB)]
    [(".next/importmap.json", toImportMap pluginMap)].

(** A plugin that has seen an earlier compilation. *)
Definition stale : Tables :=
  {| importsOf := [("old", "/static/chunks/old.js")];
     integrityOf := [("/static/chunks/old.js", Examples.digestB)] |}.

(** The Vite plugin set to SHA-256, and a bundle of one entry chunk, a
    style sheet and an item without content. *)
Definition viteOptions : Vite.ModuleIntegrityOptions :=
  {| Vite.extensions := None;
     Vite.algorithm := Some "sha256";
     Vite.importMapPath := None |}.

Definition bundle : list (string * Vite.OutputItem) :=
  [("assets/a.js", Vite.Chunk Examples.moduleA true);
   ("assets/site.css", Vite.Asset "body { margin: 0 }");
   ("assets/logo.svg", Vite.Opaque)].

Definition viteMap : Tables :=
  {| importsOf := [("assets/a", "/assets/a.js");
                   ("/assets/a.js", "/assets/a.js");
                   ("entry:assets/a.js", "/assets/a.js")];
     integrityOf := [("/assets/a.js", Examples.digestA256)] |}.

Definition viteDisk : Disk :=
  Reference.disk
    [("dist/importmap.json", Examples.jsonText);
     ("dist/assets/a.js", Examples.moduleA);
     ("dist/assets/site.css", "body { margin: 0 }")]
    [("dist/importmap.json", toImportMap viteMap)].

(** A [vercel.json] with a cache rule and a rule that sets a policy. *)
Definition policy : string :=
  "default-src 'self'; script-src 'self' https://cdn.example; img-src *".

Definition vercelJson : Vercel.VercelJson :=
  Vercel.Parsed
    (Some [{| Vercel.source := Some "/api/(.*)";
              Vercel.headers :=
                Some [{| Vercel.key := "Cache-Control";
                         Vercel.value := "no-store" |}] |};
           {| Vercel.source := Some "/(.*)";
              Vercel.headers :=
                Some [{| Vercel.key := "X-Frame-Options";
                         Vercel.value := "DENY" |};
                      {| Vercel.key := "Content-Security-Policy";
                         Vercel.value := policy |}] |}]).

(** A source directory with a sub-directory, a text file and a socket, and
    the disk that holds it together with the map generated from it. *)
Definition project : list (string * Scanner.Node) :=
  [("a.js", Scanner.File);
   ("lib", Scanner.Directory [("b.js", Scanner.File);
                              ("notes.txt", Scanner.File)]);
   ("dev.sock", Scanner.Special)].

(** The same directory after [lib/b.js] was replaced by a link to a file
    that is gone. *)
Definition relinked : list (string * Scanner.Node) :=
  [("a.js", Scanner.File);
   ("lib", Scanner.Directory
             [("b.js", Scanner.Unreadable
                         (Error "ENOENT: no such file or directory, stat 'old/lib/b.js'"));
              ("notes.txt", Scanner.File)]);
   ("dev.sock", Scanner.Special)].

Definition projectRoot (dir : string) : option Scanner.Node :=
  if String.eqb dir "src" then Some (Scanner.Directory project)
  else if String.eqb dir "old" then Some (Scanner.Directory relinked)
  else None.

Definition scannedMap : ImportMap :=
  {| imports := Some [("a", "/src/a.js"); ("b", "/src/lib/b.js")];
     scopes := None;
     integrity := Some [("/src/a.js", Examples.digestA);
                        ("/src/lib/b.js", Examples.digestB)] |}.

Definition projectDisk : Disk :=
  Reference.disk
    [("importmap.json", Examples.jsonText);
     ("src/a.js", Examples.moduleA);
     ("src/lib/b.js", Examples.moduleB);
     ("src/lib/notes.txt", "to do")]
    [("importmap.json", scannedMap)].

(** [path.relative] for paths that are already relative to the working
    directory. *)
Definition sameRelative (path : string) : string := path.

(** A build directory [dist] below the working directory, the map
    generated from a scan of it, and the disk that holds both. *)
Definition distRoot (dir : string) : option Scanner.Node :=
  if String.eqb dir "dist"
  then Some (Scanner.Directory [("a.js", Scanner.File);
                                ("importmap.json", Scanner.File)])
  else None.

(** The modules of [Examples.sources] built into [.next], with the map
    generated from them. *)
Definition builtDisk : Disk :=
  Reference.disk
    [(".next/importmap.json", Examples.jsonText);
     (".next/a.js", Examples.moduleA);
     (".next/lib/b.js", Examples.moduleB)]
    [(".next/importmap.json", Examples.generatedMap)].

Definition distMap : ImportMap :=
  {| imports := Some [("a", "/dist/a.js")];
     scopes := None;
     integrity := Some [("/dist/a.js", Examples.digestA)] |}.

Definition distDisk : Disk :=
  Reference.disk
    [("dist/importmap.json", Examples.jsonText);
     ("dist/a.js", Examples.moduleA)]
    [("dist/importmap.json", distMap)].

(** The map a loader starts from. *)
Definition emptyMap : ImportMap :=
  {| imports := None; scopes := None; integrity := None |}.

(** Two modules to generate a map for in the browser. *)
Definition fetched : list (string * string) :=
  [("f", "log?name=F"); ("d", "log?name=D")].

End Samples.

(** * Properties *)

(** Runs the monadic plumbing of a goal and nothing else: strings,
    digests and tables stay folded. *)
Ltac run :=
  cbv beta iota zeta
      delta [bind ret emit throw tryCatch dynamicImport negb fst snd];
  cbn [app].

(** ** The SHA-2 tables *)

(** The tables written out in [SHA2] are the ones FIPS 180-4 defines. *)
Lemma sha2_tables_from_roots :
  SHA2.K256 = map (SHA2.fractionOfCubeRoot 32) (firstn 64 SHA2.primes)
  /\ SHA2.K512 = map (SHA2.fractionOfCubeRoot 64) (firstn 80 SHA2.primes)
  /\ SHA2.IV256 = map (SHA2.fractionOfSquareRoot 32) (firstn 8 SHA2.primes)
  /\ SHA2.IV512 = map (SHA2.fractionOfSquareRoot 64) (firstn 8 SHA2.primes)
  /\ SHA2.IV384
     = map (SHA2.fractionOfSquareRoot 64) (firstn 8 (skipn 8 SHA2.primes)).
Proof.
  repeat split; vm_compute; reflexivity.
Qed.

(** ** Strings and objects *)

Lemma prefix_split (p s : string) :
  String.prefix p s = true -> exists rest, s = p ++ rest.
Proof.
  revert s; induction p as [|c p IH]; intros s H.
  - exists s; reflexivity.
  - destruct s as [|d s]; simpl in H; [discriminate|].
    destruct (Ascii.ascii_dec c d) as [->|]; [|discriminate].
    destruct (IH _ H) as [rest ->]. exists rest; reflexivity.
Qed.

Lemma append_assoc (a b c : string) : (a ++ b) ++ c = a ++ (b ++ c).
Proof.
  induction a as [|x a IH]; simpl; [reflexivity | now rewrite IH].
Qed.

Lemma prefix_app (p s : string) : String.prefix p (p ++ s) = true.
Proof.
  induction p as [|c p IH]; simpl.
  - destruct s; reflexivity.
  - destruct (Ascii.ascii_dec c c); [exact IH | congruence].
Qed.

Lemma startsWith_sha384_tag (h : string) :
  Js.startsWith "sha384-" h = true -> Js.splitHead "-" h = "sha384".
Proof.
  intros H. destruct (prefix_split _ _ H) as [rest ->]. reflexivity.
Qed.

Lemma foreign_tag_not_sha384_prefixed (h : string) :
  Js.splitHead "-" h <> "sha384" -> Js.startsWith "sha384-" h = false.
Proof.
  intros H. destruct (Js.startsWith "sha384-" h) eqn:E; [|reflexivity].
  elim H. now apply startsWith_sha384_tag.
Qed.

Lemma truthy_Some (h : string) : h <> "" -> Js.truthy (Some h) = true.
Proof.
  intros H. simpl. destruct (String.eqb_spec h ""); [contradiction|reflexivity].
Qed.

Lemma orElse_Some (h d : string) : h <> "" -> Js.orElse (Some h) d = h.
Proof.
  intros H. simpl. destruct (String.eqb_spec h ""); [contradiction|reflexivity].
Qed.

Lemma truthy_inv (v : option string) :
  Js.truthy v = true -> exists h, v = Some h /\ h <> "" /\ Js.orElse v "" = h.
Proof.
  destruct v as [h|]; simpl; [|discriminate].
  destruct (String.eqb_spec h ""); [discriminate|]. intros _.
  exists h; repeat split; assumption.
Qed.

Lemma get_In {V : Type} (k : string) (o : list (string * V)) (v : V) :
  Obj.get k o = Some v -> In (k, v) o.
Proof.
  induction o as [|[k' v'] o IH]; simpl; [discriminate|].
  destruct (String.eqb_spec k k') as [->|]; intros H.
  - injection H as ->. now left.
  - right. now apply IH.
Qed.

Lemma set_In {V : Type} (k k0 : string) (v v0 : V) (o : list (string * V)) :
  In (k, v) (Obj.set k0 v0 o) -> (k, v) = (k0, v0) \/ In (k, v) o.
Proof.
  induction o as [|[k' v'] o IH]; simpl.
  - intros [H|[]]. left; congruence.
  - destruct (String.eqb_spec k0 k') as [->|].
    + intros [H|H]; [left; congruence | right; now right].
    + intros [H|H]; [right; now left|].
      destruct (IH H); [now left | right; now right].
Qed.

Lemma has_set {V : Type} (k : string) (v : V) (o : list (string * V)) :
  Obj.has k (Obj.set k v o) = true.
Proof.
  unfold Obj.has.
  induction o as [|[k' v'] o IH]; simpl.
  - now rewrite String.eqb_refl.
  - destruct (String.eqb_spec k k') as [->|E]; simpl.
    + now rewrite String.eqb_refl.
    + destruct (String.eqb_spec k k'); [contradiction | exact IH].
Qed.

Lemma has_set_other {V : Type} (k k0 : string) (v0 : V) (o : list (string * V)) :
  Obj.has k o = true -> Obj.has k (Obj.set k0 v0 o) = true.
Proof.
  unfold Obj.has.
  induction o as [|[k' v'] o IH]; simpl; [discriminate|].
  destruct (String.eqb_spec k0 k') as [->|E]; simpl.
  - destruct (String.eqb k k'); intros H; [reflexivity | exact H].
  - destruct (String.eqb k k'); intros H; [reflexivity | now apply IH].
Qed.


Lemma set_length {V : Type} (k : string) (v : V) (o : list (string * V)) :
  length o <= length (Obj.set k v o) <= S (length o).
Proof.
  induction o as [|[k' v'] o IH]; simpl; [lia|].
  destruct (String.eqb k k'); simpl; lia.
Qed.

Lemma index_own (k : string) (o : ImportMapEntry) (v : string) :
  Obj.get k o = Some v -> Obj.index k o = Js.Str v.
Proof. intros H. unfold Obj.index. now rewrite H. Qed.

Lemma index_Str (k : string) (o : ImportMapEntry) (v : string) :
  Obj.index k o = Js.Str v -> Obj.get k o = Some v.
Proof.
  unfold Obj.index. destruct (Obj.get k o) as [w|].
  - intros H. injection H as ->. reflexivity.
  - destruct (Js.inherited k); discriminate.
Qed.

Lemma index_missing (k : string) (o : ImportMapEntry) :
  Obj.get k o = None -> Js.inherited k = false -> Obj.index k o = Js.Undefined.
Proof. intros H I. unfold Obj.index. now rewrite H, I. Qed.

Lemma isTruthy_Str (h : string) : h <> "" -> Js.isTruthy (Js.Str h) = true.
Proof.
  intros H. simpl. destruct (String.eqb_spec h ""); [contradiction|reflexivity].
Qed.

Lemma isTruthy_empty : Js.isTruthy (Js.Str "") = false.
Proof. reflexivity. Qed.

Lemma strictEq_Str (s t : string) : Js.strictEq s (Js.Str t) = String.eqb s t.
Proof. reflexivity. Qed.

Lemma assign_other (k v : string) (o : ImportMapEntry) :
  k <> "__proto__" -> Obj.assign k v o = Obj.set k v o.
Proof.
  intros H. unfold Obj.assign.
  destruct (String.eqb_spec k "__proto__"); [contradiction|reflexivity].
Qed.

(** ** Resolution in src/import-map.ts *)

Lemma longest_keeps (candidates : list (string * ImportMapEntry)) :
  forall best scope,
    Spec.longest best candidates = Some scope ->
    best = Some scope \/ In scope candidates.
Proof.
  induction candidates as [|c rest IH]; intros best scope H; simpl in H.
  - now left.
  - destruct best as [held|].
    + destruct (Nat.ltb (String.length (fst held)) (String.length (fst c))).
      * destruct (IH _ _ H) as [E|Hin]; [|right; now right].
        injection E as <-. right. now left.
      * destruct (IH _ _ H) as [E|Hin]; [now left | right; now right].
    + destruct (IH _ _ H) as [E|Hin]; [|right; now right].
      injection E as <-. right. now left.
Qed.

(** C2, as the code has it.  [resolveModuleSpecifier] takes no referrer and
    never reads [scopes]: replacing the [scopes] section leaves its result
    unchanged.  The result is the [imports] target of a specifier that is
    an own key of [imports], and the specifier itself when there is no
    [imports] section or the specifier is neither an own key of it nor a
    name every object inherits.  Where no scope applies to the referrer and
    specifier this is what scope-aware resolution gives; where one applies,
    scope-aware resolution gives that scope's target for the specifier,
    which the code never reads. *)
Theorem resolveModuleSpecifier_ignores_scopes :
  forall (specifier : string) (m : ImportMap),
    (forall sc,
        ImportMapTs.resolveModuleSpecifier specifier
          {| imports := imports m; scopes := sc; integrity := integrity m |}
        = ImportMapTs.resolveModuleSpecifier specifier m)
    /\ (forall table, imports m = Some table ->
          forall url, Obj.get specifier table = Some url ->
            ImportMapTs.resolveModuleSpecifier specifier m = Js.Str url)
    /\ ((forall table, imports m = Some table ->
            Obj.get specifier table = None /\ Js.inherited specifier = false) ->
          ImportMapTs.resolveModuleSpecifier specifier m = Js.Str specifier)
    /\ (forall referrer,
          Spec.applicableScope referrer specifier m = None ->
          (forall table, imports m = Some table ->
             Obj.get specifier table = None -> Js.inherited specifier = false) ->
          ImportMapTs.resolveModuleSpecifier specifier m
          = Js.Str (Spec.resolveWithScopes referrer specifier m))
    /\ (forall referrer prefix overrides,
          Spec.applicableScope referrer specifier m = Some (prefix, overrides) ->
          exists target,
            String.prefix prefix referrer = true
            /\ Obj.get specifier overrides = Some target
            /\ Spec.resolveWithScopes referrer specifier m = target).
Proof.
  intros specifier m. split; [reflexivity|]. split; [|split; [|split]].
  - intros table E url G. unfold ImportMapTs.resolveModuleSpecifier.
    rewrite E. unfold Obj.contains, Obj.has. rewrite G. cbn [orb].
    now apply index_own.
  - intros H. unfold ImportMapTs.resolveModuleSpecifier.
    destruct (imports m) as [table|]; [|reflexivity].
    destruct (H table eq_refl) as [G I].
    unfold Obj.contains, Obj.has. now rewrite G, I.
  - intros referrer H Hplain. unfold Spec.resolveWithScopes. rewrite H.
    unfold ImportMapTs.resolveModuleSpecifier.
    destruct (imports m) as [table|]; [|reflexivity].
    unfold Obj.contains, Obj.has.
    destruct (Obj.get specifier table) as [url|] eqn:G.
    + cbn [orb]. now apply index_own.
    + now rewrite (Hplain table eq_refl G).
  - intros referrer prefix overrides H.
    assert (Happ : Spec.applies referrer specifier (prefix, overrides) = true).
    { unfold Spec.applicableScope in H.
      destruct (scopes m) as [table|]; [|discriminate H].
      destruct (longest_keeps _ _ _ H) as [E|Hin]; [discriminate E|].
      now apply filter_In in Hin. }
    unfold Spec.applies in Happ. cbn [fst snd] in Happ.
    apply andb_prop in Happ as [Hpre Hhas]. unfold Obj.has in Hhas.
    destruct (Obj.get specifier overrides) as [target|] eqn:G;
      [|discriminate Hhas].
    exists target. split; [exact Hpre|]. split; [reflexivity|].
    unfold Spec.resolveWithScopes. now rewrite H, G.
Qed.

Lemma resolveModuleSpecifier_ignores_scopes_witness :
  ImportMapTs.resolveModuleSpecifier "lib" Examples.scopedMap
  = Js.Str "/vendor/lib.js"
  /\ ImportMapTs.resolveModuleSpecifier "other" Examples.scopedMap
     = Js.Str "other"
  /\ ImportMapTs.resolveModuleSpecifier "lib" Examples.scopedMap
     = Js.Str (Spec.resolveWithScopes "/admin/main.js" "lib" Examples.scopedMap)
  /\ Spec.resolveWithScopes "/app/main.js" "lib" Examples.scopedMap
     = "/app/vendor/lib.js".
Proof.
  destruct (resolveModuleSpecifier_ignores_scopes "lib" Examples.scopedMap)
    as (_ & Hhit & _ & Hagree & Hscope).
  destruct (resolveModuleSpecifier_ignores_scopes "other" Examples.scopedMap)
    as (_ & _ & Hmiss & _).
  split; [|split; [|split]].
  - apply (Hhit [("lib", "/vendor/lib.js")]); reflexivity.
  - apply Hmiss. intros table E. injection E as <-. split; reflexivity.
  - apply Hagree; [reflexivity|]. intros table E. injection E as <-.
    discriminate.
  - destruct (Hscope "/app/main.js" "/app/" [("lib", "/app/vendor/lib.js")]
                eq_refl) as (target & _ & Hget & Hres).
    injection Hget as <-. exact Hres.
Defined.

(** C2 as stated fails: a module under the scope prefix ["/app/"] that
    imports ["lib"] must, by the claim, get the scope's override; the code
    returns the global target. *)
Lemma resolveModuleSpecifier_scope_counterexample :
  Spec.applicableScope "/app/main.js" "lib" Examples.scopedMap
  = Some ("/app/", [("lib", "/app/vendor/lib.js")])
  /\ Spec.resolveWithScopes "/app/main.js" "lib" Examples.scopedMap = "/app/vendor/lib.js"
  /\ ImportMapTs.resolveModuleSpecifier "lib" Examples.scopedMap
     = Js.Str "/vendor/lib.js"
  /\ ImportMapTs.resolveModuleSpecifier "lib" Examples.scopedMap
     <> Js.Str (Spec.resolveWithScopes "/app/main.js" "lib" Examples.scopedMap).
Proof.
  repeat split; try reflexivity. discriminate.
Qed.

(** ** The verifier of src/import-map.ts *)

Section ImportMapTsFacts.
Context (P : Platform) (W : Browser).

Lemma aliasLoop_clear (url : Js.value) (m : ImportMap)
      (entries : ImportMapEntry) :
  (forall alias target, In (alias, target) entries ->
                        Js.strictEq target url = true ->
                        ImportMapTs.hasIntegrityCheck alias m = false) ->
  ImportMapTs.aliasLoop W url m entries = ret tt.
Proof.
  induction entries as [|[alias target] rest IH]; intros H; simpl.
  - reflexivity.
  - destruct (Js.strictEq target url) eqn:E; simpl.
    + rewrite (H alias target (or_introl eq_refl) E).
      apply IH. intros a t Hin. apply H. now right.
    + apply IH. intros a t Hin. apply H. now right.
Qed.

Lemma aliasLoop_hit (u : string) (m : ImportMap) (entries : ImportMapEntry)
      (alias : string) :
  In (alias, u) entries ->
  ImportMapTs.hasIntegrityCheck alias m = true ->
  exists via,
    In (via, u) entries
    /\ ImportMapTs.hasIntegrityCheck via m = true
    /\ ImportMapTs.aliasLoop W (Js.Str u) m entries
       = throw (Error (ImportMapTs.failedMessage u ++ " (via " ++ via ++ ")")).
Proof.
  intros Hin Hcheck.
  induction entries as [|[a t] rest IH]; [destruct Hin|].
  cbn [ImportMapTs.aliasLoop]. rewrite strictEq_Str.
  destruct (String.eqb t u && ImportMapTs.hasIntegrityCheck a m) eqn:E.
  - apply andb_prop in E as [Et Ec]. apply String.eqb_eq in Et. subst t.
    exists a. repeat split; [now left | assumption].
  - destruct Hin as [Heq|Hin].
    + injection Heq as -> ->. rewrite String.eqb_refl, Hcheck in E.
      discriminate.
    + destruct (IH Hin) as (via & Hv & Hc & Hl).
      exists via. repeat split; [now right | assumption | assumption].
Qed.

Lemma hasIntegrityCheck_own (alias h : string) (m : ImportMap)
      (integ : ImportMapEntry) :
  integrity m = Some integ -> Obj.get alias integ = Some h -> h <> "" ->
  ImportMapTs.hasIntegrityCheck alias m = true.
Proof.
  intros Hi Hg Hne. unfold ImportMapTs.hasIntegrityCheck.
  rewrite Hi, (index_own _ _ _ Hg). now apply isTruthy_Str.
Qed.

(** The verification of a URL against a digest string. *)
Lemma verifyIntegrity_run (url : Js.value) (h : string) :
  ImportMapTs.verifyIntegrity P W url (Js.Str h)
  = match fetch W (textOf W url) with
    | Some response =>
        ([EvFetch (textOf W url); EvDigest "SHA-384" (text response)],
         Resolved (String.eqb ("sha384-" ++ btoa (sha384 P (text response))) h))
    | None => ([EvFetch (textOf W url)], Resolved false)
    end.
Proof.
  unfold ImportMapTs.verifyIntegrity, doFetch, ImportMapTs.calculateIntegrity.
  rewrite (subtleDigest_SHA384 P).
  destruct (fetch W (textOf W url)) as [response|]; reflexivity.
Qed.

(** The verification of a URL against a member of [Object.prototype]: no
    digest string equals it. *)
Lemma verifyIntegrity_member (url : Js.value) (name : string) :
  ImportMapTs.verifyIntegrity P W url (Js.Member name)
  = match fetch W (textOf W url) with
    | Some response =>
        ([EvFetch (textOf W url); EvDigest "SHA-384" (text response)],
         Resolved false)
    | None => ([EvFetch (textOf W url)], Resolved false)
    end.
Proof.
  unfold ImportMapTs.verifyIntegrity, doFetch, ImportMapTs.calculateIntegrity.
  rewrite (subtleDigest_SHA384 P).
  destruct (fetch W (textOf W url)) as [response|]; reflexivity.
Qed.

(** An import whose URL has a non-empty digest string of its own. *)
Lemma importWithIntegrity_checked (specifier : string) (m : ImportMap)
      (u h : string) :
  ImportMapTs.resolveModuleSpecifier specifier m = Js.Str u ->
  ImportMapTs.getIntegrityHash W (Js.Str u) m = Js.Str h -> h <> "" ->
  ImportMapTs.importWithIntegrity P W specifier m
  = match fetch W u with
    | Some response =>
        let actual := "sha384-" ++ btoa (sha384 P (text response)) in
        if String.eqb actual h then
          ([EvFetch u; EvDigest "SHA-384" (text response); EvImport u],
           Resolved (ModuleAt u))
        else
          ([EvFetch u; EvDigest "SHA-384" (text response)],
           Rejected (Error ("Integrity check failed for module: " ++ u)))
    | None =>
        ([EvFetch u],
         Rejected (Error ("Integrity check failed for module: " ++ u)))
    end.
Proof.
  intros Hres Hhash Hne.
  unfold ImportMapTs.importWithIntegrity. rewrite Hres, Hhash.
  rewrite (isTruthy_Str h Hne), verifyIntegrity_run.
  change (textOf W (Js.Str u)) with u.
  destruct (fetch W u) as [response|]; run; [|reflexivity].
  destruct (String.eqb _ h); reflexivity.
Qed.

(** An import for which neither lookup finds anything truthy. *)
Lemma importWithIntegrity_free (specifier : string) (m : ImportMap) :
  let url := ImportMapTs.resolveModuleSpecifier specifier m in
  Js.isTruthy (ImportMapTs.getIntegrityHash W url m) = false ->
  (forall table alias target,
      imports m = Some table -> In (alias, target) table ->
      Js.strictEq target url = true ->
      ImportMapTs.hasIntegrityCheck alias m = false) ->
  ImportMapTs.importWithIntegrity P W specifier m
  = ([EvImport (textOf W url)], Resolved (ModuleAt (textOf W url))).
Proof.
  intros url Hdirect Halias.
  unfold ImportMapTs.importWithIntegrity. fold url. rewrite Hdirect.
  rewrite aliasLoop_clear.
  - reflexivity.
  - destruct (imports m) as [table|]; [|intros ? ? []].
    intros alias target. now apply Halias.
Qed.
End ImportMapTsFacts.

(** X28.  Trust by default, as far as the code has it.  When the lookup
    [importMap.integrity?.[url]] of the resolved URL gives nothing truthy,
    and so does the lookup of every specifier that [imports] maps to that
    URL, [importWithIntegrity] goes straight to the dynamic import: the
    whole trace is that one import, with no fetch and no digest.  The
    lookups find nothing truthy for a name that has no own entry, or an
    empty one, and that no object inherits from [Object.prototype]. *)
Theorem importWithIntegrity_unconstrained :
  forall (P : Platform) (W : Browser) (specifier : string) (m : ImportMap),
    let url := ImportMapTs.resolveModuleSpecifier specifier m in
    (Js.isTruthy (ImportMapTs.getIntegrityHash W url m) = false ->
     (forall table alias target,
         imports m = Some table -> In (alias, target) table ->
         Js.strictEq target url = true ->
         ImportMapTs.hasIntegrityCheck alias m = false) ->
     ImportMapTs.importWithIntegrity P W specifier m
     = ([EvImport (textOf W url)], Resolved (ModuleAt (textOf W url))))
    /\ (forall name integ,
          integrity m = Some integ ->
          (Obj.get name integ = None \/ Obj.get name integ = Some "") ->
          Js.inherited name = false ->
          Js.isTruthy (ImportMapTs.getIntegrityHash W (Js.Str name) m) = false
          /\ ImportMapTs.hasIntegrityCheck name m = false)
    /\ (forall name,
          integrity m = None ->
          Js.isTruthy (ImportMapTs.getIntegrityHash W (Js.Str name) m) = false
          /\ ImportMapTs.hasIntegrityCheck name m = false).
Proof.
  intros P W specifier m url. split; [|split].
  - exact (importWithIntegrity_free P W specifier m).
  - intros name integ Hint Hget Hplain.
    unfold ImportMapTs.getIntegrityHash, ImportMapTs.hasIntegrityCheck.
    rewrite Hint. change (textOf W (Js.Str name)) with name.
    unfold Obj.index.
    destruct Hget as [Hget|Hget]; rewrite Hget; [rewrite Hplain|];
      split; reflexivity.
  - intros name Hint.
    unfold ImportMapTs.getIntegrityHash, ImportMapTs.hasIntegrityCheck.
    rewrite Hint. split; reflexivity.
Qed.

Lemma importWithIntegrity_unconstrained_witness :
  ImportMapTs.importWithIntegrity Reference.platform Examples.aliasPage
    "log?name=C" Examples.aliasMap
  = ([EvImport "log?name=D"], Resolved (ModuleAt "log?name=D"))
  /\ ImportMapTs.hasIntegrityCheck "log?name=C" Examples.aliasMap = false
  /\ ImportMapTs.hasIntegrityCheck "log?name=C" Samples.emptyMap = false.
Proof.
  destruct (importWithIntegrity_unconstrained Reference.platform
              Examples.aliasPage "log?name=C" Examples.aliasMap)
    as (Hrun & Hnone & _).
  destruct (importWithIntegrity_unconstrained Reference.platform
              Examples.aliasPage "log?name=C" Samples.emptyMap)
    as (_ & _ & Hbare).
  pose proof (Hnone "log?name=C" [("bare2", Examples.digestF)] eq_refl
                (or_introl eq_refl) eq_refl) as Hspecifier.
  pose proof (Hnone "log?name=D" [("bare2", Examples.digestF)] eq_refl
                (or_introl eq_refl) eq_refl) as Hurl.
  split; [|split].
  - apply Hrun.
    + exact (proj1 Hurl).
    + intros table alias target E Hin Ht. injection E as <-.
      simpl in Hin. destruct Hin as [H|[H|[H|[]]]]; injection H as <- <-;
        solve [exact (proj2 Hspecifier) | discriminate Ht].
  - exact (proj2 Hspecifier).
  - exact (proj2 (Hbare "log?name=C" eq_refl)).
Defined.

(** C4 fails on the code for a name every object inherits, against the
    documentation of [getIntegrityHash] (the hash, or [undefined] if not
    found).  The map has no entry for the module [valueOf], neither direct
    nor through an alias;
    the lookup [importMap.integrity?.["valueOf"]] nevertheless finds the
    function [Object.prototype.valueOf], so the module is fetched and
    hashed, the digest string is compared with that function, and the
    import is rejected. *)
Lemma importWithIntegrity_inherited_name :
  imports Examples.bareMap = None
  /\ integrity Examples.bareMap = Some [("log?name=F", Examples.digestF)]
  /\ ImportMapTs.resolveModuleSpecifier "valueOf" Examples.bareMap
     = Js.Str "valueOf"
  /\ ImportMapTs.getIntegrityHash Examples.barePage (Js.Str "valueOf")
       Examples.bareMap
     = Js.Member "valueOf"
  /\ ImportMapTs.importWithIntegrity Reference.platform Examples.barePage
       "valueOf" Examples.bareMap
     = ([EvFetch "valueOf"; EvDigest "SHA-384" Examples.moduleD],
        Rejected (Error "Integrity check failed for module: valueOf")).
Proof.
  repeat split; vm_compute; reflexivity.
Qed.

(** C5, as the code has it.  Let the specifier resolve to the string [u]
    and let [integrity] have the own entry [h] for [u].  If [h] is not
    empty, [importWithIntegrity] fetches [u], hashes the body with SHA-384
    and compares the string ["sha384-" ++ base64] with [h]: equal, the
    import follows; different, or the fetch failed, the call rejects with a
    message that names the URL and no import happens.  If [h] is the empty
    string the entry counts as absent: nothing is fetched, and unless an
    alias of [u] carries a digest the module is imported as it is. *)
Theorem importWithIntegrity_direct :
  forall (P : Platform) (W : Browser) (specifier : string) (m : ImportMap)
         (u : string) (integ : ImportMapEntry) (h : string),
    ImportMapTs.resolveModuleSpecifier specifier m = Js.Str u ->
    integrity m = Some integ -> Obj.get u integ = Some h ->
    (h <> "" ->
     ImportMapTs.importWithIntegrity P W specifier m
     = match fetch W u with
       | Some response =>
           let actual := "sha384-" ++ btoa (sha384 P (text response)) in
           if String.eqb actual h then
             ([EvFetch u; EvDigest "SHA-384" (text response); EvImport u],
              Resolved (ModuleAt u))
           else
             ([EvFetch u; EvDigest "SHA-384" (text response)],
              Rejected (Error ("Integrity check failed for module: " ++ u)))
       | None =>
           ([EvFetch u],
            Rejected (Error ("Integrity check failed for module: " ++ u)))
       end)
    /\ (h = "" ->
        (forall table alias,
            imports m = Some table -> In (alias, u) table ->
            ImportMapTs.hasIntegrityCheck alias m = false) ->
        ImportMapTs.importWithIntegrity P W specifier m
        = ([EvImport u], Resolved (ModuleAt u))).
Proof.
  intros P W specifier m u integ h Hres Hint Hget.
  assert (Hhash : ImportMapTs.getIntegrityHash W (Js.Str u) m = Js.Str h).
  { unfold ImportMapTs.getIntegrityHash. rewrite Hint.
    now apply index_own. }
  split.
  - intros Hne.
    exact (importWithIntegrity_checked P W specifier m u h Hres Hhash Hne).
  - intros -> Halias.
    pose proof (importWithIntegrity_free P W specifier m) as Hfree.
    cbv zeta in Hfree. rewrite Hres in Hfree.
    apply Hfree.
    + now rewrite Hhash.
    + intros table alias target Ht Hin Heq.
      rewrite strictEq_Str in Heq. apply String.eqb_eq in Heq. subst target.
      now apply (Halias table).
Qed.

Lemma importWithIntegrity_direct_witness :
  ImportMapTs.importWithIntegrity Reference.platform Examples.directPage
    "log?name=G" Examples.directMap
  = ([EvFetch "log?name=F"; EvDigest "SHA-384" Examples.moduleF;
      EvImport "log?name=F"], Resolved (ModuleAt "log?name=F"))
  /\ ImportMapTs.importWithIntegrity Reference.platform Examples.tamperedPage
       "log?name=G" Examples.directMap
     = ([EvFetch "log?name=F"; EvDigest "SHA-384" Examples.moduleD],
        Rejected (Error "Integrity check failed for module: log?name=F"))
  /\ ImportMapTs.importWithIntegrity Reference.platform
       Examples.emptyDigestPage "log?name=G" Examples.emptyDigestMap
     = ([EvImport "log?name=F"], Resolved (ModuleAt "log?name=F")).
Proof.
  split; [|split].
  - destruct (importWithIntegrity_direct Reference.platform
                Examples.directPage "log?name=G" Examples.directMap
                "log?name=F" [("log?name=F", Examples.digestF)]
                Examples.digestF eq_refl eq_refl eq_refl) as [Hrun _].
    rewrite Hrun; [vm_compute; reflexivity | discriminate].
  - destruct (importWithIntegrity_direct Reference.platform
                Examples.tamperedPage "log?name=G" Examples.directMap
                "log?name=F" [("log?name=F", Examples.digestF)]
                Examples.digestF eq_refl eq_refl eq_refl) as [Hrun _].
    rewrite Hrun; [vm_compute; reflexivity | discriminate].
  - destruct (importWithIntegrity_direct Reference.platform
                Examples.emptyDigestPage "log?name=G" Examples.emptyDigestMap
                "log?name=F" [("log?name=F", "")] "" eq_refl eq_refl eq_refl)
      as [_ Hrun].
    apply Hrun; [reflexivity|].
    intros table alias E Hin. injection E as <-.
    simpl in Hin. destruct Hin as [H|[]]. injection H as <-. reflexivity.
Defined.

(** C5 as stated fails for an entry that is the empty string: [F] has a
    direct integrity entry, the digest string of its content differs from
    it, and the import of [G] (which resolves to [F]) goes through without
    a fetch. *)
Lemma importWithIntegrity_direct_counterexample :
  ImportMapTs.resolveModuleSpecifier "log?name=G" Examples.emptyDigestMap
  = Js.Str "log?name=F"
  /\ integrity Examples.emptyDigestMap = Some [("log?name=F", "")]
  /\ fetch Examples.emptyDigestPage "log?name=F"
     = Some (Reference.okResponse Examples.moduleF)
  /\ "sha384-" ++ btoa (sha384 Reference.platform Examples.moduleF) <> ""
  /\ ImportMapTs.importWithIntegrity Reference.platform
       Examples.emptyDigestPage "log?name=G" Examples.emptyDigestMap
     = ([EvImport "log?name=F"], Resolved (ModuleAt "log?name=F")).
Proof.
  split; [reflexivity|]. split; [reflexivity|]. split; [reflexivity|].
  split; [discriminate|]. vm_compute. reflexivity.
Qed.

(** ** The client modules: which digest a URL is checked against *)

Section ClientFacts.
Context (P : Platform) (W : Browser).

Lemma strictEq_inv (s : string) (v : Js.value) :
  Js.strictEq s v = true -> v = Js.Str s.
Proof.
  destruct v as [|t|name]; simpl; try discriminate.
  intros H. apply String.eqb_eq in H. now subst.
Qed.

Lemma aliasIntegrity_sound (m : ImportMap) (url : Js.value)
      (table : ImportMapEntry) (h : string) :
  Client.aliasIntegrity m url table = Js.Str h ->
  h <> "" /\ exists alias u,
      url = Js.Str u /\ In (alias, u) table
      /\ Client.integrityAt m alias = Js.Str h.
Proof.
  induction table as [|[alias target] rest IH]; simpl; [discriminate|].
  destruct (Js.strictEq target url) eqn:Et; simpl.
  - destruct (Js.isTruthy (Client.integrityAt m alias)) eqn:T.
    + intros E. rewrite E in T. split.
      * intros ->. discriminate T.
      * exists alias, target. split; [now apply strictEq_inv|].
        split; [now left | assumption].
    + intros E. destruct (IH E) as (Hne & a & u & Hu & Hin & Ha).
      split; [assumption|]. exists a, u.
      split; [assumption|]. split; [now right | assumption].
  - intros E. destruct (IH E) as (Hne & a & u & Hu & Hin & Ha).
    split; [assumption|]. exists a, u.
    split; [assumption|]. split; [now right | assumption].
Qed.

Lemma aliasIntegrity_truthy (m : ImportMap) (url : Js.value)
      (table : ImportMapEntry) :
  Client.aliasIntegrity m url table = Js.Undefined
  \/ Js.isTruthy (Client.aliasIntegrity m url table) = true.
Proof.
  induction table as [|[alias target] rest IH]; simpl; [now left|].
  destruct (Js.strictEq target url && Js.isTruthy (Client.integrityAt m alias))
    eqn:E; [|exact IH].
  apply andb_prop in E as [_ T]. now right.
Qed.

Lemma expectedIntegrity_alias (m : ImportMap) (url : Js.value)
      (table : ImportMapEntry) (h : string) :
  Js.isTruthy (Client.integrityAt m (textOf W url)) = false ->
  imports m = Some table ->
  Client.aliasIntegrity m url table = Js.Str h ->
  Client.expectedIntegrity W m url = Js.Str h.
Proof.
  intros Hd Hi Ha. unfold Client.expectedIntegrity.
  rewrite Hd, Hi, Ha.
  destruct (aliasIntegrity_sound m url table h Ha) as [Hne _].
  now rewrite (isTruthy_Str h Hne).
Qed.

Lemma hasIntegrityConstraint_expected (m : ImportMap) (url : Js.value) :
  importMapScript W = Some m ->
  Client.hasIntegrityConstraint W url
  = Js.isTruthy (Client.expectedIntegrity W m url).
Proof.
  intros Hm. unfold Client.hasIntegrityConstraint, Client.getImportMap,
    Client.expectedIntegrity.
  rewrite Hm.
  destruct (Js.isTruthy (Client.integrityAt m (textOf W url))) eqn:T;
    [now rewrite T|].
  destruct (imports m) as [table|]; [|now rewrite T].
  destruct (Js.isTruthy (Client.aliasIntegrity m url table)) eqn:A;
    [now rewrite A | now rewrite T].
Qed.

(** The verification of the SHA-384-only client against the digest string
    it has settled on. *)
Lemma client_verify_run (m : ImportMap) (url : Js.value) (h : string) :
  importMapScript W = Some m ->
  Client.expectedIntegrity W m url = Js.Str h -> h <> "" ->
  Client.verifyIntegrity P W url
  = if negb (Js.startsWith "sha384-" h) then ([], Resolved false)
    else
      match fetch W (textOf W url) with
      | None => ([EvFetch (textOf W url)], Resolved false)
      | Some response =>
          if negb (ok response) || negb (hasWindow W) then
            ([EvFetch (textOf W url)], Resolved false)
          else
            ([EvFetch (textOf W url); EvDigest "SHA-384" (text response)],
             Resolved (String.eqb
                         ("sha384-" ++ btoa (sha384 P (text response))) h))
      end.
Proof.
  intros Hm He Hne.
  unfold Client.verifyIntegrity, Client.getImportMap. rewrite Hm, He.
  rewrite (isTruthy_Str h Hne). cbn [negb].
  destruct (Js.startsWith "sha384-" h); [|reflexivity]. cbn [negb].
  unfold doFetch, Client.calculateIntegrity.
  destruct (fetch W (textOf W url)) as [response|]; run; [|reflexivity].
  destruct (ok response); run; [|reflexivity].
  destruct (hasWindow W); run; [|reflexivity].
  rewrite (subtleDigest_SHA384 P). reflexivity.
Qed.

(** The SHA-384-only client: every run of an import whose URL is checked
    against the digest string [h]. *)
Lemma client_import_run (m : ImportMap) (specifier h : string) :
  let url := Client.resolveSpecifier W specifier in
  let u := textOf W url in
  importMapScript W = Some m ->
  Client.expectedIntegrity W m url = Js.Str h -> h <> "" ->
  Client.importWithIntegrity P W specifier
  = if negb (Js.startsWith "sha384-" h) then
      ([], Rejected (Error ("Integrity check failed for module: " ++ u)))
    else
      match fetch W u with
      | None =>
          ([EvFetch u],
           Rejected (Error ("Integrity check failed for module: " ++ u)))
      | Some response =>
          if negb (ok response) || negb (hasWindow W) then
            ([EvFetch u],
             Rejected (Error ("Integrity check failed for module: " ++ u)))
          else if String.eqb ("sha384-" ++ btoa (sha384 P (text response))) h
          then
            ([EvFetch u; EvDigest "SHA-384" (text response); EvImport u],
             Resolved (ModuleAt u))
          else
            ([EvFetch u; EvDigest "SHA-384" (text response)],
             Rejected (Error ("Integrity check failed for module: " ++ u)))
      end.
Proof.
  intros url u Hm He Hne.
  unfold Client.importWithIntegrity. fold url. fold u.
  rewrite (hasIntegrityConstraint_expected m url Hm), He.
  rewrite (isTruthy_Str h Hne).
  rewrite (client_verify_run m url h Hm He Hne). fold u.
  destruct (Js.startsWith "sha384-" h); [|reflexivity]. cbn [negb].
  destruct (fetch W u) as [response|]; [|reflexivity].
  destruct (negb (ok response) || negb (hasWindow W)); [reflexivity|].
  destruct (String.eqb _ h); reflexivity.
Qed.

(** A digest with a foreign tag is refused before anything is fetched. *)
Lemma client_foreign_tag (m : ImportMap) (url : Js.value) (h : string) :
  importMapScript W = Some m ->
  Client.expectedIntegrity W m url = Js.Str h -> h <> "" ->
  Js.splitHead "-" h <> "sha384" ->
  Client.verifyIntegrity P W url = ([], Resolved false).
Proof.
  intros Hm He Hne Htag.
  rewrite (client_verify_run m url h Hm He Hne).
  now rewrite (foreign_tag_not_sha384_prefixed h Htag).
Qed.

(** The earlier client module: the digest located for the URL, be it an
    alias's, is the value the fetched body is compared with. *)
Lemma legacy_verify_run (m : ImportMap) (url : Js.value) (h : string) :
  importMapScript W = Some m ->
  Client.expectedIntegrity W m url = Js.Str h -> h <> "" ->
  let algorithm := Js.splitHead "-" h in
  ClientLegacy.verifyIntegrity P W url
  = match fetch W (textOf W url) with
    | None => ([EvFetch (textOf W url)], Resolved false)
    | Some response =>
        if negb (ok response) || negb (hasWindow W) then
          ([EvFetch (textOf W url)], Resolved false)
        else
          match subtleDigest P (Js.toUpperCase algorithm) with
          | Some digest =>
              ([EvFetch (textOf W url);
                EvDigest (Js.toUpperCase algorithm) (text response)],
               Resolved (String.eqb
                           (algorithm ++ "-" ++ btoa (digest (text response)))
                           h))
          | None => ([EvFetch (textOf W url)], Resolved false)
          end
    end.
Proof.
  intros Hm He Hne algorithm.
  unfold ClientLegacy.verifyIntegrity, ClientLegacy.getImportMap.
  rewrite Hm, He.
  rewrite (isTruthy_Str h Hne). cbn [negb].
  unfold doFetch, ClientLegacy.calculateIntegrity.
  destruct (fetch W (textOf W url)) as [response|]; run; [|reflexivity].
  destruct (ok response); run; [|reflexivity].
  destruct (hasWindow W); run; [|reflexivity].
  fold algorithm.
  destruct (subtleDigest P (Js.toUpperCase algorithm)); reflexivity.
Qed.
End ClientFacts.

(** C1, as the code has it.  In src/import-map.ts an import whose resolved
    URL [u] has nothing truthy under [integrity[u]], while some specifier
    that [imports] maps to [u] has a non-empty integrity entry, is rejected
    before anything is fetched.  The client modules instead take the digest
    [h] of the first such alias as the expected value for the URL.  The
    SHA-384-only client then rejects at once unless [h] is tagged
    [sha384-], and otherwise fetches [u]: it rejects when the fetch fails,
    the response is not OK or there is no [window], and else imports the
    module exactly when the body hashes to [h].  The earlier client
    fetches [u] and compares the body's digest, computed under the tag of
    [h], with [h]. *)
Theorem transitive_hit_by_module :
  forall (P : Platform) (W : Browser),
    (forall specifier m u table integ alias h,
        ImportMapTs.resolveModuleSpecifier specifier m = Js.Str u ->
        Js.isTruthy (ImportMapTs.getIntegrityHash W (Js.Str u) m) = false ->
        imports m = Some table -> In (alias, u) table ->
        integrity m = Some integ -> Obj.get alias integ = Some h -> h <> "" ->
        exists via,
          In (via, u) table
          /\ ImportMapTs.hasIntegrityCheck via m = true
          /\ ImportMapTs.importWithIntegrity P W specifier m
             = ([], Rejected (Error ("Integrity check failed for module: "
                                       ++ u ++ " (via " ++ via ++ ")"))))
    /\ (forall specifier m table h,
          let url := Client.resolveSpecifier W specifier in
          let u := textOf W url in
          importMapScript W = Some m ->
          Js.isTruthy (Client.integrityAt m u) = false ->
          imports m = Some table ->
          Client.aliasIntegrity m url table = Js.Str h ->
          (exists alias, url = Js.Str u /\ In (alias, u) table
                         /\ Client.integrityAt m alias = Js.Str h)
          /\ Client.importWithIntegrity P W specifier
             = (if negb (Js.startsWith "sha384-" h) then
                  ([], Rejected (Error ("Integrity check failed for module: "
                                          ++ u)))
                else
                  match fetch W u with
                  | None =>
                      ([EvFetch u],
                       Rejected (Error ("Integrity check failed for module: "
                                          ++ u)))
                  | Some response =>
                      if negb (ok response) || negb (hasWindow W) then
                        ([EvFetch u],
                         Rejected (Error ("Integrity check failed for module: "
                                            ++ u)))
                      else if String.eqb
                                ("sha384-" ++ btoa (sha384 P (text response))) h
                      then
                        ([EvFetch u; EvDigest "SHA-384" (text response);
                          EvImport u], Resolved (ModuleAt u))
                      else
                        ([EvFetch u; EvDigest "SHA-384" (text response)],
                         Rejected (Error ("Integrity check failed for module: "
                                            ++ u)))
                  end)
          /\ ClientLegacy.verifyIntegrity P W url
             = let algorithm := Js.splitHead "-" h in
               match fetch W u with
               | None => ([EvFetch u], Resolved false)
               | Some response =>
                   if negb (ok response) || negb (hasWindow W) then
                     ([EvFetch u], Resolved false)
                   else
                     match subtleDigest P (Js.toUpperCase algorithm) with
                     | Some digest =>
                         ([EvFetch u;
                           EvDigest (Js.toUpperCase algorithm) (text response)],
                          Resolved (String.eqb
                                      (algorithm ++ "-"
                                         ++ btoa (digest (text response))) h))
                     | None => ([EvFetch u], Resolved false)
                     end
               end).
Proof.
  intros P W. split.
  - intros specifier m u table integ alias h Hres Hdirect Himports Hin
           Hint Hget Hne.
    pose proof (hasIntegrityCheck_own alias h m integ Hint Hget Hne) as Hcheck.
    destruct (aliasLoop_hit W u m table alias Hin Hcheck)
      as (via & Hvia & Hc & Hloop).
    exists via. repeat split; try assumption.
    unfold ImportMapTs.importWithIntegrity.
    rewrite Hres, Hdirect, Himports, Hloop. unfold ImportMapTs.failedMessage.
    now rewrite append_assoc.
  - intros specifier m table h url u Hm Hdirect Himports Halias.
    destruct (aliasIntegrity_sound m url table h Halias)
      as (Hne & alias & u' & Hu & Hin & Ha).
    pose proof (expectedIntegrity_alias W m url table h Hdirect Himports Halias)
      as Hexp.
    assert (Eu : u' = u) by (unfold u; now rewrite Hu).
    subst u'.
    split; [exists alias; repeat split; assumption|]. split.
    + exact (client_import_run P W m specifier h Hm Hexp Hne).
    + exact (legacy_verify_run P W m url h Hm Hexp Hne).
Qed.

Lemma transitive_hit_by_module_witness :
  (exists via,
      ImportMapTs.importWithIntegrity Reference.platform Examples.aliasPage
        "log?name=G" Examples.aliasMap
      = ([], Rejected (Error ("Integrity check failed for module: "
                                ++ "log?name=F" ++ " (via " ++ via ++ ")"))))
  /\ Client.importWithIntegrity Reference.platform Examples.aliasPage
       "log?name=G"
     = ([EvFetch "log?name=F"; EvDigest "SHA-384" Examples.moduleF;
         EvImport "log?name=F"], Resolved (ModuleAt "log?name=F")).
Proof.
  destruct (transitive_hit_by_module Reference.platform Examples.aliasPage)
    as [Hts Hclient].
  split.
  - destruct (Hts "log?name=G" Examples.aliasMap "log?name=F"
                [("log?name=C", "log?name=D"); ("log?name=G", "log?name=F");
                 ("bare2", "log?name=F")]
                [("bare2", Examples.digestF)]
                "bare2" Examples.digestF eq_refl eq_refl eq_refl
                (or_intror (or_intror (or_introl eq_refl))) eq_refl eq_refl
                ltac:(discriminate))
      as (via & _ & _ & Hrun).
    exists via. exact Hrun.
  - destruct (Hclient "log?name=G" Examples.aliasMap
                [("log?name=C", "log?name=D"); ("log?name=G", "log?name=F");
                 ("bare2", "log?name=F")]
                Examples.digestF eq_refl eq_refl eq_refl eq_refl)
      as (_ & Hrun & _).
    rewrite Hrun. vm_compute. reflexivity.
Defined.

(** C1 as stated fails in the client module.  [F] has no integrity entry of
    its own, the specifier [bare2] maps to [F] and has one, and the import
    of [G] (which resolves to [F]) is not rejected: the body of [F] is
    fetched, hashed and accepted against the digest declared for [bare2]. *)
Lemma transitive_hit_counterexample :
  Client.resolveSpecifier Examples.aliasPage "log?name=G" = Js.Str "log?name=F"
  /\ Client.getIntegrityForUrl Examples.aliasPage (Js.Str "log?name=F")
     = Js.Undefined
  /\ In ("bare2", "log?name=F")
        [("log?name=C", "log?name=D"); ("log?name=G", "log?name=F");
         ("bare2", "log?name=F")]
  /\ Client.getIntegrityForUrl Examples.aliasPage (Js.Str "bare2")
     = Js.Str Examples.digestF
  /\ Client.verifyIntegrity Reference.platform Examples.aliasPage
       (Js.Str "log?name=F")
     = ([EvFetch "log?name=F"; EvDigest "SHA-384" Examples.moduleF],
        Resolved true)
  /\ Client.importWithIntegrity Reference.platform Examples.aliasPage
       "log?name=G"
     = ([EvFetch "log?name=F"; EvDigest "SHA-384" Examples.moduleF;
         EvImport "log?name=F"], Resolved (ModuleAt "log?name=F")).
Proof.
  split; [vm_compute; reflexivity|].
  split; [vm_compute; reflexivity|].
  split; [right; right; left; reflexivity|].
  split; [vm_compute; reflexivity|].
  split; vm_compute; reflexivity.
Qed.

(** ** Loops *)

Lemma bind_ret_l {A B : Type} (a : A) (k : A -> Eff B) : bind (ret a) k = k a.
Proof. unfold bind, ret. destruct (k a). reflexivity. Qed.

Lemma bind_ext {A B : Type} (m : Eff A) (f g : A -> Eff B) :
  (forall a, f a = g a) -> bind m f = bind m g.
Proof.
  intros H. destruct m as [t [a|e]]; simpl; [now rewrite H | reflexivity].
Qed.

Lemma bind_assoc {A B C : Type} (m : Eff A) (f : A -> Eff B) (g : B -> Eff C) :
  bind (bind m f) g = bind m (fun a => bind (f a) g).
Proof.
  destruct m as [t [a|e]]; simpl; [|reflexivity].
  destruct (f a) as [t1 [b|e]]; simpl; [|reflexivity].
  destruct (g b) as [t2 r]. now rewrite app_assoc.
Qed.

Lemma forEach_app {S E : Type} (body : S -> E -> Eff S) (pre post : list E)
      (state : S) :
  forEach body (pre ++ post)%list state
  = bind (forEach body pre state) (forEach body post).
Proof.
  revert state; induction pre as [|e pre IH]; intros state; cbn [forEach app].
  - now rewrite bind_ret_l.
  - rewrite bind_assoc. apply bind_ext. intros a. apply IH.
Qed.

Lemma forEach_invariant {S E : Type} (body : S -> E -> Eff S) (Inv : S -> Prop) :
  (forall s e t s', Inv s -> body s e = (t, Resolved s') -> Inv s') ->
  forall entries s t s',
    Inv s -> forEach body entries s = (t, Resolved s') -> Inv s'.
Proof.
  intros Hstep entries. induction entries as [|e rest IH]; intros s t s' Hs; simpl.
  - intros H. injection H as _ <-. exact Hs.
  - destruct (body s e) as [t1 [s1|err]] eqn:Hb; simpl; [|discriminate].
    destruct (forEach body rest s1) as [t2 r] eqn:Hf. intros H.
    injection H as _ ->. eapply IH; [|exact Hf]. eapply Hstep; eassumption.
Qed.

Lemma forEach_total {S E : Type} (body : S -> E -> Eff S) (entries : list E) :
  (forall s e, In e entries -> exists t s', body s e = (t, Resolved s')) ->
  forall s, exists t s', forEach body entries s = (t, Resolved s').
Proof.
  induction entries as [|e rest IH]; intros Hbody s; simpl.
  - exists [], s. reflexivity.
  - destruct (Hbody s e (or_introl eq_refl)) as (t1 & s1 & H1). rewrite H1.
    destruct (IH (fun s0 e0 Hin => Hbody s0 e0 (or_intror Hin)) s1)
      as (t2 & s2 & H2).
    simpl. rewrite H2. exists (t1 ++ t2)%list, s2. reflexivity.
Qed.

(** ** One entry of a batch validation *)

Section ValidatorFacts.
Context (P : Platform) (D : Disk).

Lemma fullPathOf_cases (distDir url : string) :
  (exists fullPath, fullPathOf P distDir url = ret fullPath)
  \/ fullPathOf P distDir url = throw (TypeError "Invalid URL").
Proof.
  unfold fullPathOf, filePathOf.
  destruct (Js.startsWith "/" url); [left; eexists; reflexivity|].
  destruct (Js.includes "://" url); [|left; eexists; reflexivity].
  destruct (url_pathname P url); [left; eexists|right]; reflexivity.
Qed.

Lemma next_entry_foreign (distDir url h : string) (r : Validator.Results) :
  Js.startsWith "sha384-" h = false ->
  Validator.validateEntry P D distDir r (url, h)
  = ret (Validator.incFailed (Validator.unsupported url h)
           (Validator.incTotal r)).
Proof.
  intros Hs. unfold Validator.validateEntry.
  change (Validator.algorithm ++ "-") with "sha384-". now rewrite Hs.
Qed.

Lemma next_entry_missing (distDir url h fullPath : string)
      (r : Validator.Results) :
  Js.startsWith "sha384-" h = true ->
  fullPathOf P distDir url = ret fullPath ->
  file D fullPath = None ->
  Validator.validateEntry P D distDir r (url, h)
  = ret (Validator.incMissing (Validator.notFound url h)
           (Validator.incTotal r)).
Proof.
  intros Hs Hp Hf. unfold Validator.validateEntry.
  change (Validator.algorithm ++ "-") with "sha384-". rewrite Hs, Hp.
  run. now rewrite Hf.
Qed.

Lemma next_entry_present (distDir url h fullPath content : string)
      (r : Validator.Results) :
  Js.startsWith "sha384-" h = true ->
  fullPathOf P distDir url = ret fullPath ->
  file D fullPath = Some content ->
  Validator.validateEntry P D distDir r (url, h)
  = ([EvRead fullPath; EvDigest "sha384" content],
     Resolved
       (if String.eqb ("sha384-" ++ Base64.encode (sha384 P content)) h
        then Validator.incPassed (Validator.incTotal r)
        else Validator.incFailed
               (Validator.mismatch url h
                  ("sha384-" ++ Base64.encode (sha384 P content)))
               (Validator.incTotal r))).
Proof.
  intros Hs Hp Hf. unfold Validator.validateEntry.
  change (Validator.algorithm ++ "-") with "sha384-". rewrite Hs, Hp.
  run. rewrite Hf.
  change Validator.algorithm with "sha384". rewrite (createHash_sha384 P).
  destruct (String.eqb _ h); reflexivity.
Qed.

Lemma build_entry_missing (distDir url h fullPath : string)
      (r : BuildValidator.Results) :
  fullPathOf P distDir url = ret fullPath ->
  file D fullPath = None ->
  BuildValidator.validateEntry P D distDir r (url, h)
  = ret (BuildValidator.incMissing (BuildValidator.notFound url h)
           (BuildValidator.incTotal r)).
Proof.
  intros Hp Hf. unfold BuildValidator.validateEntry. rewrite Hp.
  run. now rewrite Hf.
Qed.

Lemma build_entry_present (distDir url h fullPath content : string)
      (r : BuildValidator.Results) :
  fullPathOf P distDir url = ret fullPath ->
  file D fullPath = Some content ->
  BuildValidator.validateEntry P D distDir r (url, h)
  = let algorithm := Js.splitHead "-" h in
    let text := decodeUtf8 P content in
    match createHash P algorithm with
    | Some hash =>
        let actual := algorithm ++ "-" ++ Base64.encode (hash text) in
        ([EvRead fullPath; EvDigest algorithm text],
         Resolved
           (if String.eqb actual h
            then BuildValidator.incPassed (BuildValidator.incTotal r)
            else BuildValidator.incFailed
                   (BuildValidator.mismatch url h actual)
                   (BuildValidator.incTotal r)))
    | None =>
        ([EvRead fullPath], Rejected (Error "Digest method not supported"))
    end.
Proof.
  intros Hp Hf. unfold BuildValidator.validateEntry. rewrite Hp.
  run. rewrite Hf.
  destruct (createHash P (Js.splitHead "-" h)); [|reflexivity].
  destruct (String.eqb _ h); reflexivity.
Qed.

Lemma next_entry_balanced (distDir : string) (r : Validator.Results)
      (entry : string * string) (t : list event) (r' : Validator.Results) :
  Validator.balanced r ->
  Validator.validateEntry P D distDir r entry = (t, Resolved r') ->
  Validator.balanced r'.
Proof.
  intros [Ht Hl] H. destruct entry as [url h].
  destruct (Js.startsWith "sha384-" h) eqn:Hs.
  - destruct (fullPathOf_cases distDir url) as [[fullPath Hp]|Hp].
    + destruct (file D fullPath) as [content|] eqn:Hf.
      * rewrite (next_entry_present _ _ _ _ _ _ Hs Hp Hf) in H.
        destruct (String.eqb ("sha384-" ++ Base64.encode (sha384 P content)) h);
          injection H as _ <-; unfold Validator.balanced; simpl;
          rewrite ?length_app; simpl; lia.
      * rewrite (next_entry_missing _ _ _ _ _ Hs Hp Hf) in H.
        injection H as _ <-. unfold Validator.balanced; simpl.
        rewrite ?length_app; simpl; lia.
    + unfold Validator.validateEntry in H.
      change (Validator.algorithm ++ "-") with "sha384-" in H.
      rewrite Hs, Hp in H. discriminate H.
  - rewrite (next_entry_foreign _ _ _ _ Hs) in H. injection H as _ <-.
    unfold Validator.balanced; simpl. rewrite ?length_app; simpl; lia.
Qed.
End ValidatorFacts.

(** ** Digests with a foreign algorithm tag *)

(** C3, as the code has it.  A digest string whose tag is not [sha384] is
    refused by the SHA-384-only client (its verifier answers [false] before
    any fetch or digest, and the import is rejected) and by
    [validateNextJSBuildIntegrity] (the entry is counted as failed with the
    unsupported-algorithm reason, and no file is read or hashed).
    [validateBuildOutput] has no such gate: for a present file it hashes
    the file's text with the algorithm the tag names and passes the entry
    when the digest strings agree. *)
Theorem foreign_tag_by_module :
  forall (P : Platform) (W : Browser) (D : Disk),
    (forall m specifier h,
        let url := Client.resolveSpecifier W specifier in
        importMapScript W = Some m ->
        Client.expectedIntegrity W m url = Js.Str h -> h <> "" ->
        Js.splitHead "-" h <> "sha384" ->
        Client.verifyIntegrity P W url = ([], Resolved false)
        /\ Client.importWithIntegrity P W specifier
           = ([], Rejected (Error ("Integrity check failed for module: "
                                     ++ textOf W url))))
    /\ (forall distDir r url h,
          Js.splitHead "-" h <> "sha384" ->
          Validator.validateEntry P D distDir r (url, h)
          = ([], Resolved (Validator.incFailed (Validator.unsupported url h)
                             (Validator.incTotal r))))
    /\ (forall distDir r url h fullPath content,
          fullPathOf P distDir url = ret fullPath ->
          file D fullPath = Some content ->
          BuildValidator.validateEntry P D distDir r (url, h)
          = let algorithm := Js.splitHead "-" h in
            let text := decodeUtf8 P content in
            match createHash P algorithm with
            | Some hash =>
                let actual := algorithm ++ "-" ++ Base64.encode (hash text) in
                ([EvRead fullPath; EvDigest algorithm text],
                 Resolved
                   (if String.eqb actual h
                    then BuildValidator.incPassed (BuildValidator.incTotal r)
                    else BuildValidator.incFailed
                           (BuildValidator.mismatch url h actual)
                           (BuildValidator.incTotal r)))
            | None =>
                ([EvRead fullPath],
                 Rejected (Error "Digest method not supported"))
            end).
Proof.
  intros P W D. split; [|split].
  - intros m specifier h url Hm He Hne Htag.
    split; [exact (client_foreign_tag P W m url h Hm He Hne Htag)|].
    pose proof (client_import_run P W m specifier h Hm He Hne) as Hrun.
    cbv zeta in Hrun. fold url in Hrun. rewrite Hrun.
    now rewrite (foreign_tag_not_sha384_prefixed h Htag).
  - intros distDir r url h Htag.
    apply next_entry_foreign. now apply foreign_tag_not_sha384_prefixed.
  - intros distDir r url h fullPath content Hp Hf.
    now apply build_entry_present.
Qed.

Lemma foreign_tag_by_module_witness :
  Client.importWithIntegrity Reference.platform Examples.foreignPage "log?name=G"
  = ([], Rejected (Error "Integrity check failed for module: log?name=F"))
  /\ Validator.validateEntry Reference.platform Examples.sha256Disk "dist"
       Validator.initial ("/a.js", Examples.digestA256)
     = ([], Resolved {| Validator.total := 1; Validator.passed := 0;
                        Validator.failed := 1; Validator.missing := 0;
                        Validator.failures :=
                          [Validator.unsupported "/a.js" Examples.digestA256];
                        Validator.success := false |})
  /\ BuildValidator.validateEntry Reference.platform Examples.sha256Disk "dist"
       BuildValidator.initial ("/a.js", Examples.digestA256)
     = ([EvRead "dist/a.js"; EvDigest "sha256" Examples.moduleA],
        Resolved {| BuildValidator.total := 1; BuildValidator.passed := 1;
                    BuildValidator.failed := 0; BuildValidator.missing := 0;
                    BuildValidator.failures := [] |}).
Proof.
  destruct (foreign_tag_by_module Reference.platform Examples.foreignPage
              Examples.sha256Disk) as (Hclient & Hnext & Hbuild).
  split; [|split].
  - apply (Hclient Examples.foreignMap "log?name=G" Examples.digestF256
             eq_refl eq_refl); discriminate.
  - apply (Hnext "dist" Validator.initial "/a.js" Examples.digestA256).
    discriminate.
  - rewrite (Hbuild "dist" BuildValidator.initial "/a.js" Examples.digestA256
               "dist/a.js" Examples.moduleA eq_refl eq_refl).
    vm_compute. reflexivity.
Defined.

(** C3 as stated fails in [validateBuildOutput]: the stored digest is
    tagged [sha256], the content is hashed with SHA-256, and the entry
    passes. *)
Lemma foreign_tag_counterexample :
  Js.splitHead "-" Examples.digestA256 = "sha256"
  /\ BuildValidator.validateBuildOutput Reference.platform Examples.sha256Disk
       "dist"
     = ([EvRead "dist/importmap.json"; EvRead "dist/a.js";
         EvDigest "sha256" Examples.moduleA],
        Resolved {| BuildValidator.total := 1; BuildValidator.passed := 1;
                    BuildValidator.failed := 0; BuildValidator.missing := 0;
                    BuildValidator.failures := [] |}).
Proof.
  split; vm_compute; reflexivity.
Qed.

(** ** Missing files *)

(** C6, as the code has it.  An entry whose URL maps to a path with no file
    adds one to [total] and to [missing], appends the not-found record for
    its URL to [failures], and the loop goes on with the entries after it
    from exactly that state.  In [validateNextJSBuildIntegrity] this holds
    for entries whose digest starts with ["sha384-"] (the tag is checked
    before the file is looked for); in [validateBuildOutput] it holds for
    every entry. *)
Theorem missing_file_is_counted :
  forall (P : Platform) (D : Disk) (distDir : string)
         (pre post : ImportMapEntry) (url h fullPath : string),
    fullPathOf P distDir url = ret fullPath ->
    file D fullPath = None ->
    (forall r0 t1 r1,
        Js.startsWith "sha384-" h = true ->
        Validator.validateEntries P D distDir pre r0 = (t1, Resolved r1) ->
        Validator.validateEntries P D distDir (pre ++ (url, h) :: post)%list r0
        = let '(t2, rest) :=
            Validator.validateEntries P D distDir post
              (Validator.incMissing (Validator.notFound url h)
                 (Validator.incTotal r1)) in
          ((t1 ++ t2)%list, rest))
    /\ (forall r0 t1 r1,
          BuildValidator.validateEntries P D distDir pre r0 = (t1, Resolved r1) ->
          BuildValidator.validateEntries P D distDir (pre ++ (url, h) :: post)%list r0
          = let '(t2, rest) :=
              BuildValidator.validateEntries P D distDir post
                (BuildValidator.incMissing (BuildValidator.notFound url h)
                   (BuildValidator.incTotal r1)) in
            ((t1 ++ t2)%list, rest)).
Proof.
  intros P D distDir pre post url h fullPath Hp Hf. split.
  - intros r0 t1 r1 Hs Hpre.
    unfold Validator.validateEntries in *.
    rewrite forEach_app, Hpre. unfold bind at 1. cbn [forEach].
    rewrite (next_entry_missing P D distDir url h fullPath r1 Hs Hp Hf).
    rewrite bind_ret_l. reflexivity.
  - intros r0 t1 r1 Hpre.
    unfold BuildValidator.validateEntries in *.
    rewrite forEach_app, Hpre. unfold bind at 1. cbn [forEach].
    rewrite (build_entry_missing P D distDir url h fullPath r1 Hp Hf).
    rewrite bind_ret_l. reflexivity.
Qed.

Lemma missing_file_is_counted_witness :
  Validator.validateEntries Reference.platform Examples.partialDisk ".next"
    [("/a.js", Examples.digestA); ("/gone.js", Examples.digestB);
     ("/lib/b.js", Examples.digestB)] Validator.initial
  = ([EvRead ".next/a.js"; EvDigest "sha384" Examples.moduleA;
      EvRead ".next/lib/b.js"; EvDigest "sha384" Examples.moduleB],
     Resolved {| Validator.total := 3; Validator.passed := 2;
                 Validator.failed := 0; Validator.missing := 1;
                 Validator.failures :=
                   [Validator.notFound "/gone.js" Examples.digestB];
                 Validator.success := false |})
  /\ BuildValidator.validateEntries Reference.platform Examples.partialDisk
       "dist"
       [("/a.js", Examples.digestA); ("/gone.js", Examples.digestB);
        ("/lib/b.js", Examples.digestB)] BuildValidator.initial
     = ([EvRead "dist/a.js"; EvDigest "sha384" Examples.moduleA;
         EvRead "dist/lib/b.js"; EvDigest "sha384" Examples.moduleB],
        Resolved {| BuildValidator.total := 3; BuildValidator.passed := 2;
                    BuildValidator.failed := 0; BuildValidator.missing := 1;
                    BuildValidator.failures :=
                      [BuildValidator.notFound "/gone.js" Examples.digestB] |}).
Proof.
  split.
  - destruct (missing_file_is_counted Reference.platform Examples.partialDisk
                ".next" [("/a.js", Examples.digestA)]
                [("/lib/b.js", Examples.digestB)]
                "/gone.js" Examples.digestB ".next/gone.js" eq_refl eq_refl)
      as [Hnext _].
    change [("/a.js", Examples.digestA); ("/gone.js", Examples.digestB);
            ("/lib/b.js", Examples.digestB)]
      with ([("/a.js", Examples.digestA)]
              ++ ("/gone.js", Examples.digestB)
              :: [("/lib/b.js", Examples.digestB)])%list.
    rewrite (Hnext Validator.initial
               [EvRead ".next/a.js"; EvDigest "sha384" Examples.moduleA]
               (Validator.incPassed (Validator.incTotal Validator.initial)));
      vm_compute; reflexivity.
  - destruct (missing_file_is_counted Reference.platform Examples.partialDisk
                "dist" [("/a.js", Examples.digestA)]
                [("/lib/b.js", Examples.digestB)]
                "/gone.js" Examples.digestB "dist/gone.js" eq_refl eq_refl)
      as [_ Hbuild].
    change [("/a.js", Examples.digestA); ("/gone.js", Examples.digestB);
            ("/lib/b.js", Examples.digestB)]
      with ([("/a.js", Examples.digestA)]
              ++ ("/gone.js", Examples.digestB)
              :: [("/lib/b.js", Examples.digestB)])%list.
    rewrite (Hbuild BuildValidator.initial
               [EvRead "dist/a.js"; EvDigest "sha384" Examples.moduleA]
               (BuildValidator.incPassed
                  (BuildValidator.incTotal BuildValidator.initial)));
      vm_compute; reflexivity.
Defined.

(** C6 as stated fails in [validateNextJSBuildIntegrity]: the entry's path
    [.next/gone.js] does not exist, yet [missing] stays at zero and the
    failure recorded for the URL carries the unsupported-algorithm reason,
    not a not-found one. *)
Lemma missing_file_counterexample :
  fullPathOf Reference.platform ".next" "/gone.js" = ret ".next/gone.js"
  /\ file Examples.foreignMissingDisk ".next/gone.js" = None
  /\ Validator.validateNextJSBuildIntegrity Reference.platform
       Examples.foreignMissingDisk Examples.defaults
     = ([EvRead ".next/importmap.json"],
        Resolved {| Validator.total := 1; Validator.passed := 0;
                    Validator.failed := 1; Validator.missing := 0;
                    Validator.failures :=
                      [{| failure_url := "/gone.js";
                          failure_expected := Examples.digestA256;
                          failure_actual := None;
                          failure_error :=
                            Some "Unsupported hash algorithm. Only SHA-384 is supported." |}];
                    Validator.success := false |}).
Proof.
  repeat split; vm_compute; reflexivity.
Qed.

(** ** Counters of the batch validator *)

Lemma validator_loop_balanced (P : Platform) (D : Disk) (distDir : string)
      (entries : ImportMapEntry) (t : list event) (r : Validator.Results) :
  Validator.validateEntries P D distDir entries Validator.initial
  = (t, Resolved r) ->
  Validator.balanced r /\ Validator.success r = false.
Proof.
  intros H. unfold Validator.validateEntries in H.
  refine (forEach_invariant (Validator.validateEntry P D distDir)
            (fun r => Validator.balanced r /\ Validator.success r = false)
            _ entries Validator.initial t r _ H).
  - intros s e t0 s' [Hb Hs] Hstep. split.
    + eapply next_entry_balanced; eassumption.
    + destruct e as [url h]. unfold Validator.validateEntry in Hstep.
      destruct (negb (Js.startsWith (Validator.algorithm ++ "-") h)).
      * injection Hstep as _ <-. exact Hs.
      * destruct (fullPathOf_cases P distDir url) as [[fp Hp]|Hp];
          rewrite Hp in Hstep; [|discriminate Hstep].
        rewrite bind_ret_l in Hstep.
        destruct (file D fp) as [content|]; [|injection Hstep as _ <-; exact Hs].
        destruct (createHash P Validator.algorithm) as [hash|];
          [|discriminate Hstep].
        revert Hstep. run.
        destruct (String.eqb _ h); intros Hstep; injection Hstep as _ <-;
          exact Hs.
  - split; [split; reflexivity | reflexivity].
Qed.

(** C10.  When [validateNextJSBuildIntegrity] settles with a result, every
    entry was counted exactly once ([total = passed + failed + missing]),
    [failures] holds one record per failed or missing entry, and [success]
    is set exactly when [failures] is empty, that is when [failed] and
    [missing] are both zero. *)
Theorem validator_counters_balance :
  forall (P : Platform) (D : Disk) (config : Validator.ValidatorConfig)
         (t : list event) (r : Validator.Results),
    Validator.validateNextJSBuildIntegrity P D config = (t, Resolved r) ->
    Validator.total r
    = Validator.passed r + Validator.failed r + Validator.missing r
    /\ length (Validator.failures r)
       = Validator.failed r + Validator.missing r
    /\ (Validator.success r = true <-> Validator.failures r = [])
    /\ (Validator.failures r = []
        <-> Validator.failed r = 0 /\ Validator.missing r = 0).
Proof.
  intros P D config t r H.
  unfold Validator.validateNextJSBuildIntegrity in H.
  destruct (file D _) as [content|]; [|discriminate H].
  destruct (json D _) as [m|]; [|discriminate H].
  destruct (integrity m) as [[|entry table]|]; try discriminate H.
  destruct (Validator.validateEntries P D _ (entry :: table) Validator.initial)
    as [t0 [r0|err]] eqn:Hloop; [|discriminate H].
  destruct (validator_loop_balanced P D _ _ _ _ Hloop) as [[Htotal Hlen] _].
  revert H. run.
  destruct (Validator.failures r0) as [|f fs] eqn:Hf;
    simpl in Hlen;
    intros H; injection H as _ <-; simpl; rewrite Hf; simpl;
    intuition (try lia; try discriminate; auto).
Qed.

Lemma validator_counters_balance_witness :
  let r := {| Validator.total := 3; Validator.passed := 2;
              Validator.failed := 0; Validator.missing := 1;
              Validator.failures :=
                [Validator.notFound "/gone.js" Examples.digestB];
              Validator.success := false |} in
  Validator.validateNextJSBuildIntegrity Reference.platform
    Examples.partialDisk Examples.defaults
  = ([EvRead ".next/importmap.json";
      EvRead ".next/a.js"; EvDigest "sha384" Examples.moduleA;
      EvRead ".next/lib/b.js"; EvDigest "sha384" Examples.moduleB],
     Resolved r)
  /\ Validator.total r
     = Validator.passed r + Validator.failed r + Validator.missing r
  /\ length (Validator.failures r)
     = Validator.failed r + Validator.missing r
  /\ (Validator.success r = true <-> Validator.failures r = [])
  /\ (Validator.failures r = []
      <-> Validator.failed r = 0 /\ Validator.missing r = 0).
Proof.
  intros r.
  assert (Hrun : Validator.validateNextJSBuildIntegrity Reference.platform
                   Examples.partialDisk Examples.defaults
                 = ([EvRead ".next/importmap.json";
                     EvRead ".next/a.js"; EvDigest "sha384" Examples.moduleA;
                     EvRead ".next/lib/b.js";
                     EvDigest "sha384" Examples.moduleB], Resolved r))
    by (vm_compute; reflexivity).
  split; [exact Hrun|].
  exact (validator_counters_balance Reference.platform Examples.partialDisk
           Examples.defaults _ r Hrun).
Defined.

(** ** The generator's loop *)

Section GeneratorFacts.
Context (P : Platform) (baseUrl : string).

Lemma generator_digest (content : string) :
  Generator.calculateIntegrity P content
  = ([EvDigest "sha384" content],
     Resolved ("sha384-" ++ Base64.encode (sha384 P content))).
Proof.
  unfold Generator.calculateIntegrity. now rewrite (createHash_sha384 P).
Qed.

Lemma generateLoop_step (modulePath content : string)
      (rest : list (string * string)) (imp integ : ImportMapEntry) :
  Generator.generateLoop P baseUrl ((modulePath, content) :: rest) imp integ
  = let '(t, tables) :=
      Generator.generateLoop P baseUrl rest
        (Obj.set (Generator.specifierOf P modulePath)
                 (Generator.urlOf P baseUrl modulePath) imp)
        (Obj.set (Generator.urlOf P baseUrl modulePath)
                 ("sha384-" ++ Base64.encode (sha384 P content)) integ) in
    (EvDigest "sha384" content :: t, tables).
Proof.
  cbn [Generator.generateLoop]. rewrite generator_digest. reflexivity.
Qed.

(** What the loop leaves in the two tables, whatever the keys. *)
Lemma generateLoop_spec (entries : list (string * string)) :
  forall imp integ,
  exists t imp' integ',
    Generator.generateLoop P baseUrl entries imp integ
    = (t, Resolved (imp', integ'))
    /\ (forall k v, In (k, v) integ' ->
          In (k, v) integ
          \/ exists p c, In (p, c) entries
                         /\ k = Generator.urlOf P baseUrl p
                         /\ v = "sha384-" ++ Base64.encode (sha384 P c))
    /\ (forall k, Obj.has k imp = true -> Obj.has k imp' = true)
    /\ (forall k, Obj.has k integ = true -> Obj.has k integ' = true)
    /\ (forall p c, In (p, c) entries ->
          Obj.has (Generator.specifierOf P p) imp' = true
          /\ Obj.has (Generator.urlOf P baseUrl p) integ' = true)
    /\ length imp <= length imp' <= length imp + length entries
    /\ length integ <= length integ' <= length integ + length entries.
Proof.
  induction entries as [|[p c] rest IH]; intros imp integ.
  - exists [], imp, integ. simpl.
    repeat split; try lia; tauto.
  - rewrite generateLoop_step.
    destruct (IH (Obj.set (Generator.specifierOf P p)
                          (Generator.urlOf P baseUrl p) imp)
                 (Obj.set (Generator.urlOf P baseUrl p)
                          ("sha384-" ++ Base64.encode (sha384 P c)) integ))
      as (t & imp' & integ' & Hrun & Hfrom & Himp & Hinteg & Hall & Hl1 & Hl2).
    rewrite Hrun. exists (EvDigest "sha384" c :: t), imp', integ'.
    split; [reflexivity|]. split; [|split; [|split; [|split; [|split]]]].
    + intros k v Hin. destruct (Hfrom k v Hin) as [Hset|(p' & c' & Hp & Hk & Hv)].
      * destruct (set_In _ _ _ _ _ Hset) as [Heq|Hold]; [|now left].
        injection Heq as -> ->. right. exists p, c.
        repeat split. now left.
      * right. exists p', c'. repeat split; try assumption. now right.
    + intros k Hk. apply Himp. now apply has_set_other.
    + intros k Hk. apply Hinteg. now apply has_set_other.
    + intros p' c' [Heq|Hin].
      * injection Heq as <- <-. split; [apply Himp | apply Hinteg];
          apply has_set.
      * exact (Hall p' c' Hin).
    + pose proof (set_length (Generator.specifierOf P p)
                    (Generator.urlOf P baseUrl p) imp). simpl. lia.
    + pose proof (set_length (Generator.urlOf P baseUrl p)
                    ("sha384-" ++ Base64.encode (sha384 P c)) integ).
      simpl. lia.
Qed.

End GeneratorFacts.

(** ** Generation *)






(** ** POSIX paths of plain names *)

Lemma segments_not_nil (s : string) : Posix.segments s <> [].
Proof.
  destruct s as [|c s]; simpl; [discriminate|].
  destruct (Ascii.eqb c "/"); [discriminate|].
  destruct (Posix.segments s); discriminate.
Qed.

Lemma concat_segments (s : string) :
  String.concat "/" (Posix.segments s) = s.
Proof.
  induction s as [|c s IH]; [reflexivity|].
  cbn [Posix.segments].
  destruct (Ascii.eqb_spec c "/"%char) as [->|Hc].
  - pose proof (segments_not_nil s) as Hne.
    destruct (Posix.segments s) as [|seg more]; [contradiction|].
    change (String.concat "/" ("" :: seg :: more))
      with ("" ++ "/" ++ String.concat "/" (seg :: more)).
    rewrite IH. reflexivity.
  - pose proof (segments_not_nil s) as Hne.
    destruct (Posix.segments s) as [|seg more]; [contradiction|].
    destruct more as [|seg' more'].
    + cbn in IH. subst seg. reflexivity.
    + change (String.concat "/" (String c seg :: seg' :: more'))
        with (String c (seg ++ "/" ++ String.concat "/" (seg' :: more'))).
      change (String.concat "/" (seg :: seg' :: more'))
        with (seg ++ "/" ++ String.concat "/" (seg' :: more')) in IH.
      now rewrite IH.
Qed.

Lemma resolveDots_proper (allowAboveRoot : bool) (segs kept : list string) :
  forallb Posix.properName segs = true ->
  Posix.resolveDots allowAboveRoot kept segs = (rev kept ++ segs)%list.
Proof.
  revert kept; induction segs as [|seg rest IH]; intros kept H.
  - simpl. now rewrite app_nil_r.
  - simpl in H. apply andb_prop in H as [Hseg Hrest].
    unfold Posix.properName in Hseg.
    apply andb_prop in Hseg as [Hseg H2]. apply andb_prop in Hseg as [H0 H1].
    cbn [Posix.resolveDots].
    apply negb_true_iff in H0, H1, H2. rewrite H0, H1, H2. cbn [orb].
    rewrite (IH (seg :: kept) Hrest). cbn [rev]. now rewrite <- app_assoc.
Qed.

Lemma endsWithSlash_last (s : string) :
  Posix.endsWithSlash s = true -> last (Posix.segments s) "x" = "".
Proof.
  induction s as [|c s IH]; [discriminate|].
  destruct s as [|d s'].
  - cbn. intros H. rewrite H. reflexivity.
  - intros H. change (Posix.endsWithSlash (String d s') = true) in H.
    specialize (IH H).
    pose proof (concat_segments (String d s')) as Hcat.
    cbn [Posix.segments] in *.
    destruct (Ascii.eqb c "/").
    + destruct (if Ascii.eqb d "/" then _ else _) as [|seg more] eqn:E;
        [discriminate IH|]. exact IH.
    + destruct (if Ascii.eqb d "/" then _ else _) as [|seg more] eqn:E;
        [discriminate IH|].
      destruct more as [|seg' more'].
      * cbn in IH, Hcat. subst seg. discriminate Hcat.
      * exact IH.
Qed.

Lemma forallb_last {A : Type} (f : A -> bool) (l : list A) (d : A) :
  l <> [] -> forallb f l = true -> f (last l d) = true.
Proof.
  induction l as [|x l IH]; [contradiction|]. intros _ H.
  simpl in H. apply andb_prop in H as [Hx Hl].
  destruct l as [|y l']; [exact Hx|]. apply IH; [discriminate | exact Hl].
Qed.

Section PlainPaths.
Context (path : string) (Hplain : Posix.plain path = true).

Lemma plain_segments : forallb Posix.properName (Posix.segments path) = true.
Proof. unfold Posix.plain in Hplain. now apply andb_prop in Hplain. Qed.

Lemma plain_no_backslash : Js.mentions "\"%char path = false.
Proof.
  unfold Posix.plain in Hplain. apply andb_prop in Hplain as [_ H].
  now apply negb_true_iff in H.
Qed.

Lemma plain_not_empty : String.eqb path "" = false.
Proof.
  pose proof plain_segments as H.
  destruct path; [discriminate H | reflexivity].
Qed.

Lemma plain_relative : Js.startsWith "/" path = false.
Proof.
  pose proof plain_segments as H.
  destruct path as [|c rest]; [reflexivity|].
  cbn [Posix.segments] in H.
  destruct (Ascii.eqb_spec c "/"%char) as [->|Hc]; [discriminate H|].
  unfold Js.startsWith. cbn [String.prefix].
  destruct (Ascii.ascii_dec "/" c); [congruence | reflexivity].
Qed.

Lemma plain_no_trailing_slash : Posix.endsWithSlash path = false.
Proof.
  destruct (Posix.endsWithSlash path) eqn:E; [|reflexivity].
  pose proof (forallb_last _ _ "x" (segments_not_nil path) plain_segments) as H.
  rewrite (endsWithSlash_last _ E) in H. discriminate H.
Qed.

Lemma plain_keeps_slashes : Js.backslashesToSlashes path = path.
Proof.
  pose proof plain_no_backslash as H. clear Hplain.
  induction path as [|c rest IH]; [reflexivity|].
  simpl in *. apply orb_false_iff in H as [Hc Hrest].
  now rewrite Hc, (IH Hrest).
Qed.
End PlainPaths.

(** ** Round trip *)

Section RoundTripFacts.
Context (P : Platform) (D : Disk) (distDir : string).

(** Entries whose files hold the content their digest was computed from
    all pass. *)
Lemma validateEntries_all_pass (entries : ImportMapEntry) :
  (forall url h, In (url, h) entries ->
     exists content fullPath,
       h = "sha384-" ++ Base64.encode (sha384 P content)
       /\ fullPathOf P distDir url = ret fullPath
       /\ file D fullPath = Some content) ->
  forall r, exists t,
    Validator.validateEntries P D distDir entries r
    = (t, Resolved {| Validator.total := Validator.total r + length entries;
                      Validator.passed := Validator.passed r + length entries;
                      Validator.failed := Validator.failed r;
                      Validator.missing := Validator.missing r;
                      Validator.failures := Validator.failures r;
                      Validator.success := Validator.success r |}).
Proof.
  unfold Validator.validateEntries.
  induction entries as [|[url h] rest IH]; intros Hall r.
  - exists []. destruct r. simpl. rewrite !Nat.add_0_r. reflexivity.
  - destruct (Hall url h (or_introl eq_refl)) as (content & fp & -> & Hp & Hf).
    cbn [forEach].
    rewrite (next_entry_present P D distDir url _ fp content r
               (prefix_app "sha384-" _) Hp Hf).
    rewrite String.eqb_refl.
    destruct (IH (fun u k Hin => Hall u k (or_intror Hin))
                 (Validator.incPassed (Validator.incTotal r))) as [t Ht].
    unfold bind. rewrite Ht. eexists. f_equal. f_equal.
    simpl. f_equal; lia.
Qed.

(** The loop settles with a result unless [new URL] throws on a key. *)
Lemma validateEntries_settles (entries : ImportMapEntry) :
  (forall url h, In (url, h) entries -> Js.startsWith "sha384-" h = true ->
                 exists fullPath, fullPathOf P distDir url = ret fullPath) ->
  forall r, exists t r',
    Validator.validateEntries P D distDir entries r = (t, Resolved r').
Proof.
  intros Hok. apply forEach_total. intros s [url h] Hin.
  destruct (Js.startsWith "sha384-" h) eqn:Hs.
  - destruct (Hok url h Hin Hs) as [fp Hp].
    destruct (file D fp) as [content|] eqn:Hf.
    + rewrite (next_entry_present P D distDir url h fp content s Hs Hp Hf).
      eexists. eexists. reflexivity.
    + rewrite (next_entry_missing P D distDir url h fp s Hs Hp Hf).
      eexists. eexists. reflexivity.
  - rewrite (next_entry_foreign P D distDir url h s Hs).
    eexists. eexists. reflexivity.
Qed.
End RoundTripFacts.

(** The round trip under its layout condition, for any platform. *)
Lemma round_trip_layout (P : Platform) (D : Disk)
      (modules : list (string * string)) (baseUrl : string)
      (config : Validator.ValidatorConfig) (m : ImportMap) (mapText : string) :
  let dist := Js.orElse (Validator.distDir config) ".next" in
  let mapPath :=
    path_join P dist (Js.orElse (Validator.importMapPath config)
                                "importmap.json") in
  settled (Generator.generateImportMapWithIntegrity P modules baseUrl)
  = Resolved m ->
  file D mapPath = Some mapText ->
  json D mapPath = Some m ->
  (forall p c, In (p, c) modules ->
     exists fullPath,
       fullPathOf P dist (Generator.urlOf P baseUrl p) = ret fullPath
       /\ file D fullPath = Some c) ->
  exists t r table,
    Validator.validateNextJSBuildIntegrity P D config = (t, Resolved r)
    /\ integrity m = Some table
    /\ table <> []
    /\ Validator.allPassed (length table) r.
Proof.
  intros dist mapPath Hgen Hfile Hjson Hdisk.
  destruct modules as [|[p0 c0] rest]; [discriminate Hgen|].
  destruct (generateLoop_spec P baseUrl ((p0, c0) :: rest) [] [])
    as (tg & imp & integ & Hrun & Hfrom & _ & _ & Hall & _ & _).
  assert (Hm : m = {| imports := Some imp; scopes := None;
                      integrity := Some integ |}).
  { revert Hgen.
    unfold Generator.generateImportMapWithIntegrity, Generator.invariant.
    change (Nat.ltb 0 (length (Obj.keys ((p0, c0) :: rest)))) with true.
    run. rewrite Hrun. run. unfold settled. cbn [snd]. congruence. }
  subst m.
  assert (Hne : integ <> []).
  { destruct (Hall p0 c0 (or_introl eq_refl)) as [_ Hg].
    intros ->. discriminate Hg. }
  destruct (validateEntries_all_pass P D dist integ) with (r := Validator.initial)
    as [t Hloop].
  { intros url h Hin.
    destruct (Hfrom url h Hin) as [[]|(p & c & Hp & -> & ->)].
    destruct (Hdisk p c Hp) as (fp & Hfp & Hc).
    exists c, fp. repeat split; assumption. }
  unfold Validator.validateNextJSBuildIntegrity.
  fold dist. fold mapPath. rewrite Hfile, Hjson. cbn [integrity].
  destruct integ as [|entry table]; [contradiction|].
  run. rewrite Hloop. cbn [Validator.failures Validator.initial length Nat.ltb Nat.leb].
  eexists. eexists. exists (entry :: table).
  split; [reflexivity|]. split; [reflexivity|]. split; [exact Hne|].
  unfold Validator.allPassed. cbn. repeat split; reflexivity.
Qed.

Section InPlace.
Context (path : string) (Hplain : Posix.plain path = true).

Lemma normalize_rooted_plain :
  Posix.normalize (String "/" (String "/" (String "/" path))) = String "/" path.
Proof.
  assert (Habs : Js.startsWith "/" (String "/" (String "/" (String "/" path)))
                 = true)
    by exact (prefix_app "/" (String "/" (String "/" path))).
  assert (Htrail : Posix.endsWithSlash (String "/" (String "/" (String "/" path)))
                   = false).
  { rewrite <- (plain_no_trailing_slash path Hplain).
    pose proof (plain_not_empty path Hplain) as Hne.
    destruct path; [discriminate Hne | reflexivity]. }
  unfold Posix.normalize. cbv zeta. rewrite Habs, Htrail.
  change (String.eqb (String "/" (String "/" (String "/" path))) "") with false.
  change (Posix.segments (String "/" (String "/" (String "/" path))))
    with ("" :: "" :: "" :: Posix.segments path).
  change (Posix.resolveDots (negb true) [] ("" :: "" :: "" :: Posix.segments path))
    with (Posix.resolveDots false [] (Posix.segments path)).
  rewrite (resolveDots_proper false _ [] (plain_segments path Hplain)).
  cbn [rev app]. rewrite concat_segments, (plain_not_empty path Hplain).
  reflexivity.
Qed.

Lemma normalize_dotted_plain :
  Posix.normalize (String "." (String "/" path)) = path.
Proof.
  assert (Hrel : Js.startsWith "/" (String "." (String "/" path)) = false).
  { unfold Js.startsWith. cbn [String.prefix].
    destruct (Ascii.ascii_dec "/" "."); [discriminate | reflexivity]. }
  assert (Htrail : Posix.endsWithSlash (String "." (String "/" path)) = false).
  { rewrite <- (plain_no_trailing_slash path Hplain).
    pose proof (plain_not_empty path Hplain) as Hne.
    destruct path; [discriminate Hne | reflexivity]. }
  unfold Posix.normalize. cbv zeta. rewrite Hrel, Htrail.
  change (String.eqb (String "." (String "/" path)) "") with false.
  change (Posix.segments (String "." (String "/" path)))
    with ("." :: Posix.segments path).
  change (Posix.resolveDots (negb false) [] ("." :: Posix.segments path))
    with (Posix.resolveDots true [] (Posix.segments path)).
  rewrite (resolveDots_proper true _ [] (plain_segments path Hplain)).
  cbn [rev app]. rewrite concat_segments, (plain_not_empty path Hplain).
  reflexivity.
Qed.

Lemma urlOf_rooted_plain :
  Generator.urlOf Reference.platform "/" path = String "/" path.
Proof.
  unfold Generator.urlOf, Generator.normalizedPath.
  rewrite (plain_relative path Hplain).
  change (path_join Reference.platform "/" ("/" ++ path))
    with (Posix.normalize (String "/" (String "/" (String "/" path)))).
  rewrite normalize_rooted_plain.
  change (Js.backslashesToSlashes (String "/" path))
    with (String "/" (Js.backslashesToSlashes path)).
  now rewrite (plain_keeps_slashes path Hplain).
Qed.

Lemma fullPathOf_in_place :
  fullPathOf Reference.platform "." (String "/" path) = ret path.
Proof.
  unfold fullPathOf, filePathOf.
  change (Js.startsWith "/" (String "/" path))
    with (String.prefix "/" ("/" ++ path)).
  rewrite prefix_app. rewrite bind_ret_l.
  change (path_join Reference.platform "." (Js.substring1 (String "/" path)))
    with (Posix.join "." path).
  unfold Posix.join. change (String.eqb "." "") with false.
  rewrite (plain_not_empty path Hplain).
  change ("." ++ "/" ++ path) with (String "." (String "/" path)).
  now rewrite normalize_dotted_plain.
Qed.
End InPlace.

(** C7, as the code has it.  The round trip holds under a condition on
    the layout, not for every directory.  Take the map the generator
    settles with for a set of modules (none with the specifier or the URL
    [__proto__], to which an assignment adds no entry), put it where the
    validator reads its import map, and let every module's content lie at
    the path the validator derives from the module's generated URL.  Then
    [validateNextJSBuildIntegrity] settles with a result in which nothing
    failed and nothing is missing: every integrity entry passed.  With
    POSIX paths the condition is met by a directory of plainly named files
    whose map is generated under base URL ["/"] from the paths relative to
    the directory and stored there as [importmap.json]: it validates in
    place with every entry passed. *)
Theorem generate_then_validate :
  (forall (P : Platform) (D : Disk) (modules : list (string * string))
          (baseUrl : string) (config : Validator.ValidatorConfig)
          (m : ImportMap) (mapText : string),
      let dist := Js.orElse (Validator.distDir config) ".next" in
      let mapPath :=
        path_join P dist (Js.orElse (Validator.importMapPath config)
                                    "importmap.json") in
      (forall p c, In (p, c) modules ->
         Generator.specifierOf P p <> "__proto__"
         /\ Generator.urlOf P baseUrl p <> "__proto__") ->
      settled (Generator.generateImportMapWithIntegrity P modules baseUrl)
      = Resolved m ->
      file D mapPath = Some mapText ->
      json D mapPath = Some m ->
      (forall p c, In (p, c) modules ->
         exists fullPath,
           fullPathOf P dist (Generator.urlOf P baseUrl p) = ret fullPath
           /\ file D fullPath = Some c) ->
      exists t r table,
        Validator.validateNextJSBuildIntegrity P D config = (t, Resolved r)
        /\ integrity m = Some table
        /\ table <> []
        /\ Validator.allPassed (length table) r)
  /\ (forall (D : Disk) (modules : list (string * string))
             (m : ImportMap) (mapText : string),
        (forall p c, In (p, c) modules ->
                     Posix.plain p = true /\ file D p = Some c
                     /\ Generator.specifierOf Reference.platform p
                        <> "__proto__") ->
        settled (Generator.generateImportMapWithIntegrity Reference.platform
                   modules "/") = Resolved m ->
        file D "importmap.json" = Some mapText ->
        json D "importmap.json" = Some m ->
        exists t r table,
          Validator.validateNextJSBuildIntegrity Reference.platform D
            {| Validator.distDir := Some "."; Validator.importMapPath := None |}
          = (t, Resolved r)
          /\ integrity m = Some table
          /\ table <> []
          /\ Validator.allPassed (length table) r).
Proof.
  split.
  - intros P D modules baseUrl config m mapText dist mapPath _.
    exact (round_trip_layout P D modules baseUrl config m mapText).
  - intros D modules m mapText Hdir Hgen Hfile Hjson.
    apply (round_trip_layout Reference.platform D modules "/"
             {| Validator.distDir := Some ".";
                Validator.importMapPath := None |} m mapText Hgen Hfile Hjson).
    intros p c Hin. destruct (Hdir p c Hin) as (Hplain & Hc & _).
    exists p. split; [|exact Hc].
    rewrite (urlOf_rooted_plain p Hplain).
    exact (fullPathOf_in_place p Hplain).
Qed.

Lemma generate_then_validate_witness :
  (exists t,
      Validator.validateNextJSBuildIntegrity Reference.platform
        Examples.sourceDisk Examples.inPlace
      = (t, Resolved {| Validator.total := 2; Validator.passed := 2;
                        Validator.failed := 0; Validator.missing := 0;
                        Validator.failures := [];
                        Validator.success := true |}))
  /\ (exists t r,
        Validator.validateNextJSBuildIntegrity Reference.platform
          Samples.builtDisk Examples.defaults = (t, Resolved r)
        /\ Validator.allPassed 2 r).
Proof.
  destruct generate_then_validate as [Hlayout Hplace].
  split.
  - destruct (Hplace Examples.sourceDisk Examples.sources Examples.generatedMap
                Examples.jsonText)
      as (t & r & table & Hrun & Htable & _ & Hall).
    + intros p c Hin. simpl in Hin.
      destruct Hin as [H|[H|[]]]; injection H as <- <-;
        (split; [reflexivity|]); (split; [reflexivity|]);
        vm_compute; discriminate.
    + vm_compute. reflexivity.
    + reflexivity.
    + reflexivity.
    + exists t. unfold Examples.inPlace. rewrite Hrun. f_equal. f_equal.
      injection Htable as <-.
      destruct Hall as (H1 & H2 & H3 & H4 & H5 & H6).
      destruct r as [tot pas fai mis fls suc]. simpl in *.
      subst. reflexivity.
  - destruct (Hlayout Reference.platform Samples.builtDisk Examples.sources "/"
                Examples.defaults Examples.generatedMap Examples.jsonText)
      as (t & r & table & Hrun & Htable & _ & Hall).
    + intros p c Hin. simpl in Hin.
      destruct Hin as [H|[H|[]]]; injection H as <- <-;
        split; vm_compute; discriminate.
    + vm_compute. reflexivity.
    + reflexivity.
    + reflexivity.
    + intros p c Hin. simpl in Hin.
      destruct Hin as [H|[H|[]]]; injection H as <- <-;
        eexists; split; vm_compute; reflexivity.
    + exists t, r. split; [exact Hrun|].
      injection Htable as <-. exact Hall.
Defined.

(** C7 as stated fails for a directory that is not the working directory.
    The scanner keys each module by its path relative to the working
    directory, so the scan of [dist] names its module [dist/a.js] and the
    generator gives it the URL [/dist/a.js]; the validator run on [dist]
    with that map looks for [dist/dist/a.js] and counts the entry as
    missing, although nothing was modified. *)
Lemma generate_then_validate_counterexample :
  Scanner.readModulesFromDirectories Reference.platform Samples.distDisk
    Samples.distRoot Samples.sameRelative ["dist"] [".js"; ".mjs"]
  = ([EvRead "dist/a.js"], Resolved [("dist/a.js", Examples.moduleA)])
  /\ Generator.generateImportMapWithIntegrity Reference.platform
       [("dist/a.js", Examples.moduleA)] "/"
     = ([EvDigest "sha384" Examples.moduleA], Resolved Samples.distMap)
  /\ json Samples.distDisk "dist/importmap.json" = Some Samples.distMap
  /\ Validator.validateNextJSBuildIntegrity Reference.platform
       Samples.distDisk
       {| Validator.distDir := Some "dist"; Validator.importMapPath := None |}
     = ([EvRead "dist/importmap.json"],
        Resolved {| Validator.total := 1; Validator.passed := 0;
                    Validator.failed := 0; Validator.missing := 1;
                    Validator.failures :=
                      [Validator.notFound "/dist/a.js" Examples.digestA];
                    Validator.success := false |}).
Proof.
  repeat split; vm_compute; reflexivity.
Qed.

(** ** Supporting facts: settling, and the earlier client on WebCrypto names *)

(** [validateNextJSBuildIntegrity] settles with a result whenever the
    import map is present with a non-empty integrity table and [new URL]
    accepts every key it is asked to parse. *)
Lemma validator_settles (P : Platform) (D : Disk)
      (config : Validator.ValidatorConfig) (m : ImportMap)
      (mapText : string) (table : ImportMapEntry) :
  let dist := Js.orElse (Validator.distDir config) ".next" in
  let mapPath :=
    path_join P dist (Js.orElse (Validator.importMapPath config)
                                "importmap.json") in
  file D mapPath = Some mapText ->
  json D mapPath = Some m ->
  integrity m = Some table -> table <> [] ->
  (forall url h, In (url, h) table -> Js.startsWith "sha384-" h = true ->
                 exists fullPath, fullPathOf P dist url = ret fullPath) ->
  exists t r, Validator.validateNextJSBuildIntegrity P D config = (t, Resolved r).
Proof.
  intros dist mapPath Hfile Hjson Hint Hne Hurls.
  unfold Validator.validateNextJSBuildIntegrity.
  fold dist. fold mapPath. rewrite Hfile, Hjson, Hint.
  destruct table as [|entry rest]; [contradiction|].
  destruct (validateEntries_settles P D dist (entry :: rest) Hurls
              Validator.initial) as (t & r & Hloop).
  run. rewrite Hloop.
  destruct (Nat.ltb 0 (length (Validator.failures r)));
    eexists; eexists; reflexivity.
Qed.

Lemma upperChar_dash (c : ascii) :
  Ascii.eqb (Js.upperChar c) "-" = Ascii.eqb c "-".
Proof.
  destruct c as [[] [] [] [] [] [] [] []]; reflexivity.
Qed.

Lemma mentions_toUpperCase (s : string) :
  Js.mentions "-" (Js.toUpperCase s) = Js.mentions "-" s.
Proof.
  induction s as [|c s IH]; simpl; [reflexivity|].
  now rewrite upperChar_dash, IH.
Qed.

Lemma mentions_splitHead (s : string) :
  Js.mentions "-" (Js.splitHead "-" s) = false.
Proof.
  induction s as [|c s IH]; simpl; [reflexivity|].
  destruct (Ascii.eqb c "-") eqn:E; simpl; [reflexivity|].
  now rewrite E, IH.
Qed.

Lemma dash_free_differs (s t : string) :
  Js.mentions "-" s = false -> Js.mentions "-" t = true -> String.eqb s t = false.
Proof.
  intros Hs Ht. destruct (String.eqb_spec s t) as [->|]; [|reflexivity].
  rewrite Ht in Hs. discriminate.
Qed.

Lemma webcrypto_names_have_a_dash (name : string) :
  Js.mentions "-" name = false -> Reference.webSubtleDigest name = None.
Proof.
  intros H. unfold Reference.webSubtleDigest.
  rewrite <- mentions_toUpperCase in H.
  rewrite !(dash_free_differs _ _ H); reflexivity.
Qed.

(** On the reference platform the earlier client never accepts a module it
    checks: the tag of a digest has no dash, so its upper-cased form is not
    a WebCrypto algorithm name and the recomputation throws. *)
Lemma legacy_reference_rejects (W : Browser) (m : ImportMap)
      (url : Js.value) (h : string) :
  importMapScript W = Some m ->
  Client.expectedIntegrity W m url = Js.Str h -> h <> "" ->
  settled (ClientLegacy.verifyIntegrity Reference.platform W url)
  = Resolved false.
Proof.
  intros Hm He Hne.
  rewrite (legacy_verify_run Reference.platform W m url h Hm He Hne).
  destruct (fetch W (textOf W url)) as [response|]; [|reflexivity].
  destruct (negb (ok response) || negb (hasWindow W)); [reflexivity|].
  change (subtleDigest Reference.platform) with Reference.webSubtleDigest.
  rewrite webcrypto_names_have_a_dash; [reflexivity|].
  rewrite mentions_toUpperCase. apply mentions_splitHead.
Qed.

(** * Further properties *)

(** ** Tables *)

Lemma get_set_same {V : Type} (k : string) (v : V) (o : list (string * V)) :
  Obj.get k (Obj.set k v o) = Some v.
Proof.
  induction o as [|[k' v'] rest IH]; cbn [Obj.set Obj.get].
  - now rewrite String.eqb_refl.
  - destruct (String.eqb k k') eqn:Hk; cbn [Obj.get].
    + now rewrite String.eqb_refl.
    + now rewrite Hk.
Qed.

Lemma get_set_other {V : Type} (k k0 : string) (v0 : V) (o : list (string * V)) :
  k <> k0 -> Obj.get k (Obj.set k0 v0 o) = Obj.get k o.
Proof.
  intros Hne. induction o as [|[k' v'] rest IH]; cbn [Obj.set Obj.get].
  - destruct (String.eqb_spec k k0); [contradiction | reflexivity].
  - destruct (String.eqb_spec k0 k') as [->|Hk0]; cbn [Obj.get].
    + destruct (String.eqb_spec k k'); [contradiction | reflexivity].
    + destruct (String.eqb k k'); [reflexivity | exact IH].
Qed.

Lemma set_not_nil {V : Type} (k : string) (v : V) (o : list (string * V)) :
  Obj.set k v o <> [].
Proof.
  destruct o as [|[k' v'] rest]; cbn [Obj.set]; [discriminate|].
  destruct (String.eqb k k'); discriminate.
Qed.

Lemma keys_get {V : Type} (k : string) (o : list (string * V)) :
  In k (Obj.keys o) -> exists v, Obj.get k o = Some v.
Proof.
  induction o as [|[k' v'] rest IH]; cbn [Obj.keys map Obj.get fst]; [intros []|].
  intros [->|Hin].
  - rewrite String.eqb_refl. now exists v'.
  - destruct (String.eqb k k'); [now exists v' | exact (IH Hin)].
Qed.

Lemma get_keys {V : Type} (k : string) (o : list (string * V)) (v : V) :
  Obj.get k o = Some v -> In k (Obj.keys o).
Proof.
  intros H. apply get_In in H. unfold Obj.keys.
  change k with (fst (k, v)). now apply in_map.
Qed.


Lemma get_unique {V : Type} (k : string) (o : list (string * V)) (v : V) :
  NoDup (Obj.keys o) -> In (k, v) o -> Obj.get k o = Some v.
Proof.
  induction o as [|[k' v'] rest IH]; cbn [Obj.keys map Obj.get fst]; [intros _ []|].
  intros Hnd [Heq|Hin].
  - injection Heq as -> ->. now rewrite String.eqb_refl.
  - inversion Hnd as [|? ? Hnot Hrest]; subst.
    destruct (String.eqb_spec k k') as [->|_].
    + exfalso. apply Hnot. unfold Obj.keys.
      change k' with (fst (k', v)). now apply in_map.
    + exact (IH Hrest Hin).
Qed.

Lemma fold_left_invariant {S E : Type} (f : S -> E -> S) (Inv : S -> Prop) :
  (forall s e, Inv s -> Inv (f s e)) ->
  forall l s, Inv s -> Inv (fold_left f l s).
Proof.
  intros Hstep l. induction l as [|e l IH]; intros s Hs; cbn [fold_left].
  - exact Hs.
  - apply IH, Hstep, Hs.
Qed.

Lemma bind_resolved {A B : Type} (t : list event) (a : A) (k : A -> Eff B) :
  bind (t, Resolved a) k = ((t ++ fst (k a))%list, snd (k a)).
Proof. unfold bind. now destruct (k a). Qed.

(** ** The service worker's comparison of import maps *)

Section ServiceWorkerFacts.
Import ServiceWorker.

Lemma fold_matches {E : Type} (f : VerificationResult -> E -> VerificationResult)
      (good : E -> bool) :
  (forall r e, matches (f r e) = matches r && good e) ->
  forall l r, matches (fold_left f l r) = matches r && forallb good l.
Proof.
  intros Hstep l. induction l as [|e l IH]; intros r; cbn [fold_left forallb].
  - now rewrite andb_true_r.
  - now rewrite IH, Hstep, andb_assoc.
Qed.

Lemma differs_false (served : option string) (value : string) :
  differs served value = false <-> served = Some value /\ value <> "".
Proof.
  unfold differs, Js.truthy. destruct served as [s|]; cbn.
  - destruct (String.eqb_spec s "") as [->|Hne]; cbn.
    + split; [discriminate|]. intros [Heq Hv]. injection Heq as <-. now destruct Hv.
    + destruct (String.eqb_spec s value) as [->|Hsv]; cbn.
      * split; [now split | reflexivity].
      * split; [discriminate|]. intros [Heq _]. injection Heq as ->. now destruct Hsv.
  - split; [discriminate|]. intros [Heq _]. discriminate Heq.
Qed.

Lemma covers_spec (served trusted : ImportMapEntry) :
  covers served trusted = true
  <-> forall k v, In (k, v) trusted -> Obj.get k served = Some v /\ v <> "".
Proof.
  unfold covers. rewrite forallb_forall. split.
  - intros H k v Hin. apply differs_false.
    specialize (H (k, v) Hin). cbn [fst snd] in H.
    now destruct (differs (Obj.get k served) v).
  - intros H [k v] Hin. cbn [fst snd].
    now rewrite (proj2 (differs_false _ _) (H k v Hin)).
Qed.

Lemma known_spec (served trusted : ImportMapEntry) :
  known served trusted = true
  <-> forall k, In k (Obj.keys served) -> Js.truthy (Obj.get k trusted) = true.
Proof. unfold known. apply forallb_forall. Qed.

Lemma coversScopes_spec (served trusted : list (string * ImportMapEntry)) :
  coversScopes served trusted = true
  <-> forall sk scope, In (sk, scope) trusted ->
        exists servedScope,
          Obj.get sk served = Some servedScope
          /\ covers servedScope scope = true.
Proof.
  unfold coversScopes. rewrite forallb_forall. split.
  - intros H sk scope Hin. specialize (H (sk, scope) Hin). cbn [fst snd] in H.
    destruct (Obj.get sk served) as [servedScope|]; [|discriminate].
    now exists servedScope.
  - intros H [sk scope] Hin. cbn [fst snd].
    destruct (H sk scope Hin) as (servedScope & -> & Hc). exact Hc.
Qed.

Lemma matches_checkImport (served : ImportMapEntry) (l : ImportMapEntry)
      (r : VerificationResult) :
  matches (fold_left (checkImport served) l r) = matches r && covers served l.
Proof.
  unfold covers. apply fold_matches. intros r0 [k v]. cbn [fst snd checkImport].
  destruct (differs (Obj.get k served) v); cbn [negb matches flagImports].
  - now rewrite andb_false_r.
  - now rewrite andb_true_r.
Qed.

Lemma matches_checkIntegrity (served : ImportMapEntry) (l : ImportMapEntry)
      (r : VerificationResult) :
  matches (fold_left (checkIntegrity served) l r) = matches r && covers served l.
Proof.
  unfold covers. apply fold_matches. intros r0 [k v]. cbn [fst snd checkIntegrity].
  destruct (differs (Obj.get k served) v); cbn [negb matches flagIntegrity].
  - now rewrite andb_false_r.
  - now rewrite andb_true_r.
Qed.

Lemma matches_checkExtra (served trusted : ImportMapEntry) (l : list string)
      (r : VerificationResult) :
  matches (fold_left (checkExtra served trusted) l r)
  = matches r && forallb (fun key => Js.truthy (Obj.get key trusted)) l.
Proof.
  apply fold_matches. intros r0 k. unfold checkExtra.
  destruct (Js.truthy (Obj.get k trusted)); cbn [negb matches flagImports].
  - now rewrite andb_true_r.
  - now rewrite andb_false_r.
Qed.

Lemma matches_checkMapping (scopeKey : string) (servedScope l : ImportMapEntry)
      (r : VerificationResult) :
  matches (fold_left (checkMapping scopeKey servedScope) l r)
  = matches r && covers servedScope l.
Proof.
  unfold covers. apply fold_matches. intros r0 [k v]. cbn [fst snd checkMapping].
  destruct (differs (Obj.get k servedScope) v); cbn [negb matches flagScopes].
  - now rewrite andb_false_r.
  - now rewrite andb_true_r.
Qed.

Lemma matches_checkScope (served l : list (string * ImportMapEntry))
      (r : VerificationResult) :
  matches (fold_left (checkScope served) l r) = matches r && coversScopes served l.
Proof.
  unfold coversScopes. apply fold_matches. intros r0 [sk scope].
  cbn [fst snd checkScope].
  destruct (Obj.get sk served) as [servedScope|].
  - apply matches_checkMapping.
  - cbn [matches flagScopes]. now rewrite andb_false_r.
Qed.

(** [matches] is the conjunction of the three section checks, each of
    which is skipped when either map lacks the section. *)
Lemma verifyImportMap_matches (servedMap trustedMap : ImportMap) :
  matches (verifyImportMap servedMap trustedMap)
  = match imports servedMap, imports trustedMap with
    | Some served, Some trusted => covers served trusted && known served trusted
    | _, _ => true
    end
    && match scopes servedMap, scopes trustedMap with
       | Some served, Some trusted => coversScopes served trusted
       | _, _ => true
       end
    && match integrity servedMap, integrity trustedMap with
       | Some served, Some trusted => covers served trusted
       | _, _ => true
       end.
Proof.
  unfold verifyImportMap. cbv zeta.
  set (r0 := {| matches := true; discrepancies := _ |}).
  set (r1 := match imports servedMap, imports trustedMap with
             | Some served, Some trusted => _
             | _, _ => r0
             end).
  set (r2 := match scopes servedMap, scopes trustedMap with
             | Some served, Some trusted => _
             | _, _ => r1
             end).
  assert (H1 : matches r1
               = match imports servedMap, imports trustedMap with
                 | Some served, Some trusted =>
                     covers served trusted && known served trusted
                 | _, _ => true
                 end).
  { subst r1. destruct (imports servedMap), (imports trustedMap); try reflexivity.
    now rewrite matches_checkExtra, matches_checkImport. }
  assert (H2 : matches r2
               = matches r1
                 && match scopes servedMap, scopes trustedMap with
                    | Some served, Some trusted => coversScopes served trusted
                    | _, _ => true
                    end).
  { subst r2. destruct (scopes servedMap), (scopes trustedMap);
      try now rewrite andb_true_r.
    apply matches_checkScope. }
  rewrite <- H1, <- H2.
  destruct (integrity servedMap), (integrity trustedMap);
    try now rewrite andb_true_r.
  apply matches_checkIntegrity.
Qed.

(** Every step keeps flag and records together. *)
Lemma consistent_flagImports (k : string) (d : Discrepancy)
      (r : VerificationResult) : consistent (flagImports k d r).
Proof.
  split; [discriminate|]. intros (H & _ & _). cbn in H.
  now apply set_not_nil in H.
Qed.

Lemma consistent_flagScopes (k : string) (d : list (string * Field))
      (r : VerificationResult) : consistent (flagScopes k d r).
Proof.
  split; [discriminate|]. intros (_ & H & _). cbn in H.
  now apply set_not_nil in H.
Qed.

Lemma consistent_flagIntegrity (k : string) (d : Discrepancy)
      (r : VerificationResult) : consistent (flagIntegrity k d r).
Proof.
  split; [discriminate|]. intros (_ & _ & H). cbn in H.
  now apply set_not_nil in H.
Qed.

(** X1.  For maps none of whose keys is the name of a member of
    [Object.prototype] (such as [__proto__] or [constructor]),
    [verifyImportMap] reports a match exactly when it recorded no
    discrepancy in any of the three sections. *)
Theorem verifyImportMap_matches_iff_clean :
  forall servedMap trustedMap : ImportMap,
    ordinary servedMap = true ->
    ordinary trustedMap = true ->
    matches (verifyImportMap servedMap trustedMap) = true
    <-> of_imports (discrepancies (verifyImportMap servedMap trustedMap)) = []
        /\ of_scopes (discrepancies (verifyImportMap servedMap trustedMap)) = []
        /\ of_integrity (discrepancies (verifyImportMap servedMap trustedMap)) = [].
Proof.
  intros servedMap trustedMap _ _.
  change (consistent (verifyImportMap servedMap trustedMap)).
  unfold verifyImportMap. cbv zeta.
  set (r0 := {| matches := true; discrepancies := _ |}).
  assert (H0 : consistent r0) by (split; [intros _; now repeat split | reflexivity]).
  set (r1 := match imports servedMap, imports trustedMap with
             | Some served, Some trusted => _
             | _, _ => r0
             end).
  assert (H1 : consistent r1).
  { subst r1. destruct (imports servedMap), (imports trustedMap); try exact H0.
    apply fold_left_invariant.
    - intros r k Hr. unfold checkExtra.
      destruct (negb _); [apply consistent_flagImports | exact Hr].
    - apply fold_left_invariant; [|exact H0].
      intros r [k v] Hr. cbn [checkImport].
      destruct (differs _ _); [apply consistent_flagImports | exact Hr]. }
  set (r2 := match scopes servedMap, scopes trustedMap with
             | Some served, Some trusted => _
             | _, _ => r1
             end).
  assert (H2 : consistent r2).
  { subst r2. destruct (scopes servedMap) as [served|], (scopes trustedMap);
      try exact H1.
    apply fold_left_invariant; [|exact H1].
    intros r [sk scope] Hr. cbn [checkScope].
    destruct (Obj.get sk served); [|apply consistent_flagScopes].
    apply fold_left_invariant; [|exact Hr].
    intros r' [k v] Hr'. cbn [checkMapping].
    destruct (differs _ _); [apply consistent_flagScopes | exact Hr']. }
  destruct (integrity servedMap), (integrity trustedMap); try exact H2.
  apply fold_left_invariant; [|exact H2].
  intros r [k v] Hr. cbn [checkIntegrity].
  destruct (differs _ _); [apply consistent_flagIntegrity | exact Hr].
Qed.

Lemma verifyImportMap_matches_iff_clean_witness :
  (of_imports (discrepancies
                 (verifyImportMap Samples.servedMap Samples.trustedMap)) = []
   /\ of_scopes (discrepancies
                   (verifyImportMap Samples.servedMap Samples.trustedMap)) = []
   /\ of_integrity (discrepancies
                      (verifyImportMap Samples.servedMap Samples.trustedMap))
      = [])
  /\ matches (verifyImportMap Samples.trustedMap Samples.servedMap) <> true.
Proof.
  split.
  - apply (verifyImportMap_matches_iff_clean Samples.servedMap
             Samples.trustedMap eq_refl eq_refl).
    vm_compute. reflexivity.
  - intros Hmatches.
    apply (verifyImportMap_matches_iff_clean Samples.trustedMap
             Samples.servedMap eq_refl eq_refl) in Hmatches.
    destruct Hmatches as (_ & Hscopes & _). vm_compute in Hscopes.
    discriminate Hscopes.
Defined.


Lemma covers_self (table : ImportMapEntry) :
  proper table -> covers table table = true.
Proof.
  intros [Hnd Hne]. apply covers_spec. intros k v Hin.
  split; [now apply get_unique | exact (Hne k v Hin)].
Qed.

Lemma known_self (table : ImportMapEntry) :
  proper table -> known table table = true.
Proof.
  intros [Hnd Hne]. apply known_spec. intros k Hin.
  destruct (keys_get k table Hin) as [v Hv]. rewrite Hv.
  apply truthy_Some. exact (Hne k v (get_In k table v Hv)).
Qed.

(** X2.  A map whose objects have distinct keys and non-empty values matches
    itself; a map with an empty import target does not even match itself. *)
Theorem verifyImportMap_reflexive :
  forall m : ImportMap,
    ((forall table, imports m = Some table -> proper table) ->
     (forall table, scopes m = Some table ->
        NoDup (Obj.keys table)
        /\ forall sk scope, In (sk, scope) table -> proper scope) ->
     (forall table, integrity m = Some table -> proper table) ->
     matches (verifyImportMap m m) = true)
    /\ (forall table key,
          imports m = Some table -> In (key, "") table ->
          matches (verifyImportMap m m) = false).
Proof.
  intros m. split.
  - intros Himports Hscopes Hintegrity. rewrite verifyImportMap_matches.
    repeat (apply andb_true_iff; split).
    + destruct (imports m) as [table|]; [|reflexivity].
      specialize (Himports table eq_refl).
      now rewrite covers_self, known_self.
    + destruct (scopes m) as [table|]; [|reflexivity].
      destruct (Hscopes table eq_refl) as [Hnd Hall].
      apply coversScopes_spec. intros sk scope Hin. exists scope. split.
      * now apply get_unique.
      * apply covers_self. exact (Hall sk scope Hin).
    + destruct (integrity m) as [table|]; [|reflexivity].
      apply covers_self. exact (Hintegrity table eq_refl).
  - intros table key Htable Hin. rewrite verifyImportMap_matches, Htable.
    assert (Hc : covers table table = false).
    { destruct (covers table table) eqn:Hc; [|reflexivity].
      destruct (proj1 (covers_spec _ _) Hc key "" Hin) as [_ Hne].
      now destruct Hne. }
    now rewrite Hc.
Qed.

Lemma verifyImportMap_reflexive_witness :
  matches (verifyImportMap Samples.trustedMap Samples.trustedMap) = true
  /\ matches
       (verifyImportMap
          {| imports := Some [("app", "")]; scopes := None; integrity := None |}
          {| imports := Some [("app", "")]; scopes := None; integrity := None |})
     = false.
Proof.
  split.
  - apply (proj1 (verifyImportMap_reflexive Samples.trustedMap)).
    + intros table H. injection H as <-. split.
      * repeat constructor; cbn [In]; intros H; repeat destruct H as [H|H];
          try discriminate H; exact H.
      * intros k v H. repeat destruct H as [H|H];
          try (injection H as <- <-; discriminate); destruct H.
    + intros table H. injection H as <-. split.
      * repeat constructor. intros [].
      * intros sk scope H. destruct H as [H|[]]. injection H as <- <-. split.
        -- repeat constructor. intros [].
        -- intros k v H. destruct H as [H|[]]. injection H as <- <-. discriminate.
    + intros table H. injection H as <-. split.
      * repeat constructor. intros [].
      * intros k v H. destruct H as [H|[]]. injection H as <- <-. discriminate.
  - apply (proj2 (verifyImportMap_reflexive
                    {| imports := Some [("app", "")]; scopes := None;
                       integrity := None |}) [("app", "")] "app" eq_refl).
    now left.
Defined.

(** X3.  For maps none of whose keys is the name of a member of
    [Object.prototype]: when the served map is reported to match, its
    [imports] and the trusted [imports] hold the same value under every key,
    and every trusted scope mapping and every trusted integrity entry is
    served unchanged (each for a section that both maps carry). *)
Theorem verifyImportMap_sound :
  forall servedMap trustedMap : ImportMap,
    ordinary servedMap = true ->
    ordinary trustedMap = true ->
    matches (verifyImportMap servedMap trustedMap) = true ->
    (forall served trusted,
        imports servedMap = Some served -> imports trustedMap = Some trusted ->
        forall key, Obj.get key served = Obj.get key trusted)
    /\ (forall served trusted,
          scopes servedMap = Some served -> scopes trustedMap = Some trusted ->
          forall scopeKey scope,
            Obj.get scopeKey trusted = Some scope ->
            exists servedScope,
              Obj.get scopeKey served = Some servedScope
              /\ forall key value,
                   Obj.get key scope = Some value ->
                   Obj.get key servedScope = Some value)
    /\ (forall served trusted,
          integrity servedMap = Some served ->
          integrity trustedMap = Some trusted ->
          forall key value,
            Obj.get key trusted = Some value -> Obj.get key served = Some value).
Proof.
  intros servedMap trustedMap _ _ H. rewrite verifyImportMap_matches in H.
  apply andb_true_iff in H. destruct H as [H Hinteg].
  apply andb_true_iff in H. destruct H as [Himp Hscopes].
  split; [|split].
  - intros served trusted Hs Ht key. rewrite Hs, Ht in Himp.
    apply andb_true_iff in Himp. destruct Himp as [Hc Hk].
    rewrite covers_spec in Hc. rewrite known_spec in Hk.
    destruct (Obj.get key trusted) as [v|] eqn:Hv.
    + exact (proj1 (Hc key v (get_In key trusted v Hv))).
    + destruct (Obj.get key served) as [x|] eqn:Hx; [|reflexivity].
      specialize (Hk key (get_keys key served x Hx)).
      rewrite Hv in Hk. discriminate Hk.
  - intros served trusted Hs Ht scopeKey scope Hscope. rewrite Hs, Ht in Hscopes.
    rewrite coversScopes_spec in Hscopes.
    destruct (Hscopes scopeKey scope (get_In _ _ _ Hscope))
      as (servedScope & Hget & Hc).
    exists servedScope. split; [exact Hget|].
    intros key value Hkv. rewrite covers_spec in Hc.
    exact (proj1 (Hc key value (get_In _ _ _ Hkv))).
  - intros served trusted Hs Ht key value Hkv. rewrite Hs, Ht in Hinteg.
    rewrite covers_spec in Hinteg.
    exact (proj1 (Hinteg key value (get_In _ _ _ Hkv))).
Qed.

Lemma verifyImportMap_sound_witness :
  matches (verifyImportMap Samples.servedMap Samples.trustedMap) = true
  /\ Obj.get "/app.js" (("/app.js", Examples.digestA) :: Samples.extraIntegrity)
     = Some Examples.digestA.
Proof.
  assert (H : matches (verifyImportMap Samples.servedMap Samples.trustedMap) = true)
    by (vm_compute; reflexivity).
  split; [exact H|].
  destruct (verifyImportMap_sound Samples.servedMap Samples.trustedMap
              eq_refl eq_refl H)
    as (_ & _ & Hintegrity).
  exact (Hintegrity _ _ eq_refl eq_refl "/app.js" Examples.digestA eq_refl).
Defined.

(** X4.  A section the served map leaves out is not compared: a matching
    served map still matches after any of its sections is removed. *)
Theorem verifyImportMap_dropped_sections :
  forall servedMap trustedMap stripped : ImportMap,
    matches (verifyImportMap servedMap trustedMap) = true ->
    (imports stripped = imports servedMap \/ imports stripped = None) ->
    (scopes stripped = scopes servedMap \/ scopes stripped = None) ->
    (integrity stripped = integrity servedMap \/ integrity stripped = None) ->
    matches (verifyImportMap stripped trustedMap) = true.
Proof.
  intros servedMap trustedMap stripped H Himp Hscopes Hinteg.
  rewrite verifyImportMap_matches in *.
  apply andb_true_iff in H. destruct H as [H H3].
  apply andb_true_iff in H. destruct H as [H1 H2].
  repeat (apply andb_true_iff; split).
  - destruct Himp as [->| ->]; [exact H1 | reflexivity].
  - destruct Hscopes as [->| ->]; [exact H2 | reflexivity].
  - destruct Hinteg as [->| ->]; [exact H3 | reflexivity].
Qed.

Lemma verifyImportMap_dropped_sections_witness :
  matches
    (verifyImportMap
       {| imports := imports Samples.trustedMap; scopes := None;
          integrity := None |}
       Samples.trustedMap) = true.
Proof.
  apply (verifyImportMap_dropped_sections Samples.trustedMap Samples.trustedMap).
  - vm_compute. reflexivity.
  - left. reflexivity.
  - right. reflexivity.
  - right. reflexivity.
Defined.



(** [fetchTrustedImportMap] as a function of what the fetch returns. *)
Lemma fetchTrustedImportMap_run :
  forall (W : Browser) (parse : string -> option ImportMap) (cfg : Config),
    fetchTrustedImportMap W parse cfg
    = ([EvFetch (githubUrl cfg)],
       Resolved
         match fetch W (githubUrl cfg) with
         | Some response =>
             if ok response then
               match parse (text response) with
               | Some trustedMap => trustedMap
               | None => fallback
               end
             else fallback
         | None => fallback
         end).
Proof.
  intros W parse cfg. unfold fetchTrustedImportMap, doFetch.
  destruct (fetch W (githubUrl cfg)) as [response|]; run; [|reflexivity].
  destruct (ok response); run; [|reflexivity].
  destruct (parse (text response)); reflexivity.
Qed.

(** X6.  [fetchTrustedImportMap] never rejects: it issues one fetch and
    resolves to a map.  When the fetch fails, the response is not OK or the
    body is not JSON, that map is the fallback
    [{ imports: {}, scopes: {}, integrity: {} }]; compared with it, a served
    map none of whose keys is the name of a member of [Object.prototype] is
    reported as matching exactly when it declares no import, and its scopes
    and integrity entries are never reported. *)
Theorem verification_without_trusted_map :
  forall (W : Browser) (parse : string -> option ImportMap) (cfg : Config),
    (exists trustedMap,
        fetchTrustedImportMap W parse cfg
        = ([EvFetch (githubUrl cfg)], Resolved trustedMap))
    /\ ((forall response,
           fetch W (githubUrl cfg) = Some response -> ok response = true ->
           parse (text response) = None) ->
        fetchTrustedImportMap W parse cfg
        = ([EvFetch (githubUrl cfg)], Resolved fallback))
    /\ (forall servedMap : ImportMap,
          ordinary servedMap = true ->
          matches (verifyImportMap servedMap fallback)
          = match imports servedMap with
            | Some (_ :: _) => false
            | _ => true
            end
          /\ of_scopes (discrepancies (verifyImportMap servedMap fallback)) = []
          /\ of_integrity (discrepancies (verifyImportMap servedMap fallback))
             = []).
Proof.
  intros W parse cfg. rewrite fetchTrustedImportMap_run.
  split; [now eexists|]. split.
  { intros Hbad. destruct (fetch W (githubUrl cfg)) as [response|] eqn:Hf;
      [|reflexivity].
    destruct (ok response) eqn:Hok; [|reflexivity].
    now rewrite (Hbad response eq_refl Hok). }
  intros servedMap _. split.
  - rewrite verifyImportMap_matches. cbn [imports scopes integrity fallback].
    destruct (scopes servedMap), (integrity servedMap);
      cbn [coversScopes covers forallb]; rewrite ?andb_true_r;
      (destruct (imports servedMap) as [[|[k v] rest]|]; reflexivity).
  - unfold verifyImportMap. cbv zeta. cbn [imports scopes integrity fallback].
    assert (Hkeep : forall served l r,
               of_scopes (discrepancies (fold_left (checkExtra served []) l r))
               = of_scopes (discrepancies r)
               /\ of_integrity
                    (discrepancies (fold_left (checkExtra served []) l r))
                  = of_integrity (discrepancies r)).
    { intros served l r.
      apply (fold_left_invariant (checkExtra served [])
               (fun r' => of_scopes (discrepancies r') = of_scopes (discrepancies r)
                          /\ of_integrity (discrepancies r')
                             = of_integrity (discrepancies r)));
        [|split; reflexivity].
      intros r' k Hr'. unfold checkExtra. destruct (negb _); exact Hr'. }
    destruct (imports servedMap) as [served|], (scopes servedMap),
      (integrity servedMap); cbn [fold_left]; try (split; reflexivity);
      apply Hkeep.
Qed.

Lemma verification_without_trusted_map_witness :
  fetchTrustedImportMap Examples.directPage (fun _ => None) config
  = ([EvFetch (githubUrl config)], Resolved fallback)
  /\ matches (verifyImportMap Samples.servedMap fallback) = false.
Proof.
  destruct (verification_without_trusted_map Examples.directPage
              (fun _ => None) config) as (_ & Hfallback & Hverify).
  split.
  - apply Hfallback. intros response Hf. vm_compute in Hf. discriminate Hf.
  - exact (proj1 (Hverify Samples.servedMap eq_refl)).
Defined.

End ServiceWorkerFacts.

(** ** The NextJS plugin *)

Section NextPluginFacts.
Context (P : Platform) (config : NextPlugin.ModuleIntegrityConfig)
        (compilation : NextPlugin.Compilation).

Lemma plugin_digest (content : string) :
  NextPlugin.calculateIntegrity P content
  = ([EvDigest "sha384" content],
     Resolved ("sha384-" ++ Base64.encode (sha384 P content))).
Proof.
  unfold NextPlugin.calculateIntegrity, NextPlugin.algorithm.
  now rewrite (createHash_sha384 P).
Qed.

Lemma slash_injective (a b : string) : "/" ++ a = "/" ++ b -> a = b.
Proof. intros H. now injection H. Qed.

(** The loop of [processAssets] over a list of asset names that all occur
    in [compilation.assets]. *)
Lemma plugin_loop (names : list string) :
  (forall name, In name names ->
     exists content, Obj.get name (NextPlugin.assets compilation) = Some content) ->
  forall importMap : Tables,
  exists t importMap',
    forEach
      (fun importMap assetName =>
         match Obj.get assetName (NextPlugin.assets compilation) with
         | None => throw (TypeError "Cannot read properties of undefined")
         | Some content =>
             integrity <- NextPlugin.calculateIntegrity P content ;;
             ret (NextPlugin.addToImportMap P assetName integrity importMap)
         end) names importMap
    = (t, Resolved importMap')
    /\ (forall name content,
          In name names ->
          Obj.get name (NextPlugin.assets compilation) = Some content ->
          Obj.get ("/" ++ name) (integrityOf importMap')
          = Some ("sha384-" ++ Base64.encode (sha384 P content)))
    /\ (forall key value,
          In (key, value) (integrityOf importMap') ->
          In (key, value) (integrityOf importMap)
          \/ exists name content,
               In name names
               /\ Obj.get name (NextPlugin.assets compilation) = Some content
               /\ key = "/" ++ name
               /\ value = "sha384-" ++ Base64.encode (sha384 P content))
    /\ (forall key,
          (forall name, In name names -> key <> "/" ++ name) ->
          Obj.get key (integrityOf importMap') = Obj.get key (integrityOf importMap))
    /\ (forall key,
          Obj.has key (integrityOf importMap) = true ->
          Obj.has key (integrityOf importMap') = true).
Proof.
  induction names as [|name rest IH]; intros Hknown importMap.
  - exists [], importMap. split; [reflexivity|].
    split; [intros ? ? []|]. split; [now left|]. split; trivial.
  - destruct (Hknown name (or_introl eq_refl)) as [content Hcontent].
    cbn [forEach]. rewrite Hcontent, plugin_digest.
    set (digest := "sha384-" ++ Base64.encode (sha384 P content)).
    set (step := NextPlugin.addToImportMap P name digest importMap).
    destruct (IH (fun n Hn => Hknown n (or_intror Hn)) step)
      as (t & final & Hrun & Hhit & Hfrom & Hkeep & Hhas).
    exists (EvDigest "sha384" content :: t), final.
    split.
    { rewrite bind_resolved. cbn [ret fst snd app].
      rewrite bind_resolved. fold digest. fold step. now rewrite Hrun. }
    assert (Hstep : Obj.get ("/" ++ name) (integrityOf step) = Some digest)
      by apply get_set_same.
    split; [|split; [|split]].
    + intros n c [<-|Hin] Hc.
      * rewrite Hcontent in Hc. injection Hc as <-.
        destruct (in_dec string_dec name rest) as [Hrest|Hrest].
        -- exact (Hhit name content Hrest Hcontent).
        -- rewrite Hkeep; [exact Hstep|].
           intros n Hn Heq. apply slash_injective in Heq. now subst n.
      * exact (Hhit n c Hin Hc).
    + intros key value Hin. destruct (Hfrom key value Hin) as [Hold|Hnew].
      * cbn [step integrityOf NextPlugin.addToImportMap] in Hold.
        destruct (set_In _ _ _ _ _ Hold) as [Heq|Holder]; [|now left].
        injection Heq as -> ->. right. exists name, content.
        repeat split; [now left | exact Hcontent].
      * destruct Hnew as (n & c & Hn & Hc & -> & ->). right. exists n, c.
        repeat split; [now right | exact Hc].
    + intros key Hfresh. rewrite Hkeep.
      * apply get_set_other. apply Hfresh. now left.
      * intros n Hn. apply Hfresh. now right.
    + intros key Hkey. apply Hhas. now apply has_set_other.
Qed.

Lemma targetAssets_known (name : string) :
  In name (NextPlugin.targetAssets config compilation) ->
  Text.endsWith ".js" name = true
  /\ exists content, Obj.get name (NextPlugin.assets compilation) = Some content.
Proof.
  unfold NextPlugin.targetAssets, NextPlugin.filterAssetsByPackages. cbv zeta.
  intros Hin.
  assert (Hjs : In name (filter (Text.endsWith ".js")
                           (Obj.keys (NextPlugin.assets compilation)))).
  { destruct (NextPlugin.packages config) as [[|pkg pkgs]|]; try exact Hin.
    now apply filter_In in Hin. }
  apply filter_In in Hjs. destruct Hjs as [Hkey Hext].
  split; [exact Hext | now apply keys_get].
Qed.

Lemma processAssets_run (importMap : Tables) :
  exists t importMap',
    NextPlugin.processAssets P config compilation importMap
    = (t, Resolved (importMap',
                    (NextPlugin.importMapPath config, toImportMap importMap')))
    /\ (forall name content,
          In name (NextPlugin.targetAssets config compilation) ->
          Obj.get name (NextPlugin.assets compilation) = Some content ->
          Obj.get ("/" ++ name) (integrityOf importMap')
          = Some ("sha384-" ++ Base64.encode (sha384 P content)))
    /\ (forall key value,
          In (key, value) (integrityOf importMap') ->
          In (key, value) (integrityOf importMap)
          \/ exists name content,
               In name (NextPlugin.targetAssets config compilation)
               /\ Obj.get name (NextPlugin.assets compilation) = Some content
               /\ key = "/" ++ name
               /\ value = "sha384-" ++ Base64.encode (sha384 P content))
    /\ (forall key,
          (forall name, In name (NextPlugin.targetAssets config compilation) ->
                        key <> "/" ++ name) ->
          Obj.get key (integrityOf importMap') = Obj.get key (integrityOf importMap))
    /\ (forall key,
          Obj.has key (integrityOf importMap) = true ->
          Obj.has key (integrityOf importMap') = true).
Proof.
  destruct (plugin_loop (NextPlugin.targetAssets config compilation)
              (fun n Hn => proj2 (targetAssets_known n Hn)) importMap)
    as (t & final & Hrun & Hrest).
  exists t, final. split; [|exact Hrest].
  unfold NextPlugin.processAssets. rewrite Hrun. run.
  now rewrite app_nil_r.
Qed.

End NextPluginFacts.

(** X7.  [processAssets] always completes.  Afterwards every target asset
    (a name of [compilation.assets] that ends in [.js] and passes the package
    filter) has the SHA-384 digest string of its source under the key
    ["/" + name]; every integrity key is an earlier one or such a key; and
    without a package filter every asset whose name ends in [.js] is a
    target. *)
Theorem processAssets_covers_targets :
  forall (P : Platform) (config : NextPlugin.ModuleIntegrityConfig)
         (compilation : NextPlugin.Compilation) (importMap : Tables),
  exists t importMap',
    NextPlugin.processAssets P config compilation importMap
    = (t, Resolved (importMap',
                    (NextPlugin.importMapPath config, toImportMap importMap')))
    /\ (forall name,
          In name (NextPlugin.targetAssets config compilation) ->
          Text.endsWith ".js" name = true
          /\ exists content,
               Obj.get name (NextPlugin.assets compilation) = Some content
               /\ Obj.get ("/" ++ name) (integrityOf importMap')
                  = Some ("sha384-" ++ Base64.encode (sha384 P content)))
    /\ (forall key,
          Obj.has key (integrityOf importMap') = true ->
          Obj.has key (integrityOf importMap) = true
          \/ exists name,
               In name (NextPlugin.targetAssets config compilation)
               /\ key = "/" ++ name)
    /\ ((NextPlugin.packages config = None
         \/ NextPlugin.packages config = Some []) ->
        forall name content,
          Obj.get name (NextPlugin.assets compilation) = Some content ->
          Text.endsWith ".js" name = true ->
          In name (NextPlugin.targetAssets config compilation)).
Proof.
  intros P config compilation importMap.
  destruct (processAssets_run P config compilation importMap)
    as (t & final & Hrun & Hhit & Hfrom & _ & _).
  exists t, final. split; [exact Hrun|]. split; [|split].
  - intros name Hin.
    destruct (targetAssets_known config compilation name Hin)
      as [Hext [content Hc]].
    split; [exact Hext|]. exists content. split; [exact Hc|].
    exact (Hhit name content Hin Hc).
  - intros key Hkey. unfold Obj.has in Hkey.
    destruct (Obj.get key (integrityOf final)) as [value|] eqn:Hget;
      [|discriminate].
    destruct (Hfrom key value (get_In _ _ _ Hget))
      as [Hold|(name & content & Hin & _ & -> & _)].
    + left. unfold Obj.has.
      destruct (keys_get key (integrityOf importMap)) as [v Hv].
      * unfold Obj.keys. change key with (fst (key, value)). now apply in_map.
      * now rewrite Hv.
    + right. now exists name.
  - intros Hnone name content Hc Hext.
    unfold NextPlugin.targetAssets, NextPlugin.filterAssetsByPackages. cbv zeta.
    assert (Hjs : In name (filter (Text.endsWith ".js")
                             (Obj.keys (NextPlugin.assets compilation)))).
    { apply filter_In. split; [exact (get_keys _ _ _ Hc) | exact Hext]. }
    destruct Hnone as [-> | ->]; exact Hjs.
Qed.

(** X8.  The plugin never removes an integrity entry: a key present before
    [processAssets] is present afterwards, with its value unchanged unless
    the key is ["/" + name] for a target asset of this compilation. *)
Theorem processAssets_keeps_entries :
  forall (P : Platform) (config : NextPlugin.ModuleIntegrityConfig)
         (compilation : NextPlugin.Compilation) (importMap importMap' : Tables)
         (t : list event) (emitted : string * ImportMap) (key value : string),
    NextPlugin.processAssets P config compilation importMap
    = (t, Resolved (importMap', emitted)) ->
    Obj.get key (integrityOf importMap) = Some value ->
    (exists value', Obj.get key (integrityOf importMap') = Some value')
    /\ ((forall name, In name (NextPlugin.targetAssets config compilation) ->
                      key <> "/" ++ name) ->
        Obj.get key (integrityOf importMap') = Some value).
Proof.
  intros P config compilation importMap importMap' t emitted key value Hrun Hget.
  destruct (processAssets_run P config compilation importMap)
    as (t0 & final & Hrun0 & _ & _ & Hkeep & Hhas).
  rewrite Hrun0 in Hrun. injection Hrun as _ <- _.
  split.
  - specialize (Hhas key). unfold Obj.has in Hhas. rewrite Hget in Hhas.
    destruct (Obj.get key (integrityOf final)) as [v|]; [now exists v|].
    now specialize (Hhas eq_refl).
  - intros Hfresh. now rewrite Hkeep.
Qed.

Lemma processAssets_keeps_entries_witness :
  exists t importMap' emitted,
    NextPlugin.processAssets Reference.platform NextPlugin.defaults
      Samples.compilation Samples.stale
    = (t, Resolved (importMap', emitted))
    /\ Obj.get "/static/chunks/old.js" (integrityOf importMap')
       = Some Examples.digestB.
Proof.
  destruct (processAssets_run Reference.platform NextPlugin.defaults
              Samples.compilation Samples.stale) as (t & final & Hrun & _).
  exists t, final, ("importmap.json", toImportMap final).
  split; [exact Hrun|].
  apply (proj2 (processAssets_keeps_entries Reference.platform
                  NextPlugin.defaults Samples.compilation Samples.stale final t
                  ("importmap.json", toImportMap final) "/static/chunks/old.js"
                  Examples.digestB Hrun eq_refl)).
  intros name Hin. vm_compute in Hin.
  destruct Hin as [<-|[<-|[]]]; discriminate.
Defined.

(** X9.  Plugin and validator fit together: when the map emitted by a new
    plugin instance is stored where [validateNextJSBuildIntegrity] reads its
    import map and every asset lies below [distDir] under its own name, the
    validator settles; it reports every integrity entry as passed, unless
    the map has no integrity entry at all, which the validator rejects. *)
Theorem plugin_then_validate :
  forall (P : Platform) (D : Disk) (config : NextPlugin.ModuleIntegrityConfig)
         (compilation : NextPlugin.Compilation)
         (validator : Validator.ValidatorConfig) (mapText : string),
    let dist := Js.orElse (Validator.distDir validator) ".next" in
    let mapPath :=
      path_join P dist (Js.orElse (Validator.importMapPath validator)
                                  "importmap.json") in
    Js.orElse (Validator.importMapPath validator) "importmap.json"
    = NextPlugin.importMapPath config ->
    (forall t importMap emitted,
        NextPlugin.processAssets P config compilation NextPlugin.fresh
        = (t, Resolved (importMap, emitted)) ->
        file D (path_join P dist (fst emitted)) = Some mapText
        /\ json D (path_join P dist (fst emitted)) = Some (snd emitted)) ->
    (forall name content,
        Obj.get name (NextPlugin.assets compilation) = Some content ->
        file D (path_join P dist name) = Some content) ->
    exists t importMap,
      NextPlugin.processAssets P config compilation NextPlugin.fresh
      = (t, Resolved (importMap,
                      (NextPlugin.importMapPath config, toImportMap importMap)))
      /\ (integrityOf importMap = [] ->
          exists t',
            Validator.validateNextJSBuildIntegrity P D validator
            = (t', Rejected (Error "No integrity hashes found in import map")))
      /\ (integrityOf importMap <> [] ->
          exists t' r,
            Validator.validateNextJSBuildIntegrity P D validator
            = (t', Resolved r)
            /\ Validator.allPassed (length (integrityOf importMap)) r).
Proof.
  intros P D config compilation validator mapText dist mapPath Hpath Hmap Hfiles.
  destruct (processAssets_run P config compilation NextPlugin.fresh)
    as (t & final & Hrun & _ & Hfrom & _ & _).
  exists t, final. split; [exact Hrun|].
  destruct (Hmap _ _ _ Hrun) as [Hfile Hjson]. cbn [fst snd] in Hfile, Hjson.
  rewrite <- Hpath in Hfile, Hjson. fold mapPath in Hfile, Hjson.
  unfold Validator.validateNextJSBuildIntegrity.
  fold dist. fold mapPath. rewrite Hfile, Hjson. cbn [integrity toImportMap].
  split.
  - intros ->. eexists. run. reflexivity.
  - intros Hne.
    destruct (validateEntries_all_pass P D dist (integrityOf final))
      with (r := Validator.initial) as [tv Hloop].
    { intros url h Hin.
      destruct (Hfrom url h Hin) as [[]|(name & content & _ & Hc & -> & ->)].
      exists content, (path_join P dist name). split; [reflexivity|].
      split; [|exact (Hfiles name content Hc)].
      unfold fullPathOf, filePathOf.
      change (Js.startsWith "/" ("/" ++ name)) with (String.prefix "/" ("/" ++ name)).
      rewrite prefix_app. now rewrite bind_ret_l. }
    destruct (integrityOf final) as [|entry table]; [contradiction|].
    run. rewrite Hloop.
    cbn [Validator.failures Validator.initial length Nat.ltb Nat.leb].
    eexists. eexists. split; [reflexivity|].
    unfold Validator.allPassed. cbn. repeat split; reflexivity.
Qed.

Lemma plugin_then_validate_witness :
  exists t r,
    Validator.validateNextJSBuildIntegrity Reference.platform Samples.buildDisk
      Examples.defaults = (t, Resolved r)
    /\ Validator.allPassed 2 r.
Proof.
  assert (Hsample :
            NextPlugin.processAssets Reference.platform NextPlugin.defaults
              Samples.compilation NextPlugin.fresh
            = ([EvDigest "sha384" Examples.moduleA;
                EvDigest "sha384" Examples.moduleB],
               Resolved (Samples.pluginMap,
                         ("importmap.json", toImportMap Samples.pluginMap))))
    by (vm_compute; reflexivity).
  destruct (plugin_then_validate Reference.platform Samples.buildDisk
              NextPlugin.defaults Samples.compilation Examples.defaults
              Examples.jsonText) as (t & importMap & Hrun & _ & Hpass).
  - reflexivity.
  - intros t importMap emitted Hrun. rewrite Hsample in Hrun.
    injection Hrun as _ _ <-. split; reflexivity.
  - intros name content Hget.
    cbn [Obj.get NextPlugin.assets Samples.compilation] in Hget.
    destruct (String.eqb_spec name "static/chunks/app.js") as [->|_];
      [injection Hget as <-; reflexivity|].
    destruct (String.eqb_spec name "static/css/site.css") as [->|_];
      [injection Hget as <-; reflexivity|].
    destruct (String.eqb_spec name "static/chunks/vendor.js") as [->|_];
      [injection Hget as <-; reflexivity | discriminate Hget].
  - rewrite Hsample in Hrun. injection Hrun as _ <-.
    destruct Hpass as (t' & r & Hvalid & Hall); [discriminate|].
    exists t', r. split; [exact Hvalid | exact Hall].
Defined.


(** ** The clients *)

Lemma direct_entry_expected (W : Browser) (url : Js.value) :
  Js.isTruthy (Client.getIntegrityForUrl W url) = true ->
  exists m,
    importMapScript W = Some m
    /\ Client.expectedIntegrity W m url = Client.getIntegrityForUrl W url.
Proof.
  unfold Client.getIntegrityForUrl, Client.getImportMap. intros Hget.
  destruct (importMapScript W) as [m|]; [|discriminate].
  exists m. split; [reflexivity|].
  unfold Client.expectedIntegrity. now rewrite Hget.
Qed.

(** X10.  The TypeScript client checks a module against what it finds
    under the URL itself only.  When [integrity[url]] gives nothing truthy
    the module is imported with no fetch and no digest, also when
    [hasIntegrityConstraint] holds because a specifier that maps to the URL
    carries a digest. *)
Theorem clientTs_alias_digest_unchecked :
  forall (P : Platform) (W : Browser) (specifier : string),
    let url := ClientTs.resolveSpecifier W specifier in
    Js.isTruthy (ClientTs.getIntegrityForUrl W url) = false ->
    ClientTs.importWithIntegrity P W specifier
    = ([EvImport (textOf W url)], Resolved (ModuleAt (textOf W url))).
Proof.
  intros P W specifier url Hnone. unfold ClientTs.importWithIntegrity.
  fold url. rewrite Hnone.
  destruct (ClientTs.hasIntegrityConstraint W url); reflexivity.
Qed.

Lemma clientTs_alias_digest_unchecked_witness :
  ClientTs.hasIntegrityConstraint Examples.aliasPage (Js.Str "log?name=F")
  = true
  /\ ClientTs.importWithIntegrity Reference.platform Examples.aliasPage
       "log?name=G"
     = ([EvImport "log?name=F"], Resolved (ModuleAt "log?name=F")).
Proof.
  split; [vm_compute; reflexivity|].
  apply (clientTs_alias_digest_unchecked Reference.platform Examples.aliasPage
           "log?name=G").
  vm_compute. reflexivity.
Defined.

(** X11.  When [integrity[url]] gives a non-empty string, the TypeScript
    client rejects at once if the string is not tagged [sha384-]; otherwise
    it fetches the URL, hashes the body whatever the response status, and
    imports exactly when the digest string equals the entry.  When
    [integrity[url]] gives a member of [Object.prototype], the import is
    rejected with nothing fetched. *)
Theorem clientTs_direct_checked :
  forall (P : Platform) (W : Browser) (specifier : string),
    let url := ClientTs.resolveSpecifier W specifier in
    let u := textOf W url in
    (forall h,
        ClientTs.getIntegrityForUrl W url = Js.Str h -> h <> "" ->
        ClientTs.importWithIntegrity P W specifier
        = if Js.startsWith "sha384-" h then
            match fetch W u with
            | Some response =>
                if String.eqb ("sha384-" ++ btoa (sha384 P (text response))) h
                then
                  ([EvFetch u; EvDigest "SHA-384" (text response); EvImport u],
                   Resolved (ModuleAt u))
                else
                  ([EvFetch u; EvDigest "SHA-384" (text response)],
                   Rejected (Error ("Integrity check failed for module: "
                                      ++ u)))
            | None =>
                ([EvFetch u],
                 Rejected (Error ("Integrity check failed for module: " ++ u)))
            end
          else
            ([], Rejected (Error ("Integrity check failed for module: " ++ u))))
    /\ (forall name,
          ClientTs.getIntegrityForUrl W url = Js.Member name ->
          ClientTs.importWithIntegrity P W specifier
          = ([], Rejected (Error ("Integrity check failed for module: " ++ u)))).
Proof.
  intros P W specifier url u.
  assert (Hhead : forall v,
             ClientTs.getIntegrityForUrl W url = v -> Js.isTruthy v = true ->
             ClientTs.importWithIntegrity P W specifier
             = ((isValid <- ClientTs.validateModuleIntegrity P W url v ;;
                 if negb isValid then
                   throw (Error ("Integrity check failed for module: " ++ u))
                 else ret tt) ;;;
                dynamicImport u)).
  { intros v Hget Ht.
    assert (Ht' : Js.isTruthy (Client.getIntegrityForUrl W url) = true)
      by (unfold ClientTs.getIntegrityForUrl in Hget; now rewrite Hget).
    destruct (direct_entry_expected W url Ht') as (m & Hm & He).
    unfold ClientTs.importWithIntegrity. fold url. fold u.
    unfold ClientTs.hasIntegrityConstraint.
    rewrite (hasIntegrityConstraint_expected W m url Hm), He.
    unfold ClientTs.getIntegrityForUrl in *. rewrite Hget, Ht.
    reflexivity. }
  split.
  - intros h Hget Hne.
    rewrite (Hhead _ Hget (isTruthy_Str h Hne)).
    unfold ClientTs.validateModuleIntegrity, ClientTs.fetchAndCalculateIntegrity,
      doFetch, ClientTs.calculateIntegrity. fold u.
    rewrite (subtleDigest_SHA384 P).
    destruct (Js.startsWith "sha384-" h); run; [|reflexivity].
    destruct (fetch W u) as [response|]; run; [|reflexivity].
    destruct (String.eqb _ h); reflexivity.
  - intros name Hget. rewrite (Hhead _ Hget eq_refl). reflexivity.
Qed.

Lemma clientTs_direct_checked_witness :
  ClientTs.importWithIntegrity Reference.platform Examples.directPage "log?name=G"
  = ([EvFetch "log?name=F"; EvDigest "SHA-384" Examples.moduleF;
      EvImport "log?name=F"], Resolved (ModuleAt "log?name=F"))
  /\ ClientTs.importWithIntegrity Reference.platform Examples.foreignPage
       "log?name=G"
     = ([], Rejected (Error "Integrity check failed for module: log?name=F"))
  /\ ClientTs.importWithIntegrity Reference.platform Examples.barePage
       "valueOf"
     = ([], Rejected (Error "Integrity check failed for module: valueOf")).
Proof.
  split; [|split].
  - rewrite (proj1 (clientTs_direct_checked Reference.platform
                      Examples.directPage "log?name=G")
               Examples.digestF eq_refl ltac:(discriminate)).
    vm_compute. reflexivity.
  - rewrite (proj1 (clientTs_direct_checked Reference.platform
                      Examples.foreignPage "log?name=G")
               Examples.digestF256 eq_refl ltac:(discriminate)).
    vm_compute. reflexivity.
  - rewrite (proj2 (clientTs_direct_checked Reference.platform
                      Examples.barePage "valueOf") "valueOf" eq_refl).
    reflexivity.
Defined.

Lemma clientTs_fetch_digest (P : Platform) (W : Browser) (url : string) :
  ClientTs.fetchAndCalculateIntegrity P W url
  = match fetch W url with
    | Some response =>
        ([EvFetch url; EvDigest "SHA-384" (text response)],
         Resolved ("sha384-" ++ btoa (sha384 P (text response))))
    | None => ([EvFetch url], Rejected (TypeError "Failed to fetch"))
    end.
Proof.
  unfold ClientTs.fetchAndCalculateIntegrity, doFetch,
    ClientTs.calculateIntegrity.
  rewrite (subtleDigest_SHA384 P). destruct (fetch W url); reflexivity.
Qed.

(** X12.  [IntegrityModuleLoader]: a module added with [addModule] is
    verified by [importModule] only if the document held no import map
    before.  Added to an empty document under names other than
    [__proto__], the module is afterwards fetched, hashed and imported from
    its URL.  Added to a document that already has an import map script,
    the new script comes second and [getImportMap] keeps reading the first:
    [importModule] behaves for every specifier as it did before the call.
    And since [addModule] records the mapping before it awaits the fetch, a
    failed fetch rejects the call and injects nothing, but leaves the
    loader's map with the specifier mapped to the URL and its integrity
    table as it was. *)
Theorem loader_module_checked_only_in_first_map :
  forall (P : Platform) (W : Browser) (importMap : ImportMap)
         (specifier url : string),
    (forall response,
        fetch W url = Some response -> url <> "" ->
        specifier <> "__proto__" -> url <> "__proto__" ->
        let added := ClientTs.addModule P W importMap [] specifier url in
        ClientTs.settlement added
        = ([EvFetch url; EvDigest "SHA-384" (text response)], Resolved tt)
        /\ ClientTs.importModule P W (ClientTs.documentAfter added) specifier
           = ([EvFetch url; EvDigest "SHA-384" (text response); EvImport url],
              Resolved (ModuleAt url)))
    /\ (forall (first : ImportMap) (rest : ClientTs.Document) (s : string),
          let added :=
            ClientTs.addModule P W importMap (first :: rest) specifier url in
          ClientTs.importModule P W (ClientTs.documentAfter added) s
          = ClientTs.importModule P W (first :: rest) s)
    /\ (forall document : ClientTs.Document,
          fetch W url = None ->
          let added :=
            ClientTs.addModule P W importMap document specifier url in
          ClientTs.settlement added
          = ([EvFetch url], Rejected (TypeError "Failed to fetch"))
          /\ ClientTs.documentAfter added = document
          /\ (specifier <> "__proto__" ->
              exists table,
                imports (ClientTs.loaderMap added) = Some table
                /\ Obj.get specifier table = Some url)
          /\ integrity (ClientTs.loaderMap added)
             = Some match integrity importMap with
                    | Some table => table
                    | None => []
                    end).
Proof.
  intros P W importMap specifier url. split; [|split].
  - intros response Hf Hne Hs Hu added. subst added. unfold ClientTs.addModule.
    rewrite clientTs_fetch_digest, Hf. cbv zeta.
    cbn [ClientTs.settlement ClientTs.documentAfter ClientTs.injectImportMap app].
    split; [reflexivity|].
    rewrite (assign_other specifier url _ Hs), (assign_other url _ _ Hu).
    set (digest := "sha384-" ++ btoa (sha384 P (text response))).
    set (updated := {| imports := _; scopes := _; integrity := _ |}).
    set (page := ClientTs.pageOf W [updated]).
    assert (Hres : ClientTs.resolveSpecifier page specifier = Js.Str url).
    { unfold ClientTs.resolveSpecifier, Client.resolveSpecifier,
        Client.getImportMap. cbn [page ClientTs.pageOf importMapScript hd_error
                                  updated imports].
      rewrite (index_own _ _ url) by apply get_set_same.
      unfold Js.orDefault. now rewrite (isTruthy_Str url Hne). }
    assert (Hget : ClientTs.getIntegrityForUrl page (Js.Str url)
                   = Js.Str digest).
    { unfold ClientTs.getIntegrityForUrl, Client.getIntegrityForUrl,
        Client.getImportMap, Client.integrityAt.
      cbn [page ClientTs.pageOf importMapScript hd_error updated integrity].
      apply index_own. apply get_set_same. }
    assert (Hd : digest <> "") by discriminate.
    pose proof (proj1 (clientTs_direct_checked P page specifier)) as Hrun.
    cbv zeta in Hrun. rewrite Hres in Hrun.
    unfold ClientTs.importModule. fold page.
    rewrite (Hrun digest Hget Hd).
    change (Js.startsWith "sha384-" digest)
      with (String.prefix "sha384-"
              ("sha384-" ++ btoa (sha384 P (text response)))).
    rewrite prefix_app.
    change (textOf page (Js.Str url)) with url.
    change (fetch page url) with (fetch W url). rewrite Hf.
    fold digest. now rewrite String.eqb_refl.
  - intros first rest s added. subst added. unfold ClientTs.addModule.
    destruct (ClientTs.fetchAndCalculateIntegrity P W url) as [t [digest|e]];
      reflexivity.
  - intros document Hf added. subst added.
    unfold ClientTs.addModule. rewrite clientTs_fetch_digest, Hf. cbv zeta.
    cbn [ClientTs.settlement ClientTs.documentAfter ClientTs.loaderMap
         imports integrity].
    split; [reflexivity|]. split; [reflexivity|]. split; [|reflexivity].
    intros Hs. eexists. split; [reflexivity|].
    rewrite (assign_other specifier url _ Hs). apply get_set_same.
Qed.

Lemma loader_module_checked_only_in_first_map_witness :
  ClientTs.importModule Reference.platform Examples.directPage
    (ClientTs.documentAfter
       (ClientTs.addModule Reference.platform Examples.directPage
          Samples.emptyMap [] "f" "log?name=F")) "f"
  = ([EvFetch "log?name=F"; EvDigest "SHA-384" Examples.moduleF;
      EvImport "log?name=F"], Resolved (ModuleAt "log?name=F"))
  /\ ClientTs.importModule Reference.platform Examples.directPage
       (ClientTs.documentAfter
          (ClientTs.addModule Reference.platform Examples.directPage
             Samples.emptyMap [Samples.emptyMap] "f" "log?name=F")) "f"
     = ([EvImport "f"], Resolved (ModuleAt "f"))
  /\ integrity
       (ClientTs.loaderMap
          (ClientTs.addModule Reference.platform Examples.directPage
             Samples.emptyMap [] "gone" "log?name=X"))
     = Some [].
Proof.
  destruct (loader_module_checked_only_in_first_map Reference.platform
              Examples.directPage Samples.emptyMap "f" "log?name=F")
    as (Hfirst & Hlater & _).
  split; [|split].
  - exact (proj2 (Hfirst (Reference.okResponse Examples.moduleF) eq_refl
                    ltac:(discriminate) ltac:(discriminate)
                    ltac:(discriminate))).
  - rewrite (Hlater Samples.emptyMap [] "f"). vm_compute. reflexivity.
  - destruct (loader_module_checked_only_in_first_map Reference.platform
                Examples.directPage Samples.emptyMap "gone" "log?name=X")
      as (_ & _ & Hfailed).
    exact (proj2 (proj2 (proj2 (Hfailed [] eq_refl)))).
Defined.

(** X13.  The SHA-384-only client fails closed.  When the digest it
    settles on for a URL is a non-empty string, [importWithIntegrity]
    resolves only if the digest is tagged [sha384-], a [window] exists, the
    fetch gave an OK response and the digest string of its body equals the
    expected one; then the trace is fetch, digest, import.  Every other run
    is rejected with the integrity error and imports nothing. *)
Theorem client_import_sound :
  forall (P : Platform) (W : Browser) (specifier : string) (m : ImportMap)
         (h : string),
    let url := Client.resolveSpecifier W specifier in
    let u := textOf W url in
    importMapScript W = Some m ->
    Client.expectedIntegrity W m url = Js.Str h -> h <> "" ->
    (forall t namespace,
        Client.importWithIntegrity P W specifier = (t, Resolved namespace) ->
        exists response,
          Js.startsWith "sha384-" h = true
          /\ hasWindow W = true
          /\ fetch W u = Some response
          /\ ok response = true
          /\ h = "sha384-" ++ btoa (sha384 P (text response))
          /\ t = [EvFetch u; EvDigest "SHA-384" (text response); EvImport u]
          /\ namespace = ModuleAt u)
    /\ (forall t reason,
          Client.importWithIntegrity P W specifier = (t, Rejected reason) ->
          reason = Error ("Integrity check failed for module: " ++ u)
          /\ forall imported, ~ In (EvImport imported) t).
Proof.
  intros P W specifier m h url u Hm He Hne.
  pose proof (client_import_run P W m specifier h Hm He Hne) as Hrun.
  cbv zeta in Hrun. fold url in Hrun. fold u in Hrun.
  rewrite Hrun. clear Hrun. split.
  - intros t namespace Hres.
    destruct (Js.startsWith "sha384-" h) eqn:Htag; [|discriminate].
    cbn [negb] in Hres.
    destruct (fetch W u) as [response|]; [|discriminate].
    destruct (ok response) eqn:Hok; [|discriminate].
    destruct (hasWindow W) eqn:Hwin; [|discriminate]. cbn [negb orb] in Hres.
    destruct (String.eqb_spec ("sha384-" ++ btoa (sha384 P (text response))) h)
      as [Heq|]; [|discriminate].
    injection Hres as <- <-. exists response.
    split; [reflexivity|]. split; [reflexivity|]. split; [reflexivity|].
    split; [exact Hok|]. split; [now symmetry|]. split; reflexivity.
  - intros t reason Hrej.
    assert (H2 : forall x c imported,
               ~ In (EvImport imported) [EvFetch x; EvDigest "SHA-384" c]).
    { intros x c imported [H|[H|[]]]; discriminate H. }
    assert (H1 : forall x imported, ~ In (EvImport imported) [EvFetch x]).
    { intros x imported [H|[]]; discriminate H. }
    destruct (negb (Js.startsWith "sha384-" h)).
    { injection Hrej as <- <-. split; [reflexivity | intros i []]. }
    destruct (fetch W u) as [response|].
    + destruct (negb (ok response) || negb (hasWindow W)).
      * injection Hrej as <- <-. split; [reflexivity | intros i; apply H1].
      * destruct (String.eqb _ h); [discriminate|].
        injection Hrej as <- <-. split; [reflexivity | intros i; apply H2].
    + injection Hrej as <- <-. split; [reflexivity | intros i; apply H1].
Qed.

Lemma client_import_sound_witness :
  exists response,
    fetch Examples.directPage "log?name=F" = Some response
    /\ ok response = true
    /\ Examples.digestF
       = "sha384-" ++ btoa (sha384 Reference.platform (text response)).
Proof.
  assert (Hrun :
            Client.importWithIntegrity Reference.platform Examples.directPage
              "log?name=G"
            = ([EvFetch "log?name=F"; EvDigest "SHA-384" Examples.moduleF;
                EvImport "log?name=F"], Resolved (ModuleAt "log?name=F")))
    by (vm_compute; reflexivity).
  destruct (client_import_sound Reference.platform Examples.directPage
              "log?name=G" Examples.directMap Examples.digestF eq_refl eq_refl
              ltac:(discriminate)) as [Hsound _].
  destruct (Hsound _ _ Hrun) as (response & _ & _ & Hf & Hok & Hd & _).
  exists response. split; [exact Hf|]. split; [exact Hok | exact Hd].
Defined.

(** X14.  The earlier client module passes the digest's tag in upper case
    to [crypto.subtle.digest].  On a platform that knows digests only under
    names containing a dash, as WebCrypto does, that call throws: every
    import of a module for which the client settles on a non-empty digest
    string is rejected, whatever the module's content. *)
Theorem legacy_client_always_rejects :
  forall (P : Platform) (W : Browser) (specifier : string) (m : ImportMap)
         (h : string),
    let url := ClientLegacy.resolveSpecifier W specifier in
    let u := textOf W url in
    (forall name, Js.mentions "-" name = false -> subtleDigest P name = None) ->
    importMapScript W = Some m ->
    Client.expectedIntegrity W m url = Js.Str h -> h <> "" ->
    settled (ClientLegacy.importWithIntegrity P W specifier)
    = Rejected (Error ("Integrity check failed for module: " ++ u))
    /\ forall imported,
         ~ In (EvImport imported)
              (trace (ClientLegacy.importWithIntegrity P W specifier)).
Proof.
  intros P W specifier m h url u Hdash Hm He Hne.
  unfold ClientLegacy.importWithIntegrity. fold url. fold u.
  unfold ClientLegacy.hasIntegrityConstraint.
  rewrite (hasIntegrityConstraint_expected W m url Hm), He.
  rewrite (isTruthy_Str h Hne).
  rewrite (legacy_verify_run P W m url h Hm He Hne). fold u.
  rewrite (Hdash (Js.toUpperCase (Js.splitHead "-" h)))
    by (rewrite mentions_toUpperCase; apply mentions_splitHead).
  assert (Hclean : forall imported, ~ In (EvImport imported) [EvFetch u]).
  { intros imported [H|[]]; discriminate H. }
  destruct (fetch W u) as [response|]; [|split; [reflexivity|exact Hclean]].
  destruct (negb (ok response) || negb (hasWindow W));
    split; try reflexivity; exact Hclean.
Qed.

Lemma legacy_client_always_rejects_witness :
  settled (ClientLegacy.importWithIntegrity Reference.platform
             Examples.directPage "log?name=G")
  = Rejected (Error "Integrity check failed for module: log?name=F").
Proof.
  exact (proj1 (legacy_client_always_rejects Reference.platform
                  Examples.directPage "log?name=G" Examples.directMap
                  Examples.digestF webcrypto_names_have_a_dash eq_refl eq_refl
                  ltac:(discriminate))).
Defined.


(** ** Soundness of the validators *)

Section ValidatorSoundness.
Context (P : Platform) (D : Disk) (distDir : string).

(** The loop never drops a failure record, and if it adds none then every
    entry it saw passed. *)
Lemma next_loop_sound (entries : ImportMapEntry) :
  forall r0 t r,
    Validator.validateEntries P D distDir entries r0 = (t, Resolved r) ->
    length (Validator.failures r0) <= length (Validator.failures r)
    /\ (length (Validator.failures r) = length (Validator.failures r0) ->
        forall url h, In (url, h) entries ->
          exists fullPath content,
            fullPathOf P distDir url = ret fullPath
            /\ file D fullPath = Some content
            /\ h = "sha384-" ++ Base64.encode (sha384 P content)).
Proof.
  unfold Validator.validateEntries.
  induction entries as [|[url h] rest IH]; intros r0 t r Hrun.
  - injection Hrun as _ <-. split; [lia|]. intros _ ? ? [].
  - cbn [forEach] in Hrun.
    assert (Hgrow : forall f r1,
               length (Validator.failures
                         (Validator.incFailed f (Validator.incTotal r1)))
               = S (length (Validator.failures r1))).
    { intros f r1. cbn. rewrite length_app. cbn. lia. }
    assert (Hgrow' : forall f r1,
               length (Validator.failures
                         (Validator.incMissing f (Validator.incTotal r1)))
               = S (length (Validator.failures r1))).
    { intros f r1. cbn. rewrite length_app. cbn. lia. }
    destruct (Js.startsWith "sha384-" h) eqn:Htag.
    + destruct (fullPathOf_cases P distDir url) as [[fp Hfp]|Hthrow].
      * destruct (file D fp) as [content|] eqn:Hfile.
        -- rewrite (next_entry_present P D distDir url h fp content r0 Htag Hfp Hfile)
            in Hrun.
           rewrite bind_resolved in Hrun.
           destruct (forEach (Validator.validateEntry P D distDir) rest _)
             as [t' [r'|e]] eqn:Hrest; [|discriminate].
           cbn [fst snd] in Hrun. injection Hrun as _ <-.
           destruct (IH _ _ _ Hrest) as [Hle Hall].
           destruct (String.eqb_spec
                       ("sha384-" ++ Base64.encode (sha384 P content)) h)
             as [Heq|Hneq].
           ++ cbn in Hle. split; [exact Hle|].
              intros Hsame url' h' [Hhead|Hin].
              ** injection Hhead as <- <-. exists fp, content.
                 split; [exact Hfp|]. split; [exact Hfile | now symmetry].
              ** apply Hall; [exact Hsame | exact Hin].
           ++ rewrite Hgrow in Hle. split; [lia|]. intros Hsame. lia.
        -- rewrite (next_entry_missing P D distDir url h fp r0 Htag Hfp Hfile)
            in Hrun.
           rewrite bind_ret_l in Hrun.
           destruct (IH _ _ _ Hrun) as [Hle _]. rewrite Hgrow' in Hle.
           split; [lia|]. intros Hsame. lia.
      * unfold Validator.validateEntry in Hrun. cbv zeta in Hrun.
        change (Validator.algorithm ++ "-") with "sha384-" in Hrun.
        rewrite Htag, Hthrow in Hrun. discriminate Hrun.
    + rewrite (next_entry_foreign P D distDir url h r0 Htag) in Hrun.
      rewrite bind_ret_l in Hrun.
      destruct (IH _ _ _ Hrun) as [Hle _]. rewrite Hgrow in Hle.
      split; [lia|]. intros Hsame. lia.
Qed.

Lemma build_loop_sound (entries : ImportMapEntry) :
  forall r0 t r,
    BuildValidator.validateEntries P D distDir entries r0 = (t, Resolved r) ->
    length (BuildValidator.failures r0) <= length (BuildValidator.failures r)
    /\ (length (BuildValidator.failures r) = length (BuildValidator.failures r0) ->
        (forall url h, In (url, h) entries ->
           exists fullPath content hash,
             fullPathOf P distDir url = ret fullPath
             /\ file D fullPath = Some content
             /\ createHash P (Js.splitHead "-" h) = Some hash
             /\ h = Js.splitHead "-" h ++ "-"
                      ++ Base64.encode (hash (decodeUtf8 P content)))
        /\ BuildValidator.total r = BuildValidator.total r0 + length entries
        /\ BuildValidator.passed r = BuildValidator.passed r0 + length entries
        /\ BuildValidator.failed r = BuildValidator.failed r0
        /\ BuildValidator.missing r = BuildValidator.missing r0).
Proof.
  unfold BuildValidator.validateEntries.
  induction entries as [|[url h] rest IH]; intros r0 t r Hrun.
  - injection Hrun as _ <-. split; [lia|]. intros _.
    split; [intros ? ? []|]. cbn [length]. repeat split; lia.
  - cbn [forEach] in Hrun.
    assert (Hgrow : forall f r1,
               length (BuildValidator.failures
                         (BuildValidator.incFailed f (BuildValidator.incTotal r1)))
               = S (length (BuildValidator.failures r1))).
    { intros f r1. cbn. rewrite length_app. cbn. lia. }
    assert (Hgrow' : forall f r1,
               length (BuildValidator.failures
                         (BuildValidator.incMissing f (BuildValidator.incTotal r1)))
               = S (length (BuildValidator.failures r1))).
    { intros f r1. cbn. rewrite length_app. cbn. lia. }
    destruct (fullPathOf_cases P distDir url) as [[fp Hfp]|Hthrow].
    + destruct (file D fp) as [content|] eqn:Hfile.
      * rewrite (build_entry_present P D distDir url h fp content r0 Hfp Hfile)
          in Hrun.
        cbv zeta in Hrun.
        destruct (createHash P (Js.splitHead "-" h)) as [hash|] eqn:Hhash;
          [|discriminate].
        rewrite bind_resolved in Hrun.
        destruct (forEach (BuildValidator.validateEntry P D distDir) rest _)
          as [t' [r'|e]] eqn:Hrest; [|discriminate].
        cbn [fst snd] in Hrun. injection Hrun as _ <-.
        destruct (IH _ _ _ Hrest) as [Hle Hall].
        destruct (String.eqb_spec
                    (Js.splitHead "-" h ++ "-"
                       ++ Base64.encode (hash (decodeUtf8 P content))) h)
          as [Heq|Hneq].
        -- cbn in Hle. split; [exact Hle|].
           intros Hsame. destruct (Hall Hsame) as (Hin & Ht & Hp & Hf & Hm).
           cbn in Ht, Hp, Hf, Hm. split.
           ++ intros url' h' [Hhead|Hrest'].
              ** injection Hhead as <- <-. exists fp, content, hash.
                 split; [exact Hfp|]. split; [exact Hfile|].
                 split; [exact Hhash | now symmetry].
              ** now apply Hin.
           ++ cbn [length]. repeat split; lia.
        -- rewrite Hgrow in Hle. split; [lia|]. intros Hsame. lia.
      * rewrite (build_entry_missing P D distDir url h fp r0 Hfp Hfile) in Hrun.
        rewrite bind_ret_l in Hrun.
        destruct (IH _ _ _ Hrun) as [Hle _]. rewrite Hgrow' in Hle.
        split; [lia|]. intros Hsame. lia.
    + unfold BuildValidator.validateEntry in Hrun. cbv zeta in Hrun.
      rewrite Hthrow in Hrun. discriminate Hrun.
Qed.

End ValidatorSoundness.

(** X15.  [validateNextJSBuildIntegrity] reports success only for a build
    that is intact: if it settles with [success] true, then the import map
    has a non-empty integrity table and, for every entry, there is a file
    at the path the validator derives from the key and [distDir], and the
    SHA-384 digest string of its content equals the declared value. *)
Theorem validator_success_sound :
  forall (P : Platform) (D : Disk) (config : Validator.ValidatorConfig)
         (t : list event) (r : Validator.Results),
    let dist := Js.orElse (Validator.distDir config) ".next" in
    let mapPath :=
      path_join P dist (Js.orElse (Validator.importMapPath config)
                                  "importmap.json") in
    Validator.validateNextJSBuildIntegrity P D config = (t, Resolved r) ->
    Validator.success r = true ->
    exists m table,
      json D mapPath = Some m
      /\ integrity m = Some table
      /\ table <> []
      /\ forall url h, In (url, h) table ->
           exists fullPath content,
             fullPathOf P dist url = ret fullPath
             /\ file D fullPath = Some content
             /\ h = "sha384-" ++ Base64.encode (sha384 P content).
Proof.
  intros P D config t r dist mapPath.
  unfold Validator.validateNextJSBuildIntegrity. fold dist. fold mapPath.
  destruct (file D mapPath); [|discriminate].
  destruct (json D mapPath) as [m|]; [|discriminate].
  destruct (integrity m) as [[|entry rest]|] eqn:Hint; try discriminate.
  intros Hrun Hsuccess. unfold emit in Hrun. rewrite bind_resolved in Hrun.
  destruct (Validator.validateEntries P D dist (entry :: rest) Validator.initial)
    as [tl [results|e]] eqn:Hloop; [|discriminate Hrun].
  rewrite bind_resolved in Hrun. cbn [fst snd] in Hrun.
  destruct (next_loop_sound P D dist _ _ _ _ Hloop) as [_ Hall].
  destruct (Nat.ltb 0 (length (Validator.failures results))) eqn:Hlen;
    cbn [fst snd ret] in Hrun; injection Hrun as _ <-;
    [discriminate Hsuccess|].
  apply Nat.ltb_ge in Hlen.
  exists m, (entry :: rest). split; [reflexivity|]. split; [exact Hint|].
  split; [discriminate|]. apply Hall. cbn [Validator.failures Validator.initial length].
  lia.
Qed.

Lemma validator_success_sound_witness :
  exists fullPath content,
    fullPathOf Reference.platform "." "/a.js" = ret fullPath
    /\ file Examples.sourceDisk fullPath = Some content
    /\ Examples.digestA
       = "sha384-" ++ Base64.encode (sha384 Reference.platform content).
Proof.
  assert (Hrun :
            Validator.validateNextJSBuildIntegrity Reference.platform
              Examples.sourceDisk Examples.inPlace
            = ([EvRead "importmap.json";
                EvRead "a.js"; EvDigest "sha384" Examples.moduleA;
                EvRead "lib/b.js"; EvDigest "sha384" Examples.moduleB],
               Resolved {| Validator.total := 2; Validator.passed := 2;
                           Validator.failed := 0; Validator.missing := 0;
                           Validator.failures := [];
                           Validator.success := true |}))
    by (vm_compute; reflexivity).
  destruct (validator_success_sound Reference.platform Examples.sourceDisk
              Examples.inPlace _ _ Hrun eq_refl)
    as (m & table & Hjson & Htable & _ & Hall).
  vm_compute in Hjson. injection Hjson as <-.
  injection Htable as <-.
  exact (Hall "/a.js" Examples.digestA (or_introl eq_refl)).
Defined.

(** X16.  [validateBuildOutput] returns normally only for a build in which
    every integrity entry passed: the file exists and the digest of its
    text (the file read as UTF-8), computed with the algorithm named by the
    entry's own tag, reproduces the entry.  With a failed or missing entry
    the run does not return normally. *)
Theorem validateBuildOutput_sound :
  forall (P : Platform) (D : Disk) (distDir : string)
         (t : list event) (r : BuildValidator.Results),
    BuildValidator.validateBuildOutput P D distDir = (t, Resolved r) ->
    exists m table,
      json D (path_join P distDir "importmap.json") = Some m
      /\ integrity m = Some table
      /\ table <> []
      /\ (forall url h, In (url, h) table ->
            exists fullPath content hash,
              fullPathOf P distDir url = ret fullPath
              /\ file D fullPath = Some content
              /\ createHash P (Js.splitHead "-" h) = Some hash
              /\ h = Js.splitHead "-" h ++ "-"
                       ++ Base64.encode (hash (decodeUtf8 P content)))
      /\ BuildValidator.total r = length table
      /\ BuildValidator.passed r = length table
      /\ BuildValidator.failed r = 0
      /\ BuildValidator.missing r = 0
      /\ BuildValidator.failures r = [].
Proof.
  intros P D distDir t r.
  unfold BuildValidator.validateBuildOutput. cbv zeta.
  destruct (file D (path_join P distDir "importmap.json")); [|discriminate].
  destruct (json D (path_join P distDir "importmap.json")) as [m|];
    [|discriminate].
  destruct (integrity m) as [[|entry rest]|] eqn:Hint; try discriminate.
  intros Hrun. unfold emit in Hrun. rewrite bind_resolved in Hrun.
  destruct (BuildValidator.validateEntries P D distDir (entry :: rest)
              BuildValidator.initial)
    as [tl [results|e]] eqn:Hloop; [|discriminate Hrun].
  rewrite bind_resolved in Hrun. cbn [fst snd] in Hrun.
  destruct (build_loop_sound P D distDir _ _ _ _ Hloop) as [_ Hall].
  destruct (Nat.ltb 0 (length (BuildValidator.failures results))) eqn:Hlen;
    cbn [fst snd ret throw] in Hrun; [discriminate Hrun|].
  injection Hrun as _ <-.
  apply Nat.ltb_ge in Hlen.
  assert (Hnil : BuildValidator.failures results = []).
  { destruct (BuildValidator.failures results); [reflexivity | cbn in Hlen; lia]. }
  destruct Hall as (Hin & Ht & Hp & Hf & Hm).
  { rewrite Hnil. reflexivity. }
  exists m, (entry :: rest). split; [reflexivity|]. split; [exact Hint|].
  split; [discriminate|]. split; [exact Hin|].
  cbn in Ht, Hp, Hf, Hm. cbn [length]. repeat split; try lia. exact Hnil.
Qed.

Lemma validateBuildOutput_sound_witness :
  exists fullPath content hash,
    fullPathOf Reference.platform "dist" "/a.js" = ret fullPath
    /\ file Examples.sha256Disk fullPath = Some content
    /\ createHash Reference.platform (Js.splitHead "-" Examples.digestA256)
       = Some hash
    /\ Examples.digestA256
       = Js.splitHead "-" Examples.digestA256 ++ "-"
           ++ Base64.encode (hash (decodeUtf8 Reference.platform content)).
Proof.
  assert (Hrun :
            BuildValidator.validateBuildOutput Reference.platform
              Examples.sha256Disk "dist"
            = ([EvRead "dist/importmap.json"; EvRead "dist/a.js";
                EvDigest "sha256" Examples.moduleA],
               Resolved {| BuildValidator.total := 1; BuildValidator.passed := 1;
                           BuildValidator.failed := 0;
                           BuildValidator.missing := 0;
                           BuildValidator.failures := [] |}))
    by (vm_compute; reflexivity).
  destruct (validateBuildOutput_sound Reference.platform Examples.sha256Disk
              "dist" _ _ Hrun)
    as (m & table & Hjson & Htable & _ & Hall & _).
  vm_compute in Hjson. injection Hjson as <-.
  injection Htable as <-.
  exact (Hall "/a.js" Examples.digestA256 (or_introl eq_refl)).
Defined.


(** ** The Vite plugin and [validateBuildOutput] *)

Lemma splitHead_tag (algorithm rest : string) :
  Js.mentions "-" algorithm = false ->
  Js.splitHead "-" (algorithm ++ "-" ++ rest) = algorithm.
Proof.
  induction algorithm as [|c a IH]; cbn [Js.mentions]; intros H.
  - reflexivity.
  - apply orb_false_iff in H. destruct H as [Hc Ha].
    change ((String c a) ++ "-" ++ rest) with (String c (a ++ "-" ++ rest)).
    cbn [Js.splitHead]. rewrite Hc. now rewrite (IH Ha).
Qed.

Lemma append_injective (base a b : string) : base ++ a = base ++ b -> a = b.
Proof.
  induction base as [|c base IH]; cbn [append]; intros H; [exact H|].
  injection H as H. exact (IH H).
Qed.

Section ViteFacts.
Context (P : Platform) (D : Disk) (options : Vite.ModuleIntegrityOptions)
        (base : string) (hash : string -> string)
        (Hhash : createHash P (Vite.algorithmOf options) = Some hash).

Lemma addAsset_included (importMap : Tables) (fileName content : string)
      (asset : Vite.OutputItem) :
  Vite.included options fileName = true ->
  Vite.contentOf asset = Some content ->
  exists importMap',
    Vite.addAsset P options base importMap (fileName, asset)
    = ([EvDigest (Vite.algorithmOf options) content], Resolved importMap')
    /\ integrityOf importMap'
       = Obj.set (base ++ fileName)
           (Vite.algorithmOf options ++ "-" ++ Base64.encode (hash content))
           (integrityOf importMap).
Proof.
  intros Hin Hc. unfold Vite.addAsset. rewrite Hin, Hc, Hhash. cbn [negb].
  eexists. split; reflexivity.
Qed.

Lemma addAsset_skipped (importMap : Tables) (fileName : string)
      (asset : Vite.OutputItem) :
  Vite.included options fileName = false \/ Vite.contentOf asset = None ->
  Vite.addAsset P options base importMap (fileName, asset) = ret importMap.
Proof.
  intros H. unfold Vite.addAsset.
  destruct (Vite.included options fileName); cbn [negb]; [|reflexivity].
  destruct H as [H|H]; [discriminate|]. now rewrite H.
Qed.

Lemma vite_loop (bundle : list (string * Vite.OutputItem)) :
  forall importMap : Tables,
  exists t importMap',
    forEach (Vite.addAsset P options base) bundle importMap
    = (t, Resolved importMap')
    /\ (forall key value,
          In (key, value) (integrityOf importMap') ->
          In (key, value) (integrityOf importMap)
          \/ exists fileName asset content,
               In (fileName, asset) bundle
               /\ Vite.included options fileName = true
               /\ Vite.contentOf asset = Some content
               /\ key = base ++ fileName
               /\ value = Vite.algorithmOf options ++ "-"
                            ++ Base64.encode (hash content))
    /\ (forall key,
          (forall fileName asset, In (fileName, asset) bundle ->
                                  key <> base ++ fileName) ->
          Obj.get key (integrityOf importMap') = Obj.get key (integrityOf importMap))
    /\ (NoDup (Obj.keys bundle) ->
        forall fileName asset content,
          In (fileName, asset) bundle ->
          Vite.included options fileName = true ->
          Vite.contentOf asset = Some content ->
          Obj.get (base ++ fileName) (integrityOf importMap')
          = Some (Vite.algorithmOf options ++ "-" ++ Base64.encode (hash content))).
Proof.
  induction bundle as [|[fileName asset] rest IH]; intros importMap.
  - exists [], importMap. split; [reflexivity|]. split; [now left|].
    split; [trivial|]. intros _ ? ? ? [].
  - cbn [forEach].
    destruct (Vite.included options fileName) eqn:Hin;
      [destruct (Vite.contentOf asset) as [content|] eqn:Hc|].
    + destruct (addAsset_included importMap fileName content asset Hin Hc)
        as (step & Hstep & Hinteg).
      destruct (IH step) as (t & final & Hrun & Hfrom & Hkeep & Hhit).
      rewrite Hstep, bind_resolved, Hrun. cbn [fst snd].
      eexists. exists final. split; [reflexivity|]. split; [|split].
      * intros key value Hkv. destruct (Hfrom key value Hkv) as [Hold|Hnew].
        -- rewrite Hinteg in Hold.
           destruct (set_In _ _ _ _ _ Hold) as [Heq|Holder]; [|now left].
           injection Heq as -> ->. right. exists fileName, asset, content.
           split; [now left|]. now repeat split.
        -- destruct Hnew as (f & a & c & Hf & Hi & Hcc & -> & ->).
           right. exists f, a, c. split; [now right|]. now repeat split.
      * intros key Hfresh. rewrite Hkeep, Hinteg.
        -- apply get_set_other. exact (Hfresh fileName asset (or_introl eq_refl)).
        -- intros f a Hf. exact (Hfresh f a (or_intror Hf)).
      * intros Hnd f a c [Heq|Hf] Hi Hcc.
        -- injection Heq as <- <-. rewrite Hc in Hcc. injection Hcc as <-.
           rewrite Hkeep, Hinteg; [apply get_set_same|].
           intros f a Hf Heq. apply append_injective in Heq. subst f.
           inversion Hnd as [|? ? Hnot _]; subst. apply Hnot.
           unfold Obj.keys. change fileName with (fst (fileName, a)).
           now apply in_map.
        -- inversion Hnd as [|? ? _ Hrest]; subst.
           exact (Hhit Hrest f a c Hf Hi Hcc).
    + rewrite (addAsset_skipped importMap fileName asset (or_intror Hc)).
      rewrite bind_ret_l.
      destruct (IH importMap) as (t & final & Hrun & Hfrom & Hkeep & Hhit).
      exists t, final. split; [exact Hrun|]. split; [|split].
      * intros key value Hkv. destruct (Hfrom key value Hkv) as [Hold|Hnew];
          [now left|].
        destruct Hnew as (f & a & c & Hf & Hrest). right. exists f, a, c.
        split; [now right | exact Hrest].
      * intros key Hfresh. apply Hkeep.
        intros f a Hf. exact (Hfresh f a (or_intror Hf)).
      * intros Hnd f a c [Heq|Hf] Hi Hcc.
        -- injection Heq as <- <-. rewrite Hc in Hcc. discriminate Hcc.
        -- inversion Hnd as [|? ? _ Hrest]; subst.
           exact (Hhit Hrest f a c Hf Hi Hcc).
    + rewrite (addAsset_skipped importMap fileName asset (or_introl Hin)).
      rewrite bind_ret_l.
      destruct (IH importMap) as (t & final & Hrun & Hfrom & Hkeep & Hhit).
      exists t, final. split; [exact Hrun|]. split; [|split].
      * intros key value Hkv. destruct (Hfrom key value Hkv) as [Hold|Hnew];
          [now left|].
        destruct Hnew as (f & a & c & Hf & Hrest). right. exists f, a, c.
        split; [now right | exact Hrest].
      * intros key Hfresh. apply Hkeep.
        intros f a Hf. exact (Hfresh f a (or_intror Hf)).
      * intros Hnd f a c [Heq|Hf] Hi Hcc.
        -- injection Heq as <- <-. rewrite Hin in Hi. discriminate Hi.
        -- inversion Hnd as [|? ? _ Hrest]; subst.
           exact (Hhit Hrest f a c Hf Hi Hcc).
Qed.

(** Entries whose files hold the text their digest was computed from,
    with the algorithm their tag names, all pass [validateBuildOutput]'s
    loop. *)
Lemma build_entries_all_pass (distDir : string) (entries : ImportMapEntry) :
  Js.mentions "-" (Vite.algorithmOf options) = false ->
  (forall url h, In (url, h) entries ->
     exists content fullPath,
       h = Vite.algorithmOf options ++ "-"
             ++ Base64.encode (hash (decodeUtf8 P content))
       /\ fullPathOf P distDir url = ret fullPath
       /\ file D fullPath = Some content) ->
  forall r, exists t,
    BuildValidator.validateEntries P D distDir entries r
    = (t, Resolved
            {| BuildValidator.total := BuildValidator.total r + length entries;
               BuildValidator.passed := BuildValidator.passed r + length entries;
               BuildValidator.failed := BuildValidator.failed r;
               BuildValidator.missing := BuildValidator.missing r;
               BuildValidator.failures := BuildValidator.failures r |}).
Proof.
  intros Hdash. unfold BuildValidator.validateEntries.
  induction entries as [|[url h] rest IH]; intros Hall r.
  - exists []. destruct r. cbn. rewrite !Nat.add_0_r. reflexivity.
  - destruct (Hall url h (or_introl eq_refl)) as (content & fp & -> & Hp & Hf).
    cbn [forEach].
    rewrite (build_entry_present P D distDir url _ fp content r Hp Hf).
    cbv zeta. rewrite (splitHead_tag _ _ Hdash), Hhash, String.eqb_refl.
    destruct (IH (fun u k Hin => Hall u k (or_intror Hin))
                 (BuildValidator.incPassed (BuildValidator.incTotal r)))
      as [t Ht].
    rewrite bind_resolved, Ht. cbn [fst snd]. eexists. f_equal. f_equal.
    cbn. f_equal; lia.
Qed.

End ViteFacts.

(** X17.  [generateBundle] gives a digest to exactly the bundle entries
    whose file name ends in one of the configured extensions: when Node knows
    the configured algorithm the loop completes, every integrity key is an
    earlier one or [base + fileName] of such an entry, and (file names being
    distinct) each such entry has the digest string of its own content,
    tagged with the algorithm, under that key. *)
Theorem generateBundle_covers :
  forall (P : Platform) (options : Vite.ModuleIntegrityOptions) (base : string)
         (hash : string -> string) (bundle : list (string * Vite.OutputItem))
         (importMap : Tables),
    createHash P (Vite.algorithmOf options) = Some hash ->
    exists t importMap',
      Vite.generateBundle P options base bundle importMap
      = (t, Resolved (importMap',
                      (Vite.importMapPathOf options, toImportMap importMap')))
      /\ (forall key,
            Obj.has key (integrityOf importMap') = true ->
            Obj.has key (integrityOf importMap) = true
            \/ exists fileName asset,
                 In (fileName, asset) bundle
                 /\ Vite.included options fileName = true
                 /\ key = base ++ fileName)
      /\ (NoDup (Obj.keys bundle) ->
          forall fileName asset content,
            In (fileName, asset) bundle ->
            Vite.included options fileName = true ->
            Vite.contentOf asset = Some content ->
            Obj.get (base ++ fileName) (integrityOf importMap')
            = Some (Vite.algorithmOf options ++ "-"
                      ++ Base64.encode (hash content))).
Proof.
  intros P options base hash bundle importMap Hhash.
  destruct (vite_loop P options base hash Hhash bundle importMap)
    as (t & final & Hrun & Hfrom & _ & Hhit).
  exists t, final. split; [|split].
  - unfold Vite.generateBundle. rewrite Hrun, bind_resolved.
    cbn [ret fst snd]. now rewrite app_nil_r.
  - intros key Hkey. unfold Obj.has in Hkey.
    destruct (Obj.get key (integrityOf final)) as [value|] eqn:Hget;
      [|discriminate].
    destruct (Hfrom key value (get_In _ _ _ Hget))
      as [Hold|(f & a & c & Hf & Hi & _ & -> & _)].
    + left. unfold Obj.has.
      destruct (keys_get key (integrityOf importMap)) as [v Hv].
      * unfold Obj.keys. change key with (fst (key, value)). now apply in_map.
      * now rewrite Hv.
    + right. now exists f, a.
  - exact Hhit.
Qed.

Lemma generateBundle_covers_witness :
  exists t importMap',
    Vite.generateBundle Reference.platform Samples.viteOptions "/"
      Samples.bundle Vite.fresh
    = (t, Resolved (importMap', ("importmap.json", toImportMap importMap')))
    /\ Obj.get "/assets/a.js" (integrityOf importMap')
       = Some Examples.digestA256.
Proof.
  destruct (generateBundle_covers Reference.platform Samples.viteOptions "/"
              SHA2.sha256 Samples.bundle Vite.fresh eq_refl)
    as (t & final & Hrun & _ & Hhit).
  exists t, final. split; [exact Hrun|].
  change "/assets/a.js" with ("/" ++ "assets/a.js").
  rewrite (Hhit ltac:(repeat constructor; cbn [In]; intros H;
                      repeat destruct H as [H|H]; try discriminate H; exact H)
             "assets/a.js" (Vite.Chunk Examples.moduleA true) Examples.moduleA
             (or_introl eq_refl) eq_refl eq_refl).
  vm_compute. reflexivity.
Defined.

(** X18.  The Vite plugin and [validateBuildOutput] fit together for every
    algorithm Node knows whose name has no dash: when the map emitted by a
    new plugin instance is stored as [importmap.json] below [distDir] and
    every hashed bundle entry lies where the validator looks for
    [base + fileName], as a file whose text is the content that was hashed,
    the validator returns normally with every entry passed; a map without
    integrity entries makes it exit with code 1. *)
Theorem vite_then_validate :
  forall (P : Platform) (D : Disk) (options : Vite.ModuleIntegrityOptions)
         (base distDir mapText : string) (hash : string -> string)
         (bundle : list (string * Vite.OutputItem)),
    createHash P (Vite.algorithmOf options) = Some hash ->
    Js.mentions "-" (Vite.algorithmOf options) = false ->
    (forall t importMap emitted,
        Vite.generateBundle P options base bundle Vite.fresh
        = (t, Resolved (importMap, emitted)) ->
        file D (path_join P distDir "importmap.json") = Some mapText
        /\ json D (path_join P distDir "importmap.json") = Some (snd emitted)) ->
    (forall fileName asset content,
        In (fileName, asset) bundle ->
        Vite.included options fileName = true ->
        Vite.contentOf asset = Some content ->
        exists fullPath bytes,
          fullPathOf P distDir (base ++ fileName) = ret fullPath
          /\ file D fullPath = Some bytes
          /\ decodeUtf8 P bytes = content) ->
    exists t importMap,
      Vite.generateBundle P options base bundle Vite.fresh
      = (t, Resolved (importMap,
                      (Vite.importMapPathOf options, toImportMap importMap)))
      /\ (integrityOf importMap = [] ->
          BuildValidator.validateBuildOutput P D distDir
          = ([EvRead (path_join P distDir "importmap.json")],
             Rejected (ProcessExit 1)))
      /\ (integrityOf importMap <> [] ->
          exists t',
            BuildValidator.validateBuildOutput P D distDir
            = (t', Resolved
                     {| BuildValidator.total := length (integrityOf importMap);
                        BuildValidator.passed := length (integrityOf importMap);
                        BuildValidator.failed := 0;
                        BuildValidator.missing := 0;
                        BuildValidator.failures := [] |})).
Proof.
  intros P D options base distDir mapText hash bundle Hhash Hdash Hmap Hfiles.
  destruct (vite_loop P options base hash Hhash bundle Vite.fresh)
    as (t & final & Hrun & Hfrom & _ & _).
  assert (Hgen : Vite.generateBundle P options base bundle Vite.fresh
                 = (t, Resolved (final, (Vite.importMapPathOf options,
                                         toImportMap final)))).
  { unfold Vite.generateBundle. rewrite Hrun, bind_resolved.
    cbn [ret fst snd]. now rewrite app_nil_r. }
  exists t, final. split; [exact Hgen|].
  destruct (Hmap _ _ _ Hgen) as [Hfile Hjson]. cbn [snd] in Hjson.
  unfold BuildValidator.validateBuildOutput. cbv zeta.
  rewrite Hfile, Hjson. cbn [integrity toImportMap].
  split.
  - intros ->. reflexivity.
  - intros Hne.
    destruct (build_entries_all_pass P D options hash Hhash distDir
                (integrityOf final) Hdash)
      with (r := BuildValidator.initial) as [tv Hloop].
    { intros url h Hin.
      destruct (Hfrom url h Hin) as [[]|(f & a & c & Hf & Hi & Hc & -> & ->)].
      destruct (Hfiles f a c Hf Hi Hc) as (fp & bytes & Hfp & Hfc & Hdec).
      exists bytes, fp. rewrite Hdec. split; [reflexivity|].
      split; assumption. }
    destruct (integrityOf final) as [|entry table]; [contradiction|].
    unfold emit. rewrite bind_resolved, Hloop, bind_resolved.
    cbn [BuildValidator.failures BuildValidator.initial length Nat.ltb Nat.leb
         fst snd ret BuildValidator.total BuildValidator.passed
         BuildValidator.failed BuildValidator.missing Nat.add].
    eexists. reflexivity.
Qed.

Lemma vite_then_validate_witness :
  exists t,
    BuildValidator.validateBuildOutput Reference.platform Samples.viteDisk "dist"
    = (t, Resolved {| BuildValidator.total := 1; BuildValidator.passed := 1;
                      BuildValidator.failed := 0; BuildValidator.missing := 0;
                      BuildValidator.failures := [] |}).
Proof.
  assert (Hsample :
            Vite.generateBundle Reference.platform Samples.viteOptions "/"
              Samples.bundle Vite.fresh
            = ([EvDigest "sha256" Examples.moduleA],
               Resolved (Samples.viteMap,
                         ("importmap.json", toImportMap Samples.viteMap))))
    by (vm_compute; reflexivity).
  destruct (vite_then_validate Reference.platform Samples.viteDisk
              Samples.viteOptions "/" "dist" Examples.jsonText SHA2.sha256
              Samples.bundle eq_refl eq_refl)
    as (t & importMap & Hrun & _ & Hpass).
  - intros t importMap emitted Hrun. rewrite Hsample in Hrun.
    injection Hrun as _ _ <-. split; reflexivity.
  - intros fileName asset content Hin Hincluded Hcontent.
    destruct Hin as [H|[H|[H|[]]]]; injection H as <- <-;
      try discriminate Hincluded; try discriminate Hcontent;
      injection Hcontent as <-;
      eexists; eexists; split; [reflexivity|]; split;
      [reflexivity | vm_compute; reflexivity].
  - rewrite Hsample in Hrun. injection Hrun as _ <-.
    destruct Hpass as [t' Hvalid]; [discriminate|].
    exists t'. exact Hvalid.
Defined.

(** ** The browser generator and the verifier *)

Section BrowserGeneratorFacts.
Context (P : Platform) (W : Browser).

Lemma browser_fetch_digest (url : string) :
  BrowserGenerator.fetchAndCalculateIntegrity P W url
  = match fetch W url with
    | Some response =>
        ([EvFetch url; EvDigest "SHA-384" (text response)],
         Resolved ("sha384-" ++ btoa (sha384 P (text response))))
    | None => ([EvFetch url], Rejected (TypeError "Failed to fetch"))
    end.
Proof.
  unfold BrowserGenerator.fetchAndCalculateIntegrity, doFetch,
    BrowserGenerator.calculateIntegrity, ImportMapTs.calculateIntegrity.
  rewrite (subtleDigest_SHA384 P).
  destruct (fetch W url); reflexivity.
Qed.

Lemma browser_loop_total (entries : list (string * string)) :
  (forall s u, In (s, u) entries -> exists r, fetch W u = Some r) ->
  forall imp integ, exists t tables,
    BrowserGenerator.generateLoop P W entries imp integ = (t, Resolved tables).
Proof.
  induction entries as [|[s u] rest IH]; intros Hall imp integ.
  - eexists. eexists. reflexivity.
  - cbn [BrowserGenerator.generateLoop]. rewrite browser_fetch_digest.
    destruct (Hall s u (or_introl eq_refl)) as [r ->].
    destruct (IH (fun s' u' H => Hall s' u' (or_intror H))
                 (Obj.assign s u imp)
                 (Obj.assign u ("sha384-" ++ btoa (sha384 P (text r))) integ))
      as (t & tables & Hrun).
    rewrite bind_resolved, Hrun. eexists. eexists. reflexivity.
Qed.

Lemma browser_loop_fails (entries : list (string * string)) :
  forall s u, In (s, u) entries -> fetch W u = None ->
  forall imp integ, exists t,
    BrowserGenerator.generateLoop P W entries imp integ
    = (t, Rejected (TypeError "Failed to fetch")).
Proof.
  induction entries as [|[s0 u0] rest IH]; intros s u Hin Hnone imp integ;
    [destruct Hin|].
  cbn [BrowserGenerator.generateLoop]. rewrite browser_fetch_digest.
  destruct (fetch W u0) as [r|] eqn:Hf.
  - destruct Hin as [Heq|Hin].
    + injection Heq as <- <-. rewrite Hf in Hnone. discriminate.
    + destruct (IH s u Hin Hnone (Obj.assign s0 u0 imp)
                   (Obj.assign u0 ("sha384-" ++ btoa (sha384 P (text r))) integ))
        as [t Hrun].
      rewrite bind_resolved, Hrun. eexists. reflexivity.
  - eexists. reflexivity.
Qed.

Lemma browser_loop_spec (entries : list (string * string)) :
  (forall s u, In (s, u) entries -> s <> "__proto__" /\ u <> "__proto__") ->
  forall imp integ t imp' integ',
    BrowserGenerator.generateLoop P W entries imp integ
    = (t, Resolved (imp', integ')) ->
    (forall s, In s (map fst entries) ->
       exists u, In (s, u) entries /\ Obj.get s imp' = Some u)
    /\ (forall s u, In (s, u) entries ->
          exists r, fetch W u = Some r
                    /\ Obj.get u integ'
                       = Some ("sha384-" ++ btoa (sha384 P (text r))))
    /\ (forall k, ~ In k (map fst entries) -> Obj.get k imp' = Obj.get k imp)
    /\ (forall k, ~ In k (map snd entries) -> Obj.get k integ' = Obj.get k integ).
Proof.
  induction entries as [|[s u] rest IH];
    intros Hnames imp integ t imp' integ' Hrun.
  - injection Hrun as _ <- <-. split; [intros ? []|]. split; [intros ? ? []|].
    split; reflexivity.
  - cbn [BrowserGenerator.generateLoop] in Hrun.
    rewrite browser_fetch_digest in Hrun.
    destruct (fetch W u) as [r|] eqn:Hf; [|discriminate Hrun].
    rewrite bind_resolved in Hrun.
    set (digest := "sha384-" ++ btoa (sha384 P (text r))) in *.
    destruct (Hnames s u (or_introl eq_refl)) as [Hs Hu].
    rewrite (assign_other s u imp Hs), (assign_other u digest integ Hu) in Hrun.
    destruct (BrowserGenerator.generateLoop P W rest (Obj.set s u imp)
                (Obj.set u digest integ)) as [t' [[imp1 integ1]|e]] eqn:Hrest;
      [|discriminate Hrun].
    cbn [fst snd] in Hrun. injection Hrun as _ <- <-.
    destruct (IH (fun s' u' H => Hnames s' u' (or_intror H)) _ _ _ _ _ Hrest)
      as (Himp & Hinteg & Hkeep & Hkeep').
    cbn [map fst snd].
    split; [|split; [|split]].
    + intros s' [<-|Hin].
      * destruct (in_dec string_dec s (map fst rest)) as [Hlater|Hlast].
        -- destruct (Himp s Hlater) as (u' & Hu' & Hget).
           exists u'. split; [now right | exact Hget].
        -- exists u. split; [now left|].
           rewrite (Hkeep s Hlast). apply get_set_same.
      * destruct (Himp s' Hin) as (u' & Hu' & Hget).
        exists u'. split; [now right | exact Hget].
    + intros s' u' [Heq|Hin].
      * injection Heq as <- <-. exists r. split; [exact Hf|].
        destruct (in_dec string_dec u (map snd rest)) as [Hlater|Hlast].
        -- apply in_map_iff in Hlater. destruct Hlater as ([s2 u2] & Hu2 & Hin2).
           cbn [snd] in Hu2. subst u2.
           destruct (Hinteg s2 u Hin2) as (r' & Hf' & Hget).
           rewrite Hf in Hf'. injection Hf' as <-. exact Hget.
        -- rewrite (Hkeep' u Hlast). apply get_set_same.
      * exact (Hinteg s' u' Hin).
    + intros k Hk. rewrite Hkeep.
      * apply get_set_other. intros ->. apply Hk. now left.
      * intros Hin. apply Hk. now right.
    + intros k Hk. rewrite Hkeep'.
      * apply get_set_other. intros ->. apply Hk. now left.
      * intros Hin. apply Hk. now right.
Qed.

End BrowserGeneratorFacts.

(** X19.  The browser generator produces a map exactly when every module
    URL can be fetched; one failing fetch rejects the whole generation with
    the fetch error, and no map is returned.  The response status is not
    looked at. *)
Theorem browser_generation_all_or_nothing :
  forall (P : Platform) (W : Browser) (modules : list (string * string)),
    ((forall specifier url, In (specifier, url) modules ->
        exists response, fetch W url = Some response) ->
     exists t imp integ,
       BrowserGenerator.generateImportMapWithIntegrity P W modules
       = (t, Resolved {| imports := Some imp; scopes := None;
                         integrity := Some integ |}))
    /\ (forall specifier url,
          In (specifier, url) modules -> fetch W url = None ->
          exists t,
            BrowserGenerator.generateImportMapWithIntegrity P W modules
            = (t, Rejected (TypeError "Failed to fetch"))).
Proof.
  intros P W modules. unfold BrowserGenerator.generateImportMapWithIntegrity.
  split.
  - intros Hall.
    destruct (browser_loop_total P W modules Hall [] []) as (t & [imp integ] & Hrun).
    rewrite Hrun, bind_resolved. cbn [ret fst snd]. now eexists _, _, _.
  - intros specifier url Hin Hnone.
    destruct (browser_loop_fails P W modules specifier url Hin Hnone [] [])
      as [t Hrun].
    rewrite Hrun. eexists. reflexivity.
Qed.

Lemma browser_generation_all_or_nothing_witness :
  exists t,
    BrowserGenerator.generateImportMapWithIntegrity Reference.platform
      Examples.tamperedPage Samples.fetched
    = (t, Rejected (TypeError "Failed to fetch")).
Proof.
  apply (proj2 (browser_generation_all_or_nothing Reference.platform
                  Examples.tamperedPage Samples.fetched) "d" "log?name=D").
  - right. left. reflexivity.
  - reflexivity.
Defined.

(** X20.  Generation and verification fit together: in the world a map was
    generated in, for modules none of whose specifiers and URLs is
    [__proto__], [importWithIntegrity] of [src/import-map.ts] imports every
    listed specifier, after fetching the URL the map gives it and finding
    the digest of the body equal to the generated one. *)
Theorem browser_generate_then_import :
  forall (P : Platform) (W : Browser) (modules : list (string * string))
         (t : list event) (m : ImportMap) (specifier : string),
    BrowserGenerator.generateImportMapWithIntegrity P W modules
    = (t, Resolved m) ->
    (forall s u, In (s, u) modules -> s <> "__proto__" /\ u <> "__proto__") ->
    In specifier (map fst modules) ->
    exists url response,
      In (specifier, url) modules
      /\ ImportMapTs.resolveModuleSpecifier specifier m = Js.Str url
      /\ fetch W url = Some response
      /\ ImportMapTs.getIntegrityHash W (Js.Str url) m
         = Js.Str ("sha384-" ++ btoa (sha384 P (text response)))
      /\ ImportMapTs.importWithIntegrity P W specifier m
         = ([EvFetch url; EvDigest "SHA-384" (text response); EvImport url],
            Resolved (ModuleAt url)).
Proof.
  intros P W modules t m specifier Hgen Hnames Hin.
  unfold BrowserGenerator.generateImportMapWithIntegrity in Hgen.
  destruct (BrowserGenerator.generateLoop P W modules [] [])
    as [t0 [[imp integ]|e]] eqn:Hloop; [|discriminate Hgen].
  rewrite bind_resolved in Hgen. cbn [ret fst snd] in Hgen.
  injection Hgen as _ <-.
  destruct (browser_loop_spec P W modules Hnames _ _ _ _ _ Hloop)
    as (Himp & Hinteg & _ & _).
  destruct (Himp specifier Hin) as (url & Hmod & Hget).
  destruct (Hinteg specifier url Hmod) as (response & Hf & Hdigest).
  exists url, response.
  set (generated := {| imports := Some imp; scopes := None;
                       integrity := Some integ |}).
  assert (Hres : ImportMapTs.resolveModuleSpecifier specifier generated
                 = Js.Str url).
  { unfold ImportMapTs.resolveModuleSpecifier. cbn [generated imports].
    unfold Obj.contains, Obj.has. rewrite Hget. cbn [orb].
    now apply index_own. }
  assert (Hhash : ImportMapTs.getIntegrityHash W (Js.Str url) generated
                  = Js.Str ("sha384-" ++ btoa (sha384 P (text response)))).
  { unfold ImportMapTs.getIntegrityHash. cbn [generated integrity].
    now apply index_own. }
  split; [exact Hmod|]. split; [exact Hres|]. split; [exact Hf|].
  split; [exact Hhash|].
  assert (Hne : "sha384-" ++ btoa (sha384 P (text response)) <> "")
    by discriminate.
  rewrite (importWithIntegrity_checked P W specifier generated url _
             Hres Hhash Hne), Hf.
  cbv zeta. now rewrite String.eqb_refl.
Qed.

Lemma browser_generate_then_import_witness :
  exists t m,
    BrowserGenerator.generateImportMapWithIntegrity Reference.platform
      Examples.directPage Samples.fetched = (t, Resolved m)
    /\ ImportMapTs.importWithIntegrity Reference.platform Examples.directPage
         "f" m
       = ([EvFetch "log?name=F"; EvDigest "SHA-384" Examples.moduleF;
           EvImport "log?name=F"], Resolved (ModuleAt "log?name=F")).
Proof.
  destruct (browser_loop_total Reference.platform Examples.directPage
              Samples.fetched) with (imp := @nil (string * string))
                                    (integ := @nil (string * string))
    as (t & [imp integ] & Hloop).
  - intros specifier url Hin.
    destruct Hin as [H|[H|[]]]; injection H as <- <-; eexists; reflexivity.
  - assert (Hgen :
              BrowserGenerator.generateImportMapWithIntegrity Reference.platform
                Examples.directPage Samples.fetched
              = (t, Resolved {| imports := Some imp; scopes := None;
                                integrity := Some integ |})).
    { unfold BrowserGenerator.generateImportMapWithIntegrity.
      rewrite Hloop, bind_resolved. cbn [ret fst snd]. now rewrite app_nil_r. }
    exists t. eexists. split; [exact Hgen|].
    destruct (browser_generate_then_import Reference.platform
                Examples.directPage Samples.fetched t _ "f" Hgen)
      as (url & response & Hmod & _ & Hf & _ & Hrun).
    { intros s u Hmod.
      destruct Hmod as [H|[H|[]]]; injection H as <- <-; split; discriminate. }
    { left. reflexivity. }
    destruct Hmod as [Heq|[Heq|[]]]; [|discriminate Heq].
    injection Heq as <-. vm_compute in Hf. injection Hf as <-. exact Hrun.
Defined.


(** ** Every entry is counted *)

Lemma next_entry_counted (P : Platform) (D : Disk) (distDir : string)
      (r0 : Validator.Results) (entry : string * string) (t : list event)
      (r : Validator.Results) :
  Validator.validateEntry P D distDir r0 entry = (t, Resolved r) ->
  Validator.total r = S (Validator.total r0).
Proof.
  destruct entry as [url h]. intros Hrun.
  destruct (Js.startsWith "sha384-" h) eqn:Htag.
  - destruct (fullPathOf_cases P distDir url) as [[fp Hfp]|Hthrow].
    + destruct (file D fp) as [content|] eqn:Hfile.
      * rewrite (next_entry_present P D distDir url h fp content r0 Htag Hfp Hfile)
          in Hrun.
        destruct (String.eqb ("sha384-" ++ Base64.encode (sha384 P content)) h);
          injection Hrun as _ <-; reflexivity.
      * rewrite (next_entry_missing P D distDir url h fp r0 Htag Hfp Hfile) in Hrun.
        injection Hrun as _ <-. reflexivity.
    + unfold Validator.validateEntry in Hrun. cbv zeta in Hrun.
      change (Validator.algorithm ++ "-") with "sha384-" in Hrun.
      rewrite Htag, Hthrow in Hrun. discriminate Hrun.
  - rewrite (next_entry_foreign P D distDir url h r0 Htag) in Hrun.
    injection Hrun as _ <-. reflexivity.
Qed.

Lemma next_loop_counted (P : Platform) (D : Disk) (distDir : string)
      (entries : ImportMapEntry) :
  forall r0 t r,
    Validator.validateEntries P D distDir entries r0 = (t, Resolved r) ->
    Validator.total r = Validator.total r0 + length entries.
Proof.
  unfold Validator.validateEntries.
  induction entries as [|entry rest IH]; intros r0 t r Hrun.
  - injection Hrun as _ <-. cbn [length]. lia.
  - cbn [forEach] in Hrun.
    destruct (Validator.validateEntry P D distDir r0 entry) as [t1 [r1|e]] eqn:Hstep;
      [|discriminate Hrun].
    rewrite bind_resolved in Hrun.
    destruct (forEach (Validator.validateEntry P D distDir) rest r1)
      as [t2 [r2|e]] eqn:Hrest; [|discriminate Hrun].
    cbn [fst snd] in Hrun. injection Hrun as _ <-.
    rewrite (IH _ _ _ Hrest), (next_entry_counted P D distDir _ _ _ _ Hstep).
    cbn [length]. lia.
Qed.

(** X21.  A run of [validateNextJSBuildIntegrity] that settles with a
    result has been through the whole integrity table: [total] is the
    number of its entries, each of them is counted exactly once as passed,
    failed or missing, and [success] is set exactly when all of them
    passed. *)
Theorem validator_counts_every_entry :
  forall (P : Platform) (D : Disk) (config : Validator.ValidatorConfig)
         (m : ImportMap) (table : ImportMapEntry)
         (t : list event) (r : Validator.Results),
    let dist := Js.orElse (Validator.distDir config) ".next" in
    let mapPath :=
      path_join P dist (Js.orElse (Validator.importMapPath config)
                                  "importmap.json") in
    json D mapPath = Some m ->
    integrity m = Some table ->
    Validator.validateNextJSBuildIntegrity P D config = (t, Resolved r) ->
    Validator.total r = length table
    /\ Validator.passed r + Validator.failed r + Validator.missing r
       = length table
    /\ (Validator.success r = true <-> Validator.passed r = length table).
Proof.
  intros P D config m table t r dist mapPath Hjson Hint.
  unfold Validator.validateNextJSBuildIntegrity.
  fold dist. fold mapPath. rewrite Hjson, Hint.
  destruct (file D mapPath); [|discriminate].
  destruct table as [|entry rest]; [discriminate|].
  intros Hrun. unfold emit in Hrun. rewrite bind_resolved in Hrun.
  destruct (Validator.validateEntries P D dist (entry :: rest) Validator.initial)
    as [tl [results|e]] eqn:Hloop; [|discriminate Hrun].
  rewrite bind_resolved in Hrun. cbn [fst snd] in Hrun.
  pose proof (next_loop_counted P D dist _ _ _ _ Hloop) as Htotal.
  destruct (validator_loop_balanced P D dist _ _ _ Hloop) as [[Hsum Hlen] _].
  cbn [Validator.total Validator.initial Nat.add] in Htotal.
  destruct (Nat.ltb 0 (length (Validator.failures results))) eqn:Hfail;
    cbn [ret fst snd] in Hrun; injection Hrun as _ <-;
    cbn [Validator.setSuccess Validator.total Validator.passed Validator.failed
         Validator.missing Validator.success];
    (split; [exact Htotal|]); (split; [lia|]).
  - apply Nat.ltb_lt in Hfail. split; [discriminate | intros Hp; lia].
  - apply Nat.ltb_ge in Hfail. split; [intros _; lia | reflexivity].
Qed.

Lemma validator_counts_every_entry_witness :
  exists t r,
    Validator.validateNextJSBuildIntegrity Reference.platform
      Examples.partialDisk Examples.defaults = (t, Resolved r)
    /\ Validator.total r = 3
    /\ Validator.passed r + Validator.failed r + Validator.missing r = 3
    /\ (Validator.success r = true <-> Validator.passed r = 3).
Proof.
  assert (Hrun :
            Validator.validateNextJSBuildIntegrity Reference.platform
              Examples.partialDisk Examples.defaults
            = ([EvRead ".next/importmap.json";
                EvRead ".next/a.js"; EvDigest "sha384" Examples.moduleA;
                EvRead ".next/lib/b.js"; EvDigest "sha384" Examples.moduleB],
               Resolved {| Validator.total := 3; Validator.passed := 2;
                           Validator.failed := 0; Validator.missing := 1;
                           Validator.failures :=
                             [Validator.notFound "/gone.js" Examples.digestB];
                           Validator.success := false |}))
    by (vm_compute; reflexivity).
  eexists. eexists. split; [exact Hrun|].
  exact (validator_counts_every_entry Reference.platform Examples.partialDisk
           Examples.defaults Examples.partialMap
           [("/a.js", Examples.digestA); ("/gone.js", Examples.digestB);
            ("/lib/b.js", Examples.digestB)] _ _ eq_refl eq_refl Hrun).
Defined.

(** ** The two resolvers *)

(** X22.  [resolveSpecifier] of the client modules and
    [resolveModuleSpecifier] of [src/import-map.ts] give the same URL unless
    [imports] maps the specifier to the empty string; then the client falls
    back to the specifier itself, while [resolveModuleSpecifier] returns the
    empty string. *)
Theorem resolvers_agree :
  forall (W : Browser) (m : ImportMap) (specifier : string),
    importMapScript W = Some m ->
    ((forall table, imports m = Some table ->
                    Obj.get specifier table <> Some "") ->
     Client.resolveSpecifier W specifier
     = ImportMapTs.resolveModuleSpecifier specifier m)
    /\ (forall table, imports m = Some table ->
                      Obj.get specifier table = Some "" ->
        Client.resolveSpecifier W specifier = specifier
        /\ ImportMapTs.resolveModuleSpecifier specifier m = "").
Proof.
  intros W m specifier Hm.
  unfold Client.resolveSpecifier, Client.getImportMap,
    ImportMapTs.resolveModuleSpecifier. rewrite Hm.
  unfold Obj.contains, Obj.has, Obj.index, Js.orDefault.
  split.
  - intros Hne. destruct (imports m) as [table|]; [|reflexivity].
    specialize (Hne table eq_refl).
    destruct (Obj.get specifier table) as [url|].
    + cbn [orb]. rewrite isTruthy_Str; [reflexivity|].
      intros ->. now apply Hne.
    + cbn [orb]. destruct (Js.inherited specifier); reflexivity.
  - intros table Htable Hget. rewrite Htable, Hget. split; reflexivity.
Qed.

Lemma resolvers_agree_witness :
  Client.resolveSpecifier Examples.aliasPage "log?name=G"
  = ImportMapTs.resolveModuleSpecifier "log?name=G" Examples.aliasMap.
Proof.
  apply (proj1 (resolvers_agree Examples.aliasPage Examples.aliasMap
                  "log?name=G" eq_refl)).
  intros table H. injection H as <-. discriminate.
Defined.


(** ** The Content-Security-Policy written to vercel.json *)




Lemma prefix_app_l (x a b : string) :
  String.prefix x a = true -> String.prefix x (a ++ b) = true.
Proof.
  revert a. induction x as [|c x IH]; intros a H;
    [destruct (a ++ b); reflexivity|].
  destruct a as [|d a]; [discriminate H|].
  change (String d a ++ b) with (String d (a ++ b)).
  cbn [String.prefix] in *. destruct (Ascii.ascii_dec c d); [|discriminate H].
  now apply IH.
Qed.



Lemma append_nil_r (x : string) : x ++ "" = x.
Proof. induction x as [|c x IH]; cbn [append]; [reflexivity | now rewrite IH]. Qed.


Lemma stripPrefix_none (pre s : string) :
  Text.stripPrefix pre s = None -> String.prefix pre s = false.
Proof.
  revert s. induction pre as [|a pre IH]; intros s H; [discriminate H|].
  destruct s as [|b s]; [reflexivity|].
  cbn [Text.stripPrefix String.prefix] in *.
  destruct (Ascii.eqb_spec a b) as [->|Hne].
  - destruct (Ascii.ascii_dec b b); [now apply IH | reflexivity].
  - destruct (Ascii.ascii_dec a b); [contradiction | reflexivity].
Qed.

Lemma takeWhile_notSemicolon (s : string) :
  Js.mentions ";" (Text.takeWhile Vercel.notSemicolon s) = false.
Proof.
  induction s as [|c s IH]; [reflexivity|].
  cbn [Text.takeWhile]. unfold Vercel.notSemicolon at 1.
  destruct (Ascii.eqb c ";") eqn:Hc; [reflexivity|].
  cbn [negb Js.mentions]. now rewrite Hc, IH.
Qed.

Lemma dropWhile_notSemicolon (s : string) :
  Text.dropWhile Vercel.notSemicolon s = ""
  \/ String.prefix ";" (Text.dropWhile Vercel.notSemicolon s) = true.
Proof.
  induction s as [|c s IH]; [now left|].
  cbn [Text.dropWhile]. unfold Vercel.notSemicolon at 1 3.
  destruct (Ascii.eqb_spec c ";") as [->|Hne]; cbn [negb]; [|exact IH].
  right. cbn [String.prefix].
  destruct (Ascii.ascii_dec ";" ";"); [now destruct s | contradiction].
Qed.

Lemma stripPrefix_some (pre s after : string) :
  Text.stripPrefix pre s = Some after -> s = pre ++ after.
Proof.
  revert s. induction pre as [|a pre IH]; intros s H.
  - destruct s; injection H as <-; reflexivity.
  - destruct s as [|b s]; [discriminate H|].
    cbn [Text.stripPrefix] in H.
    destruct (Ascii.eqb_spec a b) as [->|]; [|discriminate H].
    change (String b pre ++ after) with (String b (pre ++ after)).
    now rewrite (IH s H).
Qed.

Lemma takeWhile_dropWhile (keep : ascii -> bool) (s : string) :
  s = Text.takeWhile keep s ++ Text.dropWhile keep s.
Proof.
  induction s as [|c s IH]; [reflexivity|].
  cbn [Text.takeWhile Text.dropWhile]. destruct (keep c); [|reflexivity].
  change (String c (Text.takeWhile keep s) ++ Text.dropWhile keep s)
    with (String c (Text.takeWhile keep s ++ Text.dropWhile keep s)).
  now rewrite <- IH.
Qed.

(** The replacement of the regular expression: the entries go to the end
    of the first [script-src] directive. *)
Lemma extendScriptSrc_shape (entries cspValue : string) :
  Js.includes "script-src " cspValue = true ->
  exists before sources post,
    cspValue = before ++ "script-src " ++ sources ++ post
    /\ Js.includes "script-src " (before ++ "script-src") = false
    /\ Js.mentions ";" sources = false
    /\ (post = "" \/ String.prefix ";" post = true)
    /\ Vercel.extendScriptSrc entries cspValue
       = before ++ "script-src " ++ sources ++ " " ++ entries ++ post.
Proof.
  induction cspValue as [|c rest IH]; intros Hdir; [discriminate Hdir|].
  change (Vercel.extendScriptSrc entries (String c rest))
    with (match Text.stripPrefix "script-src " (String c rest) with
          | Some after =>
              "script-src " ++ Text.takeWhile Vercel.notSemicolon after
                ++ " " ++ entries ++ Text.dropWhile Vercel.notSemicolon after
          | None => String c (Vercel.extendScriptSrc entries rest)
          end).
  destruct (Text.stripPrefix "script-src " (String c rest)) as [after|] eqn:Hs.
  - exists "", (Text.takeWhile Vercel.notSemicolon after),
      (Text.dropWhile Vercel.notSemicolon after).
    split.
    { rewrite (stripPrefix_some _ _ _ Hs).
      now rewrite <- (takeWhile_dropWhile Vercel.notSemicolon after). }
    split; [reflexivity|].
    split; [apply takeWhile_notSemicolon|].
    split; [apply dropWhile_notSemicolon | reflexivity].
  - pose proof (stripPrefix_none _ _ Hs) as Hhere.
    change (Js.includes "script-src " (String c rest))
      with (String.prefix "script-src " (String c rest)
            || Js.includes "script-src " rest) in Hdir.
    rewrite Hhere in Hdir. cbn [orb] in Hdir.
    destruct (IH Hdir)
      as (before & sources & post & Hold & Hfirst & Hclean & Hstop & Hnew).
    exists (String c before), sources, post.
    split.
    { change (String c before ++ "script-src " ++ sources ++ post)
        with (String c (before ++ "script-src " ++ sources ++ post)).
      now rewrite <- Hold. }
    split.
    { change (String c before ++ "script-src")
        with (String c (before ++ "script-src")).
      change (Js.includes "script-src " (String c (before ++ "script-src")))
        with (String.prefix "script-src " (String c (before ++ "script-src"))
              || Js.includes "script-src " (before ++ "script-src")).
      rewrite Hfirst, orb_false_r.
      destruct (String.prefix "script-src " (String c (before ++ "script-src")))
        eqn:Hearly; [|reflexivity].
      apply (prefix_app_l _ _ (" " ++ sources ++ post)) in Hearly.
      change (String c (before ++ "script-src") ++ " " ++ sources ++ post)
        with (String c ((before ++ "script-src") ++ " " ++ sources ++ post))
        in Hearly.
      rewrite append_assoc in Hearly.
      change ("script-src" ++ " " ++ sources ++ post)
        with ("script-src " ++ sources ++ post) in Hearly.
      rewrite <- Hold, Hhere in Hearly. discriminate Hearly. }
    split; [exact Hclean|]. split; [exact Hstop|].
    rewrite Hnew. reflexivity.
Qed.

(** The new value of the header: the old one with the entries inserted at
    one place. *)
Lemma withEntries_inserts (entries cspValue : string) :
  exists pre post inserted,
    cspValue = pre ++ post
    /\ (inserted = " " ++ entries
        \/ inserted = "; script-src 'self' " ++ entries)
    /\ Vercel.withEntries entries cspValue = pre ++ inserted ++ post.
Proof.
  unfold Vercel.withEntries.
  destruct (Js.includes "script-src " cspValue) eqn:Hdir.
  - destruct (extendScriptSrc_shape entries cspValue Hdir)
      as (before & sources & post & Hold & _ & _ & _ & Hnew).
    exists (before ++ "script-src " ++ sources), post, (" " ++ entries).
    split; [now rewrite !append_assoc|]. split; [now left|].
    now rewrite !append_assoc.
  - exists cspValue, "", ("; script-src 'self' " ++ entries).
    split; [now rewrite append_nil_r|]. split; [now right|].
    now rewrite append_nil_r.
Qed.



(** Only the first Content-Security-Policy header of a rule is assigned
    to. *)
Lemma updateHeader_shape (entries : string) (hs : list Vercel.Header) :
  existsb Vercel.isCsp hs = true ->
  exists hbefore h hafter,
    hs = (hbefore ++ h :: hafter)%list
    /\ (forall x, In x hbefore -> Vercel.isCsp x = false)
    /\ Vercel.isCsp h = true
    /\ Vercel.updateHeader entries hs
       = (hbefore
            ++ {| Vercel.key := Vercel.key h;
                  Vercel.value := Vercel.withEntries entries (Vercel.value h) |}
            :: hafter)%list.
Proof.
  induction hs as [|h0 rest IH]; [discriminate|].
  cbn [existsb Vercel.updateHeader]. destruct (Vercel.isCsp h0) eqn:Hh.
  - intros _. exists [], h0, rest. split; [reflexivity|].
    split; [intros x []|]. now split.
  - intros Hrest.
    destruct (IH Hrest) as (hbefore & h & hafter & -> & Hnone & Hcsp & Hnew).
    exists (h0 :: hbefore), h, hafter. split; [reflexivity|]. split.
    + intros x [<-|Hx]; [exact Hh | now apply Hnone].
    + split; [exact Hcsp|]. rewrite Hnew. reflexivity.
Qed.

(** Only the first rule with a source and a Content-Security-Policy header
    is updated. *)
Lemma updateRule_shape (entries : string) (rules : list Vercel.HeaderRule) :
  existsb Vercel.hasCsp rules = true ->
  exists before target after,
    rules = (before ++ target :: after)%list
    /\ (forall r, In r before -> Vercel.hasCsp r = false)
    /\ Vercel.hasCsp target = true
    /\ Vercel.updateRule entries rules
       = Some (before
                 ++ {| Vercel.source := Vercel.source target;
                       Vercel.headers :=
                         option_map (Vercel.updateHeader entries)
                           (Vercel.headers target) |}
                 :: after)%list.
Proof.
  induction rules as [|rule rest IH]; [discriminate|].
  cbn [existsb Vercel.updateRule]. destruct (Vercel.hasCsp rule) eqn:Hrule.
  - intros _. exists [], rule, rest. split; [reflexivity|].
    split; [intros r []|]. now split.
  - intros Hrest.
    destruct (IH Hrest) as (before & target & after & -> & Hnone & Hcsp & Hnew).
    exists (rule :: before), target, after. split; [reflexivity|]. split.
    + intros r [<-|Hr]; [exact Hrule | now apply Hnone].
    + split; [exact Hcsp|]. rewrite Hnew. reflexivity.
Qed.

Lemma updateRule_none (entries : string) (rules : list Vercel.HeaderRule) :
  existsb Vercel.hasCsp rules = false -> Vercel.updateRule entries rules = None.
Proof.
  induction rules as [|rule rest IH]; [reflexivity|].
  cbn [existsb Vercel.updateRule]. destruct (Vercel.hasCsp rule); [discriminate|].
  intros Hrest. now rewrite (IH Hrest).
Qed.

(** What is written, for a configuration with a rule to update. *)
Lemma generateVercelConfig_update (existing : Vercel.VercelJson)
      (importMap : Tables) :
  existsb Vercel.hasCsp (Vercel.loadRules existing) = true ->
  exists before target after hbefore h hafter,
    Vercel.loadRules existing = (before ++ target :: after)%list
    /\ (forall r, In r before -> Vercel.hasCsp r = false)
    /\ Js.truthy (Vercel.source target) = true
    /\ Vercel.headers target = Some (hbefore ++ h :: hafter)%list
    /\ (forall x, In x hbefore -> Vercel.isCsp x = false)
    /\ Vercel.isCsp h = true
    /\ Vercel.generateVercelConfig existing importMap
       = (before
            ++ {| Vercel.source := Vercel.source target;
                  Vercel.headers :=
                    Some (hbefore
                            ++ {| Vercel.key := Vercel.key h;
                                  Vercel.value :=
                                    Vercel.withEntries
                                      (Vercel.scriptSrcEntries importMap)
                                      (Vercel.value h) |}
                            :: hafter)%list |}
            :: after)%list.
Proof.
  intros Hsome. unfold Vercel.generateVercelConfig. cbv zeta.
  destruct (updateRule_shape (Vercel.scriptSrcEntries importMap) _ Hsome)
    as (before & target & after & Hrules & Hnone & Hcsp & Hnew).
  rewrite Hnew. unfold Vercel.hasCsp in Hcsp. apply andb_true_iff in Hcsp.
  destruct Hcsp as [Hsource Hcsp].
  destruct (Vercel.headers target) as [hs|] eqn:Hhs; [|discriminate Hcsp].
  destruct (updateHeader_shape (Vercel.scriptSrcEntries importMap) hs Hcsp)
    as (hbefore & h & hafter & -> & Hnone' & Hh & Hnew').
  exists before, target, after, hbefore, h, hafter.
  repeat (split; [assumption || reflexivity|]).
  cbn [option_map]. now rewrite Hnew'.
Qed.



(** X24.  [generateVercelConfig] only adds to an existing configuration.
    If no rule of [vercel.json] has a source and a Content-Security-Policy
    header, the written [headers] are the old rules, in order and as they
    were, followed by one new rule.  Otherwise they are the old rules, in
    order, all as they were but the first that has both; of that rule the
    headers are the old ones, in order, all as they were but the first
    Content-Security-Policy header, which keeps its key and whose value is
    the old value with the quoted digests inserted at one place, led by a
    space or by [; script-src 'self' ]. *)
Theorem vercel_config_only_adds :
  forall (existing : Vercel.VercelJson) (importMap : Tables),
    Js.mentions "$" (Vercel.scriptSrcEntries importMap) = false ->
    (existsb Vercel.hasCsp (Vercel.loadRules existing) = false ->
     Vercel.generateVercelConfig existing importMap
     = (Vercel.loadRules existing
          ++ [{| Vercel.source := Some "/(.*)";
                 Vercel.headers :=
                   Some [{| Vercel.key := "Content-Security-Policy";
                            Vercel.value :=
                              "default-src 'self'; script-src 'self' "
                                ++ Vercel.scriptSrcEntries importMap |}] |}])%list)
    /\ (existsb Vercel.hasCsp (Vercel.loadRules existing) = true ->
        exists before target after hbefore h hafter pre post inserted,
          Vercel.loadRules existing = (before ++ target :: after)%list
          /\ (forall r, In r before -> Vercel.hasCsp r = false)
          /\ Js.truthy (Vercel.source target) = true
          /\ Vercel.headers target = Some (hbefore ++ h :: hafter)%list
          /\ (forall x, In x hbefore -> Vercel.isCsp x = false)
          /\ Vercel.isCsp h = true
          /\ Vercel.value h = pre ++ post
          /\ (inserted = " " ++ Vercel.scriptSrcEntries importMap
              \/ inserted = "; script-src 'self' "
                              ++ Vercel.scriptSrcEntries importMap)
          /\ Vercel.generateVercelConfig existing importMap
             = (before
                  ++ {| Vercel.source := Vercel.source target;
                        Vercel.headers :=
                          Some (hbefore
                                  ++ {| Vercel.key := Vercel.key h;
                                        Vercel.value := pre ++ inserted ++ post |}
                                  :: hafter)%list |}
                  :: after)%list).
Proof.
  intros existing importMap _. split.
  - intros Hnone. unfold Vercel.generateVercelConfig. cbv zeta.
    now rewrite (updateRule_none _ _ Hnone).
  - intros Hsome.
    destruct (generateVercelConfig_update existing importMap Hsome)
      as (before & target & after & hbefore & h & hafter
          & Hrules & Hnone & Hsource & Hhs & Hnone' & Hh & Hnew).
    destruct (withEntries_inserts (Vercel.scriptSrcEntries importMap)
                (Vercel.value h)) as (pre & post & inserted & Hold & Hins & Hvalue).
    exists before, target, after, hbefore, h, hafter, pre, post, inserted.
    repeat (split; [assumption|]). now rewrite <- Hvalue.
Qed.

Lemma vercel_config_only_adds_witness :
  Vercel.generateVercelConfig Vercel.NoFile Samples.pluginMap
  = [{| Vercel.source := Some "/(.*)";
        Vercel.headers :=
          Some [{| Vercel.key := "Content-Security-Policy";
                   Vercel.value :=
                     "default-src 'self'; script-src 'self' "
                       ++ Vercel.scriptSrcEntries Samples.pluginMap |}] |}]
  /\ exists before target after hbefore h hafter pre post inserted,
       Vercel.loadRules Samples.vercelJson = (before ++ target :: after)%list
       /\ Vercel.headers target = Some (hbefore ++ h :: hafter)%list
       /\ Vercel.value h = pre ++ post
       /\ Vercel.generateVercelConfig Samples.vercelJson Samples.pluginMap
          = (before
               ++ {| Vercel.source := Vercel.source target;
                     Vercel.headers :=
                       Some (hbefore
                               ++ {| Vercel.key := Vercel.key h;
                                     Vercel.value := pre ++ inserted ++ post |}
                               :: hafter)%list |}
               :: after)%list.
Proof.
  split.
  - exact (proj1 (vercel_config_only_adds Vercel.NoFile Samples.pluginMap
                    eq_refl) eq_refl).
  - destruct (proj2 (vercel_config_only_adds Samples.vercelJson
                       Samples.pluginMap eq_refl) eq_refl)
      as (before & target & after & hbefore & h & hafter & pre & post & inserted
          & Hrules & _ & _ & Hhs & _ & _ & Hold & _ & Hnew).
    exists before, target, after, hbefore, h, hafter, pre, post, inserted.
    now repeat split.
Defined.


(** ** Scanning directories for modules *)

Lemma Node_induction (Q : Scanner.Node -> Prop) :
  Q Scanner.File -> Q Scanner.Special ->
  (forall reason, Q (Scanner.Unreadable reason)) ->
  (forall items,
      (forall item child, In (item, child) items -> Q child) ->
      Q (Scanner.Directory items)) ->
  forall node, Q node.
Proof.
  intros Hfile Hspecial Hbad Hdir. fix IH 1. intros [|items| |reason].
  - exact Hfile.
  - apply Hdir. induction items as [|[item0 child0] rest IHitems].
    + intros item child [].
    + intros item child [Heq|Hin].
      * injection Heq as _ <-. apply IH.
      * exact (IHitems item child Hin).
  - exact Hspecial.
  - apply Hbad.
Qed.

Section ScannerFacts.
Context (P : Platform) (D : Disk) (root : string -> option Scanner.Node)
        (relative : string -> string).

Lemma Holds_inv (dir path : string) (items : list (string * Scanner.Node)) :
  Scanner.Holds P dir (Scanner.Directory items) path
  <-> exists item child,
        In (item, child) items
        /\ ((child = Scanner.File /\ path = path_join P dir item)
            \/ (exists below, child = Scanner.Directory below)
               /\ Scanner.Holds P (path_join P dir item) child path).
Proof.
  split.
  - intros H. inversion H as [d its item Hin | d its item below p Hin Hbelow];
      subst.
    + exists item, Scanner.File. split; [exact Hin|]. left. now split.
    + exists item, (Scanner.Directory below). split; [exact Hin|]. right.
      split; [now exists below | exact Hbelow].
  - intros (item & child & Hin & [[-> ->]|[[below ->] Hbelow]]).
    + now apply Scanner.holds_here.
    + now apply (Scanner.holds_below P dir items item below).
Qed.

(** The scan leaves no trace of its own. *)
Lemma filesBelow_quiet (node : Scanner.Node) :
  forall dir, trace (Scanner.filesBelow P dir node) = [].
Proof.
  induction node as [| |reason|items IH] using Node_induction; intros dir;
    try reflexivity.
  cbn [Scanner.filesBelow].
  induction items as [|[item0 child0] rest IHrest]; [reflexivity|].
  assert (IH' : forall item child, In (item, child) rest ->
                  forall dir, trace (Scanner.filesBelow P dir child) = [])
    by (intros item child Hin; apply (IH item child); now right).
  specialize (IHrest IH').
  destruct child0 as [|below| |reason].
  - destruct ((fix loop (items : list (string * Scanner.Node)) := _) rest)
      as [t [more|e]]; cbn in IHrest |- *; subst t; reflexivity.
  - pose proof (IH item0 (Scanner.Directory below) (or_introl eq_refl)
                  (path_join P dir item0)) as Hhere.
    destruct (Scanner.filesBelow P (path_join P dir item0)
                (Scanner.Directory below)) as [t0 [found|e]];
      cbn in Hhere; subst t0; [|reflexivity].
    rewrite bind_resolved.
    destruct ((fix loop (items : list (string * Scanner.Node)) := _) rest)
      as [t [more|e]]; cbn in IHrest |- *; subst t; reflexivity.
  - exact IHrest.
  - reflexivity.
Qed.

Lemma filesBelow_spec (node : Scanner.Node) :
  forall dir t files,
    Scanner.filesBelow P dir node = (t, Resolved files) ->
    forall path, In path files <-> Scanner.Holds P dir node path.
Proof.
  induction node as [| |reason|items IH] using Node_induction;
    intros dir t files Hrun; try discriminate Hrun.
  intros path. rewrite Holds_inv. cbn [Scanner.filesBelow] in Hrun.
  revert t files Hrun path.
  induction items as [|[item0 child0] rest IHrest]; intros t files Hrun path.
  - injection Hrun as _ <-.
    split; [intros [] | intros (item & child & [] & _)].
  - assert (IH' : forall item child, In (item, child) rest ->
                    forall dir t files,
                      Scanner.filesBelow P dir child = (t, Resolved files) ->
                      forall path,
                        In path files <-> Scanner.Holds P dir child path)
      by (intros item child Hin; apply (IH item child); now right).
    specialize (IHrest IH').
    destruct child0 as [|below| |reason].
    + destruct ((fix loop (items : list (string * Scanner.Node)) := _) rest)
        as [t1 [more|e]] eqn:Hrest; [|discriminate Hrun].
      rewrite bind_resolved in Hrun. cbn [ret fst snd] in Hrun.
      injection Hrun as _ <-. cbn [In].
      rewrite (IHrest _ _ eq_refl). split.
      * intros [<-|(item & child & Hin & Hcase)].
        -- exists item0, Scanner.File. split; [now left|]. left. now split.
        -- exists item, child. split; [now right | exact Hcase].
      * intros (item & child & [Heq|Hin] & Hcase).
        -- injection Heq as <- <-.
           destruct Hcase as [[_ ->]|[[b Hb] _]]; [now left | discriminate Hb].
        -- right. now exists item, child.
    + destruct (Scanner.filesBelow P (path_join P dir item0)
                  (Scanner.Directory below)) as [t0 [found|e]] eqn:Hhere;
        [|discriminate Hrun].
      rewrite bind_resolved in Hrun.
      destruct ((fix loop (items : list (string * Scanner.Node)) := _) rest)
        as [t1 [more|e]] eqn:Hrest; [|discriminate Hrun].
      rewrite bind_resolved in Hrun. cbn [ret fst snd] in Hrun.
      injection Hrun as _ <-.
      rewrite in_app_iff, (IHrest _ _ eq_refl).
      rewrite (IH item0 (Scanner.Directory below) (or_introl eq_refl)
                 _ _ _ Hhere).
      split.
      * intros [Hfound|(item & child & Hin & Hcase)].
        -- exists item0, (Scanner.Directory below). split; [now left|].
           right. split; [now exists below | exact Hfound].
        -- exists item, child. split; [now right | exact Hcase].
      * intros (item & child & [Heq|Hin] & Hcase).
        -- injection Heq as <- <-.
           destruct Hcase as [[Hf _]|[_ Hb]]; [discriminate Hf | now left].
        -- right. now exists item, child.
    + rewrite (IHrest _ _ Hrun). split.
      * intros (item & child & Hin & Hcase).
        exists item, child. split; [now right | exact Hcase].
      * intros (item & child & [Heq|Hin] & Hcase).
        -- injection Heq as <- <-.
           destruct Hcase as [[Hf _]|[[b Hb] _]]; discriminate.
        -- now exists item, child.
    + discriminate Hrun.
Qed.

(** A directory that can be read throughout is scanned to the end; one
    that cannot makes the scan throw. *)
Lemma filesBelow_settles (node : Scanner.Node) :
  forall dir items,
    node = Scanner.Directory items ->
    if Scanner.readable node
    then exists files, Scanner.filesBelow P dir node = ret files
    else exists reason, Scanner.filesBelow P dir node = throw reason.
Proof.
  induction node as [| |reason|items0 IH] using Node_induction;
    intros dir items Hnode; try discriminate Hnode.
  clear items Hnode. cbn [Scanner.filesBelow Scanner.readable].
  induction items0 as [|[item0 child0] rest IHrest].
  - now exists [].
  - assert (IH' : forall item child, In (item, child) rest ->
                    forall dir items,
                      child = Scanner.Directory items ->
                      if Scanner.readable child
                      then exists files,
                             Scanner.filesBelow P dir child = ret files
                      else exists reason,
                             Scanner.filesBelow P dir child = throw reason)
      by (intros item child Hin; apply (IH item child); now right).
    specialize (IHrest IH').
    destruct child0 as [|below| |reason].
    + cbn [Scanner.readable andb].
      destruct ((fix all (items : list (string * Scanner.Node)) := _) rest).
      * destruct IHrest as [more ->]. now exists (path_join P dir item0 :: more).
      * destruct IHrest as [reason ->]. now exists reason.
    + pose proof (IH item0 (Scanner.Directory below) (or_introl eq_refl)
                    (path_join P dir item0) below eq_refl) as Hhere.
      destruct (Scanner.readable (Scanner.Directory below)).
      * destruct Hhere as [found ->]. rewrite bind_ret_l. cbn [andb].
        destruct ((fix all (items : list (string * Scanner.Node)) := _) rest).
        -- destruct IHrest as [more ->]. now exists (found ++ more)%list.
        -- destruct IHrest as [reason ->]. now exists reason.
      * destruct Hhere as [reason ->]. cbn [andb]. now exists reason.
    + cbn [Scanner.readable andb]. exact IHrest.
    + cbn [Scanner.readable andb]. now exists reason.
Qed.

(** The inner loop: what it reads is what it stores. *)
Lemma readModules_loop (extensions files : list string) :
  forall modules t modules',
    forEach (Scanner.readModule P D relative extensions) files modules
    = (t, Resolved modules') ->
    (forall k v, In (k, v) modules' ->
       In (k, v) modules
       \/ exists filePath,
            In filePath files
            /\ existsb (String.eqb (path_extname P filePath)) extensions = true
            /\ k = relative filePath
            /\ file D filePath = Some v)
    /\ (forall k, Obj.has k modules = true -> Obj.has k modules' = true)
    /\ (forall filePath,
          In filePath files ->
          existsb (String.eqb (path_extname P filePath)) extensions = true ->
          Obj.has (relative filePath) modules' = true).
Proof.
  induction files as [|filePath rest IH]; intros modules t modules' Hrun.
  - injection Hrun as _ <-. split; [now left|]. split; [trivial | intros ? []].
  - cbn [forEach] in Hrun. unfold Scanner.readModule at 1 in Hrun.
    destruct (existsb (String.eqb (path_extname P filePath)) extensions) eqn:Hext.
    + destruct (file D filePath) as [content|] eqn:Hfile; [|discriminate Hrun].
      unfold emit in Hrun. rewrite bind_resolved in Hrun. cbn [ret fst snd app] in Hrun.
      rewrite bind_resolved in Hrun.
      destruct (forEach (Scanner.readModule P D relative extensions) rest
                  (Obj.set (relative filePath) content modules))
        as [t' [final|e]] eqn:Hrest; [|discriminate Hrun].
      cbn [fst snd] in Hrun. injection Hrun as _ <-.
      destruct (IH _ _ _ Hrest) as (Hfrom & Hhas & Hhit).
      split; [|split].
      * intros k v Hin. destruct (Hfrom k v Hin) as [Hold|Hnew].
        -- destruct (set_In _ _ _ _ _ Hold) as [Heq|Holder]; [|now left].
           injection Heq as -> ->. right. exists filePath.
           split; [now left|]. now repeat split.
        -- destruct Hnew as (f & Hf & Hrest'). right. exists f.
           split; [now right | exact Hrest'].
      * intros k Hk. apply Hhas. now apply has_set_other.
      * intros f [<-|Hf] Hfext; [apply Hhas, has_set | now apply Hhit].
    + rewrite bind_ret_l in Hrun.
      destruct (IH _ _ _ Hrun) as (Hfrom & Hhas & Hhit).
      split; [|split].
      * intros k v Hin. destruct (Hfrom k v Hin) as [Hold|Hnew]; [now left|].
        destruct Hnew as (f & Hf & Hrest'). right. exists f.
        split; [now right | exact Hrest'].
      * exact Hhas.
      * intros f [<-|Hf] Hfext; [rewrite Hext in Hfext; discriminate|].
        now apply Hhit.
Qed.

(** The outer loop over the directories. *)
Lemma readDirectories_loop (extensions directories : list string) :
  forall modules t modules',
    forEach
      (fun modules dir =>
         Generator.invariant
           (match root dir with Some _ => true | None => false end)
           ("Directory does not exist: " ++ dir) ;;;
         files <- Scanner.getAllFiles P root dir ;;
         forEach (Scanner.readModule P D relative extensions) files modules)
      directories modules
    = (t, Resolved modules') ->
    (forall dir, In dir directories ->
       exists items, root dir = Some (Scanner.Directory items))
    /\ (forall k v, In (k, v) modules' ->
          In (k, v) modules
          \/ exists dir items filePath,
               In dir directories
               /\ root dir = Some (Scanner.Directory items)
               /\ Scanner.Holds P dir (Scanner.Directory items) filePath
               /\ existsb (String.eqb (path_extname P filePath)) extensions = true
               /\ k = relative filePath
               /\ file D filePath = Some v)
    /\ (forall k, Obj.has k modules = true -> Obj.has k modules' = true)
    /\ (forall dir items filePath,
          In dir directories ->
          root dir = Some (Scanner.Directory items) ->
          Scanner.Holds P dir (Scanner.Directory items) filePath ->
          existsb (String.eqb (path_extname P filePath)) extensions = true ->
          Obj.has (relative filePath) modules' = true).
Proof.
  induction directories as [|dir rest IH]; intros modules t modules' Hrun.
  - injection Hrun as _ <-. split; [intros ? []|]. split; [now left|].
    split; [trivial | intros ? ? ? []].
  - cbn [forEach] in Hrun. unfold Scanner.getAllFiles in Hrun.
    destruct (root dir) as [[|items| |reason]|] eqn:Hroot;
      try (unfold Generator.invariant in Hrun; cbn [negb] in Hrun;
           discriminate Hrun).
    unfold Generator.invariant in Hrun. cbn [negb] in Hrun.
    rewrite !bind_ret_l in Hrun.
    destruct (Scanner.filesBelow P dir (Scanner.Directory items))
      as [t0 [files|e]] eqn:Hfiles; [|discriminate Hrun].
    pose proof (filesBelow_quiet (Scanner.Directory items) dir) as Hquiet.
    rewrite Hfiles in Hquiet. cbn [trace fst] in Hquiet. subst t0.
    change (@pair (list event) (outcome (list string)) [] (Resolved files))
      with (ret files) in Hrun.
    rewrite bind_ret_l in Hrun.
    destruct (forEach (Scanner.readModule P D relative extensions)
                files modules)
      as [t1 [step|e]] eqn:Hinner; [|discriminate Hrun].
    rewrite bind_resolved in Hrun.
    destruct (forEach _ rest step) as [t2 [final|e]] eqn:Hrest;
      [|discriminate Hrun].
    cbn [fst snd] in Hrun. injection Hrun as _ <-.
    destruct (readModules_loop _ _ _ _ _ Hinner) as (Hfrom1 & Hhas1 & Hhit1).
    destruct (IH _ _ _ Hrest) as (Hdirs & Hfrom & Hhas & Hhit).
    split; [|split; [|split]].
    + intros d [<-|Hd]; [now exists items | now apply Hdirs].
    + intros k v Hin. destruct (Hfrom k v Hin) as [Hstep|Hnew].
      * destruct (Hfrom1 k v Hstep) as [Hold|(f & Hf & Hext & Hk & Hv)];
          [now left|].
        right. exists dir, items, f. split; [now left|]. split; [exact Hroot|].
        split; [now apply (filesBelow_spec _ _ _ _ Hfiles)|]. now repeat split.
      * destruct Hnew as (d & its & f & Hd & Hrest'). right. exists d, its, f.
        split; [now right | exact Hrest'].
    + intros k Hk. now apply Hhas, Hhas1.
    + intros d its f [<-|Hd] Hr Hholds Hext.
      * rewrite Hroot in Hr. injection Hr as <-.
        apply Hhas, Hhit1;
          [now apply (filesBelow_spec _ _ _ _ Hfiles) | exact Hext].
      * now apply (Hhit d its f).
Qed.

End ScannerFacts.

(** X25.  [getAllFiles] on a directory in which every entry, at any
    depth, can be read by [fs.statSync] and every directory by
    [fs.readdirSync], returns exactly the regular files at any depth below
    it, each as the [path.join] of the directories on the way and its
    name; a directory is never listed itself, and an entry that is neither
    a file nor a directory is skipped.  If some entry below cannot be read
    (a link that leads nowhere), the call throws.  A missing directory is a
    [ModuleIntegrityError]. *)
Theorem getAllFiles_lists_regular_files :
  forall (P : Platform) (root : string -> option Scanner.Node) (dir : string),
    (forall items,
        root dir = Some (Scanner.Directory items) ->
        (Scanner.readable (Scanner.Directory items) = true ->
         exists files,
           Scanner.getAllFiles P root dir = ret files
           /\ forall path,
                In path files
                <-> Scanner.Holds P dir (Scanner.Directory items) path)
        /\ (Scanner.readable (Scanner.Directory items) = false ->
            exists reason, Scanner.getAllFiles P root dir = throw reason))
    /\ (root dir = None ->
        Scanner.getAllFiles P root dir
        = throw (ModuleIntegrityError
                   ("[ModuleIntegrity] Directory does not exist: " ++ dir))).
Proof.
  intros P root dir. unfold Scanner.getAllFiles. split.
  - intros items ->.
    pose proof (filesBelow_settles P (Scanner.Directory items) dir items
                  eq_refl) as Hsettles.
    split; intros Hreadable; rewrite Hreadable in Hsettles.
    + destruct Hsettles as [files Hrun]. exists files.
      split; [exact Hrun|]. intros path.
      exact (filesBelow_spec P _ _ _ _ Hrun path).
    + exact Hsettles.
  - intros ->. reflexivity.
Qed.

Lemma getAllFiles_lists_regular_files_witness :
  Scanner.getAllFiles Reference.platform Samples.projectRoot "src"
  = ret ["src/a.js"; "src/lib/b.js"; "src/lib/notes.txt"]
  /\ Scanner.Holds Reference.platform "src"
       (Scanner.Directory Samples.project) "src/lib/b.js"
  /\ exists reason,
       Scanner.getAllFiles Reference.platform Samples.projectRoot "old"
       = throw reason.
Proof.
  destruct (getAllFiles_lists_regular_files Reference.platform
              Samples.projectRoot "src") as [Hsrc _].
  destruct (proj1 (Hsrc Samples.project eq_refl) eq_refl)
    as (files & Hrun & Hlisted).
  destruct (getAllFiles_lists_regular_files Reference.platform
              Samples.projectRoot "old") as [Hold _].
  split; [reflexivity|]. split.
  - apply Hlisted. vm_compute in Hrun. injection Hrun as <-.
    right. left. reflexivity.
  - exact (proj2 (Hold Samples.relinked eq_refl) eq_refl).
Defined.



(** X27.  Scan, generate, validate: with POSIX paths, take the modules
    that [readModulesFromDirectories] returns, the map that
    [generateImportMapWithIntegrity] makes of them under base URL ["/"], and
    store it as [importmap.json] in the working directory.  If the scanned
    files have plain relative paths that name the same files, then
    [validateNextJSBuildIntegrity] run in place reports every entry as
    passed. *)
Theorem scan_generate_validate :
  forall (D : Disk) (root : string -> option Scanner.Node)
         (relative : string -> string) (directories extensions : list string)
         (t : list event) (modules : list (string * string)) (m : ImportMap)
         (mapText : string),
    Scanner.readModulesFromDirectories Reference.platform D root relative
      directories extensions = (t, Resolved modules) ->
    (forall dir items filePath,
        In dir directories ->
        root dir = Some (Scanner.Directory items) ->
        Scanner.Holds Reference.platform dir (Scanner.Directory items) filePath ->
        Posix.plain (relative filePath) = true
        /\ file D (relative filePath) = file D filePath) ->
    settled (Generator.generateImportMapWithIntegrity Reference.platform
               modules "/") = Resolved m ->
    file D "importmap.json" = Some mapText ->
    json D "importmap.json" = Some m ->
    exists t' r table,
      Validator.validateNextJSBuildIntegrity Reference.platform D
        {| Validator.distDir := Some "."; Validator.importMapPath := None |}
      = (t', Resolved r)
      /\ integrity m = Some table
      /\ table <> []
      /\ Validator.allPassed (length table) r.
Proof.
  intros D root relative directories extensions t modules m mapText
         Hscan Hpaths Hgen Hfile Hjson.
  unfold Scanner.readModulesFromDirectories, Generator.invariant in Hscan.
  destruct directories as [|dir0 dirs]; [discriminate Hscan|].
  destruct extensions as [|ext0 exts]; [discriminate Hscan|].
  cbn [length Nat.ltb Nat.leb negb] in Hscan. rewrite !bind_ret_l in Hscan.
  destruct (readDirectories_loop Reference.platform D root relative _ _ _ _ _
              Hscan) as (_ & Hfrom & _ & _).
  apply (round_trip_layout Reference.platform D modules "/"
           {| Validator.distDir := Some "."; Validator.importMapPath := None |}
           m mapText Hgen Hfile Hjson).
  intros p c Hin.
  destruct (Hfrom p c Hin)
    as [[]|(dir & items & filePath & Hdir & Hroot & Hholds & _ & -> & Hcontent)].
  destruct (Hpaths dir items filePath Hdir Hroot Hholds) as [Hplain Hsame].
  exists (relative filePath). split.
  - rewrite (urlOf_rooted_plain _ Hplain). exact (fullPathOf_in_place _ Hplain).
  - now rewrite Hsame.
Qed.

Lemma scan_generate_validate_witness :
  exists t' r,
    Validator.validateNextJSBuildIntegrity Reference.platform
      Samples.projectDisk Examples.inPlace = (t', Resolved r)
    /\ Validator.allPassed 2 r.
Proof.
  destruct (scan_generate_validate Samples.projectDisk Samples.projectRoot
              Samples.sameRelative ["src"] [".js"; ".mjs"]
              [EvRead "src/a.js"; EvRead "src/lib/b.js"]
              [("src/a.js", Examples.moduleA); ("src/lib/b.js", Examples.moduleB)]
              Samples.scannedMap Examples.jsonText)
    as (t' & r & table & Hrun & Htable & _ & Hall).
  - vm_compute. reflexivity.
  - intros dir items filePath [<-|[]] Hroot Hholds.
    injection Hroot as <-.
    apply (filesBelow_spec Reference.platform (Scanner.Directory Samples.project)
             "src" [] ["src/a.js"; "src/lib/b.js"; "src/lib/notes.txt"]
             eq_refl) in Hholds.
    destruct Hholds as [<-|[<-|[<-|[]]]]; split; reflexivity.
  - vm_compute. reflexivity.
  - reflexivity.
  - reflexivity.
  - injection Htable as <-. exists t', r. split; [exact Hrun | exact Hall].
Defined.
